(** * Multi-agent workflow orchestration (src/multi_agent/orchestrator.py)

    A shallow embedding of [AgentExecutor] and [WorkflowOrchestrator] and of
    the part of [agents.py] they use, followed by the properties of the
    plan / execute / review / revise / finalize loop.

    Conventions of the embedding.
    - Python values that come out of [json.loads] are terms of [json]; Python's
      [None] is [JNull].  Attribute and type errors raised by the interpreter
      when a reply has an unexpected shape are results [Raise _] of type [Exc].
    - The text-generation backend is an oracle [client]: it receives the number
      of completions requested so far and the request, and returns the reply
      text, a reply without text, or raises.  The call counter is threaded
      through every function that reaches the backend.  The content of the
      chat messages (system prompt, serialised context, knowledge-base
      snippets) only shapes the text sent out, so the oracle is given the
      pieces themselves.
    - Building the messages happens before the [try] of [execute]: when
      [json.dumps] raises there, [execute] raises, and so do [_execute_step]
      and [run_workflow].  The indented encoder recurses once per nesting
      level, so it is the depth of the parsed replies in the context that
      decides; what the search client returns, and whether it can be
      serialised, is an oracle of the backend.
    - [str.upper], [json.loads] and the room the interpreter's recursion limit
      leaves to [json.dumps] belong to the Python runtime and are fields of the
      class [Runtime] the development is parametrised by.
    - A [WorkflowStep] object lives in [workflow.steps]; code that mutates a
      step mutates the list cell, so steps are addressed by their index.
    - [run_workflow] is first taken without a [stream_callback]; the run with
      a callback is a section of its own.
    - Time stamps and the never-assigned [input_data] are left out. *)

From Stdlib Require Import ZArith String Ascii List Bool Lia.
From Stdlib Require Import Floats.PrimFloat.
From stdpp Require Import base option list gmap strings.

#[local] Set Warnings "-register-all,-clear-no-such-hyp".
#[local] Open Scope Z_scope.

(** ** Python values *)

Inductive json : Type :=
| JNull
| JBool (b : bool)
| JInt (z : Z)
| JFloat (f : float)
| JStr (s : string)
| JArr (items : list json)
| JObj (fields : list (string * json)).

(** [bool(v)], the test behind [if v:], [not v] and [a or b]. *)
Definition truthy (v : json) : bool :=
  match v with
  | JNull => false
  | JBool b => b
  | JInt z => negb (z =? 0)
  | JFloat f => negb (PrimFloat.eqb f PrimFloat.zero)
  | JStr s => negb (String.eqb s "")
  | JArr items => match items with [] => false | _ :: _ => true end
  | JObj fields => match fields with [] => false | _ :: _ => true end
  end.

(** How deep the lists and dictionaries of a value nest: 0 for a scalar,
    one more than its deepest member for a list or a dictionary. *)
Fixpoint json_depth (v : json) : nat :=
  match v with
  | JArr items =>
      S ((fix deepest (l : list json) : nat :=
            match l with
            | [] => 0%nat
            | x :: rest => Nat.max (json_depth x) (deepest rest)
            end) items)
  | JObj fields =>
      S ((fix deepest (l : list (string * json)) : nat :=
            match l with
            | [] => 0%nat
            | (_, x) :: rest => Nat.max (json_depth x) (deepest rest)
            end) fields)
  | _ => 0%nat
  end.

Inductive exn : Type := AttributeError | TypeError | RecursionError.

Inductive Exc (A : Type) : Type :=
| Ok (a : A)
| Raise (e : exn).
Arguments Ok {A} a.
Arguments Raise {A} e.

Definition bind {A B} (m : Exc A) (k : A -> Exc B) : Exc B :=
  match m with
  | Ok a => k a
  | Raise e => Raise e
  end.

Notation "x <- m ;; k" := (bind m (fun x => k))
  (at level 100, m at next level, right associativity).

Definition is_ok {A} (m : Exc A) : bool :=
  match m with Ok _ => true | Raise _ => false end.

(** What [json.loads] makes of a text: a value, a [json.JSONDecodeError], or
    another exception (a [ValueError] on an integer of too many digits, a
    [RecursionError] on a text nested too deeply); [msg] is [str(e)]. *)
Inductive Loaded : Type :=
| Decoded (v : json)
| Undecodable
| LoadRaised (msg : string).

(** Key lookup in a decoded object.  [json.loads] keeps one value per key,
    so a decoded object lists a key once. *)
Fixpoint dict_get (key : string) (fields : list (string * json)) : option json :=
  match fields with
  | [] => None
  | (k, v) :: rest => if String.eqb k key then Some v else dict_get key rest
  end.

(** [v.get(key, default)]: only dictionaries have the method. *)
Definition py_get (v : json) (key : string) (default : json) : Exc json :=
  match v with
  | JObj fields =>
      match dict_get key fields with
      | Some x => Ok x
      | None => Ok default
      end
  | _ => Raise AttributeError
  end.

(** [for x in v]: lists yield their items, dictionaries their keys, strings
    their characters; nothing else is iterable. *)
Definition py_iter (v : json) : Exc (list json) :=
  match v with
  | JArr items => Ok items
  | JObj fields => Ok (map (fun kv => JStr (fst kv)) fields)
  | JStr s => Ok (map (fun c => JStr (String c EmptyString)) (list_ascii_of_string s))
  | _ => Raise TypeError
  end.

(** ** agents.py *)

Inductive AgentRole : Type :=
| ORCHESTRATOR | TRIAGE | RESEARCH | COMPLIANCE | REVIEW | OUTPUT.

#[export] Instance AgentRole_eq_dec : EqDecision AgentRole.
Proof. solve_decision. Defined.

(** [role.value] *)
Definition role_value (r : AgentRole) : string :=
  match r with
  | ORCHESTRATOR => "orchestrator"
  | TRIAGE => "triage"
  | RESEARCH => "research"
  | COMPLIANCE => "compliance"
  | REVIEW => "review"
  | OUTPUT => "output"
  end.

(** [AgentRole[name]]; [None] stands for the [KeyError]. *)
Definition role_of_name (name : string) : option AgentRole :=
  if String.eqb name "ORCHESTRATOR" then Some ORCHESTRATOR
  else if String.eqb name "TRIAGE" then Some TRIAGE
  else if String.eqb name "RESEARCH" then Some RESEARCH
  else if String.eqb name "COMPLIANCE" then Some COMPLIANCE
  else if String.eqb name "REVIEW" then Some REVIEW
  else if String.eqb name "OUTPUT" then Some OUTPUT
  else None.

(** [get_agent_config(role).can_query_knowledge] *)
Definition can_query_knowledge (r : AgentRole) : bool :=
  match r with
  | TRIAGE | RESEARCH | COMPLIANCE => true
  | ORCHESTRATOR | REVIEW | OUTPUT => false
  end.

(** ** Records of orchestrator.py *)

Inductive WorkflowState : Type :=
| PENDING | IN_PROGRESS | AWAITING_REVIEW | NEEDS_REVISION | COMPLETED | FAILED.

Definition state_value (s : WorkflowState) : string :=
  match s with
  | PENDING => "pending"
  | IN_PROGRESS => "in_progress"
  | AWAITING_REVIEW => "awaiting_review"
  | NEEDS_REVISION => "needs_revision"
  | COMPLETED => "completed"
  | FAILED => "failed"
  end.

(** The dictionary [AgentExecutor.execute] returns: either
    [{agent, raw_response, parsed, success: True}] or
    [{agent, error, success: False}]. *)
Inductive ExecResult : Type :=
| ResSuccess (res_agent : string) (raw_response : string) (parsed : json)
| ResFailure (res_agent : string) (err : string).

(** [result["success"]] *)
Definition res_success (r : ExecResult) : bool :=
  match r with ResSuccess _ _ _ => true | ResFailure _ _ => false end.

(** [result.get("parsed")] *)
Definition res_parsed (r : ExecResult) : json :=
  match r with ResSuccess _ _ p => p | ResFailure _ _ => JNull end.

(** [result.get("parsed", {})] *)
Definition res_parsed_or_empty (r : ExecResult) : json :=
  match r with ResSuccess _ _ p => p | ResFailure _ _ => JObj [] end.

(** [result.get("error", "Unknown error")] *)
Definition res_error (r : ExecResult) : string :=
  match r with ResSuccess _ _ _ => "Unknown error" | ResFailure _ e => e end.

Record WorkflowStep : Type := mkStep {
  step_id : Z;
  agent : AgentRole;
  instruction : json;
  status : string;
  output_data : option ExecResult;   (* [None] is the empty dictionary *)
  error : option string
}.

(** [WorkflowStep(step_id=.., agent=.., instruction=..)] *)
Definition new_step (id : Z) (a : AgentRole) (instr : json) : WorkflowStep :=
  mkStep id a instr "pending" None None.

Record LogEntry : Type := mkEntry {
  log_step_id : Z;
  log_agent : string;
  log_instruction : json;
  log_result : ExecResult
}.

Record Workflow : Type := mkWorkflow {
  workflow_id : string;
  user_request : string;
  state : WorkflowState;
  steps : list WorkflowStep;
  conversation_history : list LogEntry;
  final_output : option string;
  iteration_count : Z;
  max_iterations : Z
}.

(** [Workflow(workflow_id=.., user_request=..)], as [create_workflow] builds it. *)
Definition create_workflow (id request : string) : Workflow :=
  mkWorkflow id request PENDING [] [] None 0 5.

Definition set_state (s : WorkflowState) (wf : Workflow) : Workflow :=
  mkWorkflow (workflow_id wf) (user_request wf) s (steps wf)
    (conversation_history wf) (final_output wf) (iteration_count wf) (max_iterations wf).

Definition set_steps (l : list WorkflowStep) (wf : Workflow) : Workflow :=
  mkWorkflow (workflow_id wf) (user_request wf) (state wf) l
    (conversation_history wf) (final_output wf) (iteration_count wf) (max_iterations wf).

Definition set_history (h : list LogEntry) (wf : Workflow) : Workflow :=
  mkWorkflow (workflow_id wf) (user_request wf) (state wf) (steps wf)
    h (final_output wf) (iteration_count wf) (max_iterations wf).

Definition set_final_output (o : option string) (wf : Workflow) : Workflow :=
  mkWorkflow (workflow_id wf) (user_request wf) (state wf) (steps wf)
    (conversation_history wf) o (iteration_count wf) (max_iterations wf).

Definition set_iteration_count (n : Z) (wf : Workflow) : Workflow :=
  mkWorkflow (workflow_id wf) (user_request wf) (state wf) (steps wf)
    (conversation_history wf) (final_output wf) n (max_iterations wf).

Definition set_max_iterations (n : Z) (wf : Workflow) : Workflow :=
  mkWorkflow (workflow_id wf) (user_request wf) (state wf) (steps wf)
    (conversation_history wf) (final_output wf) (iteration_count wf) n.

(** A value of the context dictionary handed to an agent: a prior step's
    output, or the user's request. *)
Inductive CtxValue : Type :=
| CtxOutput (r : ExecResult)
| CtxRequest (s : string).

(** What one chat completion is asked. *)
Record ChatRequest : Type := mkRequest {
  rq_agent : AgentRole;                          (* selects the system prompt *)
  rq_instruction : json;                         (* the user message *)
  rq_context : option (gmap string CtxValue);    (* "Previous agent outputs" *)
  rq_knowledge_query : option string             (* knowledge base consulted *)
}.

(** What the [try] block around the completion call gets from the backend:
    the text of the reply, a reply whose message has no text ([content] is
    [None]), or an exception ([msg] is [str(e)]). *)
Inductive ChatReply : Type :=
| Content (text : string)
| NoContent
| BackendError (msg : string).

Record Summary : Type := mkSummary {
  sum_workflow_id : string;
  sum_user_request : string;
  sum_state : string;
  iterations : Z;
  steps_executed : nat;
  steps_failed : nat;
  agents_involved : gset string;
  sum_final_output : option string;
  sum_conversation_history : list LogEntry
}.

(** How a function that works on the workflow ended: it returned, or an
    exception left it; either way with the workflow as it then was and the
    number of completions requested so far. *)
Inductive Outcome : Type :=
| Finished (wf : Workflow) (n : nat)
| Aborted (e : exn) (wf : Workflow) (n : nat).

Definition out_wf (o : Outcome) : Workflow :=
  match o with Finished wf _ | Aborted _ wf _ => wf end.

Definition out_calls (o : Outcome) : nat :=
  match o with Finished _ n | Aborted _ _ n => n end.

(** ** AgentExecutor and WorkflowOrchestrator *)

(** What the code takes from the Python runtime. *)
Class Runtime : Type := {
  (** [str.upper] *)
  upper : string -> string;
  (** [json.loads] *)
  json_loads : string -> Loaded;
  (** [json.dumps(..., indent=2)] recurses once per nesting level and raises
      [RecursionError] when the interpreter's limit is reached: a parsed
      reply can be rendered when it nests at most one level more than this. *)
  recursion_headroom : nat
}.

(** The services behind the executor, given how many completions were
    requested before. *)
Class Backend : Type := {
  (** [self.client.chat.completions.create]: the reply to a request. *)
  client : nat -> ChatRequest -> ChatReply;
  (** What [json.dumps(kb_results, indent=2)] raises on the results the
      knowledge base gives for a query, if there are results and it raises. *)
  knowledge_raises : nat -> string -> option exn
}.

Section Orchestrator.

Context {runtime : Runtime} {backend : Backend}.

(** [if context:] on a dictionary argument that defaults to [None]. *)
Definition context_part (context : option (gmap string CtxValue))
  : option (gmap string CtxValue) :=
  match context with
  | Some c => match map_to_list c with [] => None | _ :: _ => Some c end
  | None => None
  end.

(** [config.can_query_knowledge and knowledge_query] *)
Definition knowledge_part (agent_role : AgentRole) (knowledge_query : option string)
  : option string :=
  match knowledge_query with
  | Some q => if can_query_knowledge agent_role && negb (String.eqb q "")
              then Some q else None
  | None => None
  end.

(** A parsed reply that [json.dumps(..., indent=2)] can render as part of a
    context. *)
Definition renders (v : json) : bool :=
  (json_depth v <=? S recursion_headroom)%nat.

Definition value_renders (v : CtxValue) : bool :=
  match v with
  | CtxOutput r => renders (res_parsed r)
  | CtxRequest _ => true
  end.

(** [json.dumps(context, indent=2)] returns. *)
Definition context_renders (c : gmap string CtxValue) : bool :=
  forallb (fun kv => value_renders (snd kv)) (map_to_list c).

(** What building the messages of a request raises, if anything:
    [json.dumps] of the context, then of the knowledge base results, both
    before the [try]. *)
Definition assembly_raises (n : nat) (request : ChatRequest) : option exn :=
  if match rq_context request with
     | Some c => context_renders c
     | None => true
     end
  then match rq_knowledge_query request with
       | Some q => knowledge_raises n q
       | None => None
       end
  else Some RecursionError.

(** The [try] block of [execute]: the completion call and the decoding of
    the reply.  Of the exceptions of [json.loads] only
    [json.JSONDecodeError] is caught by the inner handler. *)
Definition complete (agent_role : AgentRole) (request : ChatRequest) (n : nat)
  : ExecResult :=
  match client n request with
  | Content content =>
      match json_loads content with
      | Decoded v => ResSuccess (role_value agent_role) content v
      | Undecodable => ResSuccess (role_value agent_role) content JNull
      | LoadRaised msg => ResFailure (role_value agent_role) msg
      end
  | NoContent =>
      ResFailure (role_value agent_role)
        "the JSON object must be str, bytes or bytearray, not NoneType"
  | BackendError msg => ResFailure (role_value agent_role) msg
  end.

(** [AgentExecutor.execute] *)
Definition execute (agent_role : AgentRole) (instr : json)
    (context : option (gmap string CtxValue)) (knowledge_query : option string)
    (n : nat) : Exc ExecResult * nat :=
  let request := mkRequest agent_role instr (context_part context)
                   (knowledge_part agent_role knowledge_query) in
  match assembly_raises n request with
  | Some e => (Raise e, n)
  | None => (Ok (complete agent_role request n), S n)
  end.

(** [AgentRole[agent_name]] guarded by [except KeyError]. *)
Definition role_or_research (agent_name : string) : AgentRole :=
  match role_of_name agent_name with
  | Some r => r
  | None => RESEARCH
  end.

(** [x.get("agent", "RESEARCH").upper()]: the value must be a string. *)
Definition agent_name_of (item : json) : Exc string :=
  a <- py_get item "agent" (JStr "RESEARCH") ;;
  match a with
  | JStr s => Ok (upper s)
  | _ => Raise AttributeError
  end.

(** Body of the planning loop for one [step_info]. *)
Definition plan_step (id : Z) (step_info : json) : Exc WorkflowStep :=
  agent_name <- agent_name_of step_info ;;
  instr <- py_get step_info "instruction" (JStr "") ;;
  Ok (new_step id (role_or_research agent_name) instr).

Fixpoint plan_steps (id : Z) (infos : list json) : Exc (list WorkflowStep) :=
  match infos with
  | [] => Ok []
  | info :: rest =>
      s <- plan_step id info ;;
      ss <- plan_steps (id + 1) rest ;;
      Ok (s :: ss)
  end.

Definition default_steps (request : string) : list WorkflowStep :=
  [ new_step 1 TRIAGE (JStr ("Classify and prioritize: " +:+ request));
    new_step 2 RESEARCH (JStr ("Research relevant data for: " +:+ request));
    new_step 3 COMPLIANCE (JStr ("Check compliance requirements for: " +:+ request));
    new_step 4 REVIEW (JStr "Review all findings and identify gaps");
    new_step 5 OUTPUT (JStr "Create final response for user") ].

(** The steps read off the planner's result. *)
Definition steps_of_plan (request : string) (result : ExecResult)
  : Exc (list WorkflowStep) :=
  if res_success result && truthy (res_parsed result) then
    infos_v <- py_get (res_parsed result) "workflow_steps" (JArr []) ;;
    infos <- py_iter infos_v ;;
    plan_steps 1 infos
  else Ok (default_steps request).

(** [WorkflowOrchestrator._plan_workflow] *)
Definition _plan_workflow (wf : Workflow) (n : nat) : Exc (list WorkflowStep) * nat :=
  match execute ORCHESTRATOR
          (JStr ("Plan a workflow for this user request: " +:+ user_request wf))
          None None n with
  | (Ok result, n') => (steps_of_plan (user_request wf) result, n')
  | (Raise e, n') => (Raise e, n')
  end.

(** The loop of [_execute_step] that gathers the outputs of earlier steps. *)
Definition add_output (id : Z) (context : gmap string CtxValue) (prev : WorkflowStep)
  : gmap string CtxValue :=
  match output_data prev with
  | Some out =>
      if step_id prev <? id
      then <[role_value (agent prev) := CtxOutput out]> context
      else context
  | None => context
  end.

Definition gather_context (wf : Workflow) (step : WorkflowStep) : gmap string CtxValue :=
  <["user_request" := CtxRequest (user_request wf)]>
    (foldl (add_output (step_id step)) ∅ (steps wf)).

Definition mark_in_progress (s : WorkflowStep) : WorkflowStep :=
  mkStep (step_id s) (agent s) (instruction s) "in_progress" (output_data s) (error s).

(** The branch on [result["success"]]. *)
Definition record_result (result : ExecResult) (s : WorkflowStep) : WorkflowStep :=
  if res_success result
  then mkStep (step_id s) (agent s) (instruction s) "completed" (Some result) (error s)
  else mkStep (step_id s) (agent s) (instruction s) "failed" (output_data s)
         (Some (res_error result)).

(** [WorkflowOrchestrator._execute_step] on the step stored at index [i].
    When [execute] raises, the step stays marked as in progress and nothing
    is logged. *)
Definition _execute_step (wf : Workflow) (i : nat) (n : nat) : Outcome :=
  match steps wf !! i with
  | None => Finished wf n
  | Some step0 =>
      let step := mark_in_progress step0 in
      let wf1 := set_steps (<[i := step]> (steps wf)) wf in
      let context := gather_context wf1 step in
      let knowledge_query :=
        if can_query_knowledge (agent step) then Some (user_request wf1) else None in
      match execute (agent step) (instruction step) (Some context) knowledge_query n with
      | (Raise e, n') => Aborted e wf1 n'
      | (Ok result, n') =>
          let step' := record_result result step in
          let wf2 := set_steps (<[i := step']> (steps wf1)) wf1 in
          Finished
            (set_history
               (conversation_history wf2 ++
                  [mkEntry (step_id step') (role_value (agent step')) (instruction step')
                     result])
               wf2) n'
      end
  end.

(** [for step in workflow.steps: if step.status == "pending": ...], the
    list cells visited in order. *)
Fixpoint run_pending (idxs : list nat) (wf : Workflow) (n : nat) : Outcome :=
  match idxs with
  | [] => Finished wf n
  | i :: rest =>
      match steps wf !! i with
      | Some step =>
          if String.eqb (status step) "pending"
          then match _execute_step wf i n with
               | Finished wf' n' => run_pending rest wf' n'
               | Aborted e wf' n' => Aborted e wf' n'
               end
          else run_pending rest wf n
      | None => run_pending rest wf n
      end
  end.

Definition execute_pending (wf : Workflow) (n : nat) : Outcome :=
  run_pending (seq 0 (length (steps wf))) wf n.

(** A step the two review scans stop at: a REVIEW step with output whose
    [parsed] entry is truthy. *)
Definition review_verdict (step : WorkflowStep) : option json :=
  match output_data step with
  | Some out =>
      if bool_decide (agent step = REVIEW) && truthy (res_parsed_or_empty out)
      then Some (res_parsed_or_empty out) else None
  | None => None
  end.

(** [bool(additional_work) or not ready_for_output] *)
Definition wants_revision (parsed : json) : Exc bool :=
  additional_work <- py_get parsed "additional_work_needed" (JArr []) ;;
  ready_for_output <- py_get parsed "ready_for_output" (JBool true) ;;
  Ok (truthy additional_work || negb (truthy ready_for_output)).

Fixpoint check_steps (l : list WorkflowStep) : Exc bool :=
  match l with
  | [] => Ok false
  | step :: rest =>
      match review_verdict step with
      | Some parsed => wants_revision parsed
      | None => check_steps rest
      end
  end.

(** [WorkflowOrchestrator._check_if_revision_needed] *)
Definition _check_if_revision_needed (wf : Workflow) : Exc bool :=
  check_steps (steps wf).

(** Body of the revision loop for one [work_item]. *)
Definition work_step (id : Z) (work_item : json) : Exc WorkflowStep :=
  agent_name <- agent_name_of work_item ;;
  task <- py_get work_item "task" (JStr "") ;;
  Ok (new_step id (role_or_research agent_name) task).

Fixpoint work_steps (id : Z) (items : list json) : Exc (list WorkflowStep) :=
  match items with
  | [] => Ok []
  | item :: rest =>
      s <- work_step id item ;;
      ss <- work_steps (id + 1) rest ;;
      Ok (s :: ss)
  end.

(** The scan of [_add_revision_steps] over every review step. *)
Fixpoint revision_items (next_step_id : Z) (l : list WorkflowStep)
  : Exc (list WorkflowStep) :=
  match l with
  | [] => Ok []
  | step :: rest =>
      match review_verdict step with
      | Some parsed =>
          items_v <- py_get parsed "additional_work_needed" (JArr []) ;;
          items <- py_iter items_v ;;
          new <- work_steps next_step_id items ;;
          more <- revision_items (next_step_id + Z.of_nat (length new)) rest ;;
          Ok (new ++ more)
      | None => revision_items next_step_id rest
      end
  end.

(** [WorkflowOrchestrator._add_revision_steps] *)
Definition _add_revision_steps (wf : Workflow) : Exc (list WorkflowStep) :=
  let next_step_id := Z.of_nat (length (steps wf)) + 1 in
  new_steps <- revision_items next_step_id (steps wf) ;;
  match new_steps with
  | [] => Ok []
  | _ :: _ =>
      Ok (new_steps ++
          [new_step (next_step_id + Z.of_nat (length new_steps)) REVIEW
             (JStr "Review the additional findings and determine if analysis is complete")])
  end.

(** How the [while] loop of [run_workflow] ended. *)
Inductive LoopResult : Type :=
| LoopBreak (wf : Workflow) (n : nat)        (* [break]: no revision asked *)
| LoopCap (wf : Workflow) (n : nat)          (* the loop test failed *)
| LoopRaised (e : exn) (wf : Workflow) (n : nat)
| LoopFuel (wf : Workflow) (n : nat).        (* the model ran out of fuel *)

Fixpoint revision_loop (fuel : nat) (wf : Workflow) (n : nat) : LoopResult :=
  if iteration_count wf <? max_iterations wf then
    match fuel with
    | O => LoopFuel wf n
    | S fuel' =>
        let wf1 := set_iteration_count (iteration_count wf + 1) wf in
        match execute_pending wf1 n with
        | Aborted e wf2 n2 => LoopRaised e wf2 n2
        | Finished wf2 n2 =>
            match _check_if_revision_needed wf2 with
            | Raise e => LoopRaised e wf2 n2
            | Ok false => LoopBreak wf2 n2
            | Ok true =>
                match _add_revision_steps wf2 with
                | Raise e => LoopRaised e wf2 n2
                | Ok new_steps =>
                    revision_loop fuel'
                      (set_state NEEDS_REVISION (set_steps (steps wf2 ++ new_steps) wf2))
                      n2
                end
            end
        end
    end
  else LoopCap wf n.

(** [output_steps[-1].output_data.get("raw_response", "")] *)
Definition raw_response_of (s : WorkflowStep) : string :=
  match output_data s with
  | Some (ResSuccess _ raw _) => raw
  | _ => ""
  end.

Definition is_completed_output (s : WorkflowStep) : bool :=
  bool_decide (agent s = OUTPUT) && String.eqb (status s) "completed".

(** The tail of [run_workflow]: pick or force the final output. *)
Definition finalize (wf : Workflow) (n : nat) : Outcome :=
  let output_steps := filter (fun s => is_completed_output s = true) (steps wf) in
  match last output_steps with
  | Some s =>
      Finished (set_state COMPLETED (set_final_output (Some (raw_response_of s)) wf)) n
  | None =>
      let output_step :=
        new_step (Z.of_nat (length (steps wf)) + 1) OUTPUT
          (JStr "Create final response synthesizing all agent findings") in
      let wf1 := set_steps (steps wf ++ [output_step]) wf in
      let i := length (steps wf) in
      match _execute_step wf1 i n with
      | Aborted e wf2 n2 => Aborted e wf2 n2
      | Finished wf2 n2 =>
          let out := match steps wf2 !! i with
                     | Some s => raw_response_of s
                     | None => ""
                     end in
          Finished (set_state COMPLETED (set_final_output (Some out) wf2)) n2
      end
  end.

(** How a call of [run_workflow] ended. *)
Inductive RunResult : Type :=
| Returned (wf : Workflow) (n : nat)
| Raised (e : exn) (wf : Workflow) (n : nat)
| OutOfFuel (wf : Workflow) (n : nat).

Definition run_workflow_fuel (fuel : nat) (wf : Workflow) (n : nat) : RunResult :=
  let wf0 := set_state IN_PROGRESS wf in
  match _plan_workflow wf0 n with
  | (Raise e, n1) => Raised e wf0 n1
  | (Ok planned, n1) =>
      match revision_loop fuel (set_steps planned wf0) n1 with
      | LoopBreak wf2 n2 | LoopCap wf2 n2 =>
          match finalize wf2 n2 with
          | Finished wf3 n3 => Returned wf3 n3
          | Aborted e wf3 n3 => Raised e wf3 n3
          end
      | LoopRaised e wf2 n2 => Raised e wf2 n2
      | LoopFuel wf2 n2 => OutOfFuel wf2 n2
      end
  end.

(** [WorkflowOrchestrator.run_workflow] (no [stream_callback]): the loop
    runs at most [max_iterations - iteration_count] times. *)
Definition run_workflow (wf : Workflow) (n : nat) : RunResult :=
  run_workflow_fuel (Z.to_nat (max_iterations wf - iteration_count wf)) wf n.

(** [WorkflowOrchestrator.get_workflow_summary] *)
Definition get_workflow_summary (wf : Workflow) : Summary :=
  mkSummary (workflow_id wf) (user_request wf) (state_value (state wf))
    (iteration_count wf)
    (length (filter (fun s => String.eqb (status s) "completed" = true) (steps wf)))
    (length (filter (fun s => String.eqb (status s) "failed" = true) (steps wf)))
    (list_to_set (map (fun s => role_value (agent s)) (steps wf)))
    (final_output wf) (conversation_history wf).

End Orchestrator.

(** ** The knowledge base and the chat messages

    What [AgentExecutor.execute] does with a request before it calls the
    model: it consults the knowledge base and assembles the messages. *)

(** A search result: the selected fields of an indexed document. *)
Definition Document : Type := list (string * json).

(** [search_client.search(search_text=query, top=top_k, select=[...])] with
    its results iterated; [None] when the call or the iteration raises. *)
Record SearchClient : Type := mkSearchClient {
  search : string -> Z -> option (list Document)
}.

(** An entry of the list [_query_knowledge_base] returns. *)
Record Snippet : Type := mkSnippet {
  sn_file_name : json;
  sn_content : json;
  sn_title : json;
  sn_source_url : json
}.

(** [v[:k]]: strings and lists can be sliced, no other JSON value can;
    [None] stands for the exception. *)
Definition py_slice (k : nat) (v : json) : option json :=
  match v with
  | JStr s => Some (JStr (substring 0 k s))
  | JArr items => Some (JArr (take k items))
  | _ => None
  end.

(** [r["content"][:1000]] *)
Definition slice_1000 (v : json) : option json := py_slice 1000 v.

(** [len(v)] of a sliced value. *)
Definition json_len (v : json) : nat :=
  match v with
  | JStr s => String.length s
  | JArr items => length items
  | _ => 0
  end.

(** One entry of the list comprehension; [None] when building it raises
    (a missing [file_name] or [content], a [content] that cannot be sliced). *)
Definition snippet_of (r : Document) : option Snippet :=
  match dict_get "file_name" r with
  | Some file_name =>
      match dict_get "content" r with
      | Some content =>
          match slice_1000 content with
          | Some truncated =>
              Some (mkSnippet file_name truncated
                      (default file_name (dict_get "title" r))
                      (default (JStr "") (dict_get "source_url" r)))
          | None => None
          end
      | None => None
      end
  | None => None
  end.

(** [AgentExecutor._query_knowledge_base]; every exception ends in [[]]. *)
Definition _query_knowledge_base (search_client : option SearchClient)
    (query : string) (top_k : Z) : list Snippet :=
  match search_client with
  | None => []
  | Some c =>
      match search c query top_k with
      | None => []
      | Some results =>
          match mapM snippet_of results with
          | Some snippets => snippets
          | None => []
          end
      end
  end.

(** A chat message; the content of the user message is the instruction as
    the plan gave it. *)
Record Message : Type := mkMessage {
  msg_role : string;
  msg_content : json
}.

(** What the executor takes from its surroundings to write the messages:
    the table [AGENT_PROMPTS] and [json.dumps(..., indent=2)] on a context
    and on knowledge base results. *)
Class Rendering : Type := {
  system_prompt : AgentRole -> string;
  dumps_context : gmap string CtxValue -> string;
  dumps_snippets : list Snippet -> string
}.

Definition newline : string := String (ascii_of_nat 10) EmptyString.

Section Messages.

Context {rendering : Rendering}.
Variable search_client : option SearchClient.

(** [context_parts] of [execute]. *)
Definition context_parts (agent_role : AgentRole)
    (context : option (gmap string CtxValue)) (knowledge_query : option string)
  : list string :=
  match context_part context with
  | Some c => ["Previous agent outputs:" +:+ newline +:+ dumps_context c]
  | None => []
  end
  ++ match knowledge_part agent_role knowledge_query with
     | Some q =>
         match _query_knowledge_base search_client q 5 with
         | [] => []
         | kb_results => ["Knowledge Base Results:" +:+ newline +:+ dumps_snippets kb_results]
         end
     | None => []
     end.

(** The [messages] of [execute]. *)
Definition build_messages (agent_role : AgentRole) (instruction : json)
    (context : option (gmap string CtxValue)) (knowledge_query : option string)
  : list Message :=
  [mkMessage "system" (JStr (system_prompt agent_role))]
  ++ match context_parts agent_role context knowledge_query with
     | [] => []
     | parts => [mkMessage "system" (JStr (String.concat (newline +:+ newline) parts))]
     end
  ++ [mkMessage "user" instruction].

(** The messages [_plan_workflow] sends. *)
Definition plan_messages (wf : Workflow) : list Message :=
  build_messages ORCHESTRATOR
    (JStr ("Plan a workflow for this user request: " +:+ user_request wf)) None None.

End Messages.

(** ** The table of agents (agents.py) *)

Record AgentConfig : Type := mkAgentConfig {
  cfg_name : string;
  cfg_role : AgentRole;
  cfg_system_prompt : string;
  cfg_can_query_knowledge : bool;
  cfg_can_delegate_to : list string
}.

(** [get_agent_config]; [AGENT_PROMPTS[role]] is [system_prompt role]. *)
Definition get_agent_config {rendering : Rendering} (role : AgentRole) : AgentConfig :=
  match role with
  | ORCHESTRATOR =>
      mkAgentConfig "Orchestrator" ORCHESTRATOR (system_prompt ORCHESTRATOR) false
        ["TRIAGE"; "RESEARCH"; "COMPLIANCE"; "REVIEW"; "OUTPUT"]
  | TRIAGE => mkAgentConfig "Triage Agent" TRIAGE (system_prompt TRIAGE) true []
  | RESEARCH => mkAgentConfig "Research Agent" RESEARCH (system_prompt RESEARCH) true []
  | COMPLIANCE =>
      mkAgentConfig "Compliance Agent" COMPLIANCE (system_prompt COMPLIANCE) true []
  | REVIEW =>
      mkAgentConfig "Review Agent" REVIEW (system_prompt REVIEW) false
        ["RESEARCH"; "COMPLIANCE"]
  | OUTPUT => mkAgentConfig "Output Agent" OUTPUT (system_prompt OUTPUT) false []
  end.

(** [for role in AgentRole], in the order of definition. *)
Definition all_roles : list AgentRole :=
  [ORCHESTRATOR; TRIAGE; RESEARCH; COMPLIANCE; REVIEW; OUTPUT].

(** [get_all_agent_configs], as the list of its items. *)
Definition get_all_agent_configs {rendering : Rendering}
  : list (AgentRole * AgentConfig) :=
  map (fun role => (role, get_agent_config role)) all_roles.

(** ** The HTTP endpoints (api.py) *)

(** [WorkflowRequest]: [max_iterations] is [Optional[int]], 5 when the
    body leaves it out and [None] when the body gives [null]. *)
Record WorkflowRequest : Type := mkWorkflowRequest {
  wr_request : string;
  wr_max_iterations : option Z
}.

Record WorkflowResponse : Type := mkWorkflowResponse {
  resp_workflow_id : string;
  resp_state : string;
  resp_final_output : option string;
  resp_iterations : Z;
  resp_steps_executed : nat;
  resp_agents_involved : gset string;
  resp_conversation_history : list LogEntry
}.

(** How a request to an endpoint ends; [n] counts the completions. *)
Inductive ApiResult : Type :=
| Responded (r : WorkflowResponse) (n : nat)
| ServerError (e : exn) (n : nat)
| NotFound (detail : string)
| Unfinished (n : nat).

(** [DEMO_SCENARIOS]: key, name and request. *)
Definition DEMO_SCENARIOS : list (string * (string * string)) :=
  [("incident",
    ("Critical Incident Response",
     "We have a critical system outage affecting tax calculations for multiple customers. The issue started 2 hours ago and support is getting escalated tickets. What's our incident response plan, what SLAs are at risk, and what should we communicate to customers?"));
   ("customer_qbr",
    ("Customer QBR Preparation",
     "I have a Quarterly Business Review with customer CUST-005 (TechFlow Solutions) next week. Prepare a comprehensive customer health report including their support history, any compliance issues, revenue trends, and churn risk indicators. Also identify any upsell opportunities."));
   ("audit_prep",
    ("SOC 2 Audit Preparation",
     "Our SOC 2 Type II audit is scheduled for next month. Assess our readiness across all control domains - security policies, access controls, vulnerability management, backup procedures, and incident response. Identify any gaps that need immediate remediation."));
   ("compliance_review",
    ("End of Quarter Compliance",
     "We're approaching end of Q4. Provide a comprehensive compliance status report: Which tax filings are due in the next 30 days? Are there any overdue filings? Which customers have expiring exemption certificates? What's our patch compliance status? Flag anything that could result in penalties or audit findings."));
   ("risk_assessment",
    ("Enterprise Risk Assessment",
     "The board wants an enterprise risk assessment. Analyze our current risk posture across: security vulnerabilities, compliance gaps, customer churn indicators, vendor dependencies, and operational bottlenecks. Prioritize the top 5 risks with recommended mitigations."));
   ("revenue_analysis",
    ("Revenue & Product Strategy",
     "Finance needs a strategic analysis: Which products are driving the most revenue? Which ones are underperforming? What's in the roadmap that could impact pricing? Are there customers at high churn risk that could affect forecasts? Provide insights for the upcoming planning cycle."))].

(** [DEMO_SCENARIOS[key]]; [None] when [key not in DEMO_SCENARIOS]. *)
Fixpoint scenario_of (key : string) (table : list (string * (string * string)))
  : option (string * string) :=
  match table with
  | [] => None
  | (k, info) :: rest => if String.eqb k key then Some info else scenario_of key rest
  end.

(** [list_scenarios]: the keys, names and requests, in the table's order. *)
Definition list_scenarios : list (string * string * string) :=
  map (fun '(key, (name, request)) => (key, name, request)) DEMO_SCENARIOS.

Section Api.

Context {runtime : Runtime} {backend : Backend}.

(** The [WorkflowResponse] the endpoints build from the summary. *)
Definition response_of (wf : Workflow) : WorkflowResponse :=
  let summary := get_workflow_summary wf in
  mkWorkflowResponse (sum_workflow_id summary) (sum_state summary)
    (sum_final_output summary) (iterations summary) (steps_executed summary)
    (agents_involved summary) (sum_conversation_history summary).

Definition respond (r : RunResult) : ApiResult :=
  match r with
  | Returned wf n => Responded (response_of wf) n
  | Raised e _ n => ServerError e n
  | OutOfFuel _ n => Unfinished n
  end.

(** [POST /workflow]; [id] is the identifier [create_workflow] generates.
    With [max_iterations = None] the loop test [iteration_count <
    max_iterations] raises [TypeError] right after planning. *)
Definition api_run_workflow (id : string) (request : WorkflowRequest) (n : nat)
  : ApiResult :=
  let workflow := create_workflow id (wr_request request) in
  match wr_max_iterations request with
  | Some cap => respond (run_workflow (set_max_iterations cap workflow) n)
  | None =>
      match _plan_workflow (set_state IN_PROGRESS workflow) n with
      | (Raise e, n1) => ServerError e n1
      | (Ok _, n1) => ServerError TypeError n1
      end
  end.

(** [POST /workflow/{scenario_key}] *)
Definition api_run_scenario (id : string) (scenario_key : string) (n : nat) : ApiResult :=
  match scenario_of scenario_key DEMO_SCENARIOS with
  | None => NotFound ("Scenario '" +:+ scenario_key +:+ "' not found")
  | Some (_, request) => respond (run_workflow (create_workflow id request) n)
  end.

End Api.

(** ** The run with a stream callback

    [run_workflow(workflow, stream_callback)] as the streaming endpoint and
    the command-line runner call it.  The callback of the endpoint appends
    the event to a list; an event is kept here with the values its message
    is formatted from. *)

Inductive Event : Type :=
| EvPlanning
| EvExecuting (agent_value : string) (preview : json)     (* [instruction[:100]] *)
| EvStepComplete (agent_value : string) (completed : bool)
| EvRevision
| EvComplete.

(** The first argument of the callback. *)
Definition event_type (e : Event) : string :=
  match e with
  | EvPlanning => "planning"
  | EvExecuting _ _ => "executing"
  | EvStepComplete _ _ => "step_complete"
  | EvRevision => "revision"
  | EvComplete => "complete"
  end.

(** The keys of the table [icons] of the runner's [stream_callback]. *)
Definition icon_keys : list string :=
  ["planning"; "executing"; "step_complete"; "revision"; "complete"].

(** How a pass over the steps ended. *)
Inductive PassResult : Type :=
| PassDone (wf : Workflow) (n : nat) (events : list Event)
| PassRaised (e : exn) (wf : Workflow) (n : nat) (events : list Event).

Section Streamed.

Context {runtime : Runtime} {backend : Backend}.

(** The [for] loop of [run_workflow] with a callback: the message of the
    [executing] event slices the instruction, which raises [TypeError] on an
    instruction that is neither a string nor a list; the [step_complete]
    event follows when [_execute_step] has returned. *)
Fixpoint run_pending_streamed (idxs : list nat) (wf : Workflow) (n : nat)
    (events : list Event) : PassResult :=
  match idxs with
  | [] => PassDone wf n events
  | i :: rest =>
      match steps wf !! i with
      | Some step =>
          if String.eqb (status step) "pending"
          then
            match py_slice 100 (instruction step) with
            | None => PassRaised TypeError wf n events
            | Some preview =>
                let events1 :=
                  events ++ [EvExecuting (role_value (agent step)) preview] in
                match _execute_step wf i n with
                | Aborted e wf' n' => PassRaised e wf' n' events1
                | Finished wf' n' =>
                    let completed :=
                      match steps wf' !! i with
                      | Some s => String.eqb (status s) "completed"
                      | None => false
                      end in
                    run_pending_streamed rest wf' n'
                      (events1 ++ [EvStepComplete (role_value (agent step)) completed])
                end
            end
          else run_pending_streamed rest wf n events
      | None => run_pending_streamed rest wf n events
      end
  end.

Fixpoint revision_loop_streamed (fuel : nat) (wf : Workflow) (n : nat)
    (events : list Event) : LoopResult * list Event :=
  if iteration_count wf <? max_iterations wf then
    match fuel with
    | O => (LoopFuel wf n, events)
    | S fuel' =>
        let wf1 := set_iteration_count (iteration_count wf + 1) wf in
        match run_pending_streamed (seq 0 (length (steps wf1))) wf1 n events with
        | PassRaised e wf2 n2 events2 => (LoopRaised e wf2 n2, events2)
        | PassDone wf2 n2 events2 =>
            match _check_if_revision_needed wf2 with
            | Raise e => (LoopRaised e wf2 n2, events2)
            | Ok false => (LoopBreak wf2 n2, events2)
            | Ok true =>
                match _add_revision_steps wf2 with
                | Raise e => (LoopRaised e wf2 n2, events2 ++ [EvRevision])
                | Ok new_steps =>
                    revision_loop_streamed fuel'
                      (set_state NEEDS_REVISION (set_steps (steps wf2 ++ new_steps) wf2))
                      n2 (events2 ++ [EvRevision])
                end
            end
        end
    end
  else (LoopCap wf n, events).

(** [run_workflow] with a callback; the output step appended at the end is
    executed without any event. *)
Definition run_workflow_streamed (fuel : nat) (wf : Workflow) (n : nat)
  : RunResult * list Event :=
  let wf0 := set_state IN_PROGRESS wf in
  match _plan_workflow wf0 n with
  | (Raise e, n1) => (Raised e wf0 n1, [EvPlanning])
  | (Ok planned, n1) =>
      match revision_loop_streamed fuel (set_steps planned wf0) n1 [EvPlanning] with
      | (LoopBreak wf2 n2, events) | (LoopCap wf2 n2, events) =>
          match finalize wf2 n2 with
          | Finished wf3 n3 => (Returned wf3 n3, events ++ [EvComplete])
          | Aborted e wf3 n3 => (Raised e wf3 n3, events)
          end
      | (LoopRaised e wf2 n2, events) => (Raised e wf2 n2, events)
      | (LoopFuel wf2 n2, events) => (OutOfFuel wf2 n2, events)
      end
  end.

End Streamed.

(** ** A concrete runtime and scripted backends

    Used to run the embedding on explicit inputs. *)

(** [str.upper] on ASCII text. *)
Definition ascii_upper_char (c : ascii) : ascii :=
  let k := nat_of_ascii c in
  if ((97 <=? k) && (k <=? 122))%nat then ascii_of_nat (k - 32) else c.

Fixpoint ascii_upper (s : string) : string :=
  match s with
  | EmptyString => EmptyString
  | String c rest => String (ascii_upper_char c) (ascii_upper rest)
  end.

(** A name between double quotes, as it stands in JSON text. *)
Definition quoted (s : string) : string :=
  String (ascii_of_nat 34) s +:+ String (ascii_of_nat 34) EmptyString.

(** Reply texts of the scenarios below. *)
Definition array_text : string := "[1]".

Definition plan_without_steps_text : string :=
  "{" +:+ quoted "workflow_steps" +:+ ": []}".

Definition plan_unknown_agent_text : string :=
  "{" +:+ quoted "workflow_steps" +:+ ": [{" +:+ quoted "agent" +:+ ": "
  +:+ quoted "auditor" +:+ ", " +:+ quoted "instruction" +:+ ": "
  +:+ quoted "check the ledger" +:+ "}]}".

Definition not_ready_text : string :=
  "{" +:+ quoted "ready_for_output" +:+ ": false}".

Definition ready_text : string :=
  "{" +:+ quoted "ready_for_output" +:+ ": true}".

Definition more_work_text : string :=
  "{" +:+ quoted "additional_work_needed" +:+ ": [{" +:+ quoted "agent" +:+ ": "
  +:+ quoted "auditor" +:+ ", " +:+ quoted "task" +:+ ": " +:+ quoted "dig deeper"
  +:+ "}], " +:+ quoted "ready_for_output" +:+ ": false}".

Definition plan_two_research_text : string :=
  "{" +:+ quoted "workflow_steps" +:+ ": [{" +:+ quoted "agent" +:+ ": "
  +:+ quoted "research" +:+ "}, {" +:+ quoted "agent" +:+ ": " +:+ quoted "research"
  +:+ "}, {" +:+ quoted "agent" +:+ ": " +:+ quoted "output" +:+ "}]}".

Definition plan_two_research : json :=
  JObj [("workflow_steps",
         JArr [JObj [("agent", JStr "research")]; JObj [("agent", JStr "research")];
               JObj [("agent", JStr "output")]])].

Definition plan_unknown_agent : json :=
  JObj [("workflow_steps",
         JArr [JObj [("agent", JStr "auditor"); ("instruction", JStr "check the ledger")]])].

Definition more_work : json :=
  JObj [("additional_work_needed",
         JArr [JObj [("agent", JStr "auditor"); ("task", JStr "dig deeper")]]);
        ("ready_for_output", JBool false)].

(** [json.loads] on the texts above; any other text is taken as free-form
    prose, which does not decode. *)
Definition sample_loads (text : string) : option json :=
  if String.eqb text array_text then Some (JArr [JInt 1])
  else if String.eqb text plan_without_steps_text
       then Some (JObj [("workflow_steps", JArr [])])
  else if String.eqb text plan_unknown_agent_text then Some plan_unknown_agent
  else if String.eqb text plan_two_research_text then Some plan_two_research
  else if String.eqb text not_ready_text then Some (JObj [("ready_for_output", JBool false)])
  else if String.eqb text ready_text then Some (JObj [("ready_for_output", JBool true)])
  else if String.eqb text more_work_text then Some more_work
  else None.

(** [sample_loads] as the [json.loads] of a runtime. *)
Definition loads_of (loads : string -> option json) (text : string) : Loaded :=
  match loads text with
  | Some v => Decoded v
  | None => Undecodable
  end.

(** A runtime whose [json.dumps] has room for eight levels of nesting in a
    parsed reply. *)
Definition sample_runtime : Runtime :=
  {| upper := ascii_upper; json_loads := loads_of sample_loads;
     recursion_headroom := 7 |}.

(** A backend that answers the [n]-th completion with the [n]-th entry of a
    script and with [fallback] once the script is used up. *)
Definition scripted (script : list ChatReply) (fallback : ChatReply) : Backend :=
  {| client := fun n _ => nth n script fallback;
     knowledge_raises := fun _ _ => None |}.

(** A backend that answers by the role of the agent asked. *)
Definition by_role (f : AgentRole -> ChatReply) : Backend :=
  {| client := fun _ rq => f (rq_agent rq);
     knowledge_raises := fun _ _ => None |}.

Definition prose_backend : Backend := scripted [] (Content "All clear.").

Definition outage_backend : Backend := scripted [] (BackendError "connection refused").

(** The planner is down, so the default sequence runs. *)
Definition planner_down (f : AgentRole -> ChatReply) : Backend :=
  by_role (fun r => match r with
                    | ORCHESTRATOR => BackendError "planner unavailable"
                    | _ => f r
                    end).

(** Every review asks for more work. *)
Definition perpetual_reviewer : Backend :=
  planner_down (fun r => match r with
                         | REVIEW => Content more_work_text
                         | _ => Content "All clear."
                         end).

(** The research agent fails, the reviewer is satisfied. *)
Definition research_down : Backend :=
  planner_down (fun r => match r with
                         | RESEARCH => BackendError "quota exceeded"
                         | REVIEW => Content ready_text
                         | _ => Content "All clear."
                         end).

(** The reviewer answers with a JSON array. *)
Definition array_reviewer : Backend :=
  planner_down (fun r => match r with
                         | REVIEW => Content array_text
                         | _ => Content "All clear."
                         end).

(** The first review (the fifth completion) asks for more work, every later
    review declares the analysis ready. *)
Definition review_once : Backend :=
  {| client := fun n rq =>
       match rq_agent rq with
       | ORCHESTRATOR => BackendError "planner unavailable"
       | REVIEW => if (n =? 4)%nat then Content more_work_text else Content ready_text
       | _ => Content "All clear."
       end;
     knowledge_raises := fun _ _ => None |}.

Definition two_research_planner : Backend :=
  scripted [Content plan_two_research_text; Content "first finding";
            Content "second finding"] (Content "done").

(** The planner answers with a dictionary that lists no steps. *)
Definition stepless_planner : Backend :=
  scripted [Content plan_without_steps_text] (Content "All clear.").

(** The planner answers with a JSON array. *)
Definition array_planner : Backend :=
  scripted [Content array_text] (Content "All clear.").

(** The planner names an agent that does not exist. *)
Definition auditor_planner : Backend :=
  scripted [Content plan_unknown_agent_text] (Content "All clear.").

Definition sample_workflow : Workflow :=
  create_workflow "wf_0001" "critical system outage affecting tax calculations".

(** Two completed review steps: the first asks for more work, the second
    declares the analysis ready. *)
Definition first_review : WorkflowStep :=
  mkStep 1 REVIEW (JStr "Review all findings and identify gaps") "completed"
    (Some (ResSuccess "review" more_work_text more_work)) None.

Definition second_review : WorkflowStep :=
  mkStep 2 REVIEW
    (JStr "Review the additional findings and determine if analysis is complete")
    "completed"
    (Some (ResSuccess "review" ready_text (JObj [("ready_for_output", JBool true)]))) None.

Definition reviewed_twice : Workflow :=
  set_steps [first_review; second_review] sample_workflow.

(** The run against [two_research_planner] once its two research steps are
    done and its output step is about to be executed. *)
Definition two_research_stage : Workflow :=
  match @_plan_workflow sample_runtime two_research_planner
          (set_state IN_PROGRESS sample_workflow) 0 with
  | (Ok planned, n1) =>
      out_wf (@run_pending sample_runtime two_research_planner [0%nat; 1%nat]
             (set_steps planned (set_state IN_PROGRESS sample_workflow)) n1)
  | (Raise _, _) => sample_workflow
  end.

Definition third_step : WorkflowStep := mark_in_progress (new_step 3 OUTPUT (JStr "")).

(** A completed review step whose verdict is "not ready" without any work
    item, and a workflow that consists of it. *)
Definition stalled_review : WorkflowStep :=
  mkStep 1 REVIEW (JStr "Review all findings and identify gaps") "completed"
    (Some (ResSuccess "review" not_ready_text (JObj [("ready_for_output", JBool false)])))
    None.

Definition stalled : Workflow := set_steps [stalled_review] sample_workflow.

(** A workflow created with a cap of zero rounds. *)
Definition capped_at_zero : Workflow := set_max_iterations 0 sample_workflow.

(** Two documents of the index, the second without a title, and a search
    client that finds them for every query. *)
Definition sample_documents : list Document :=
  [[("file_name", JStr "sla_policy.md");
    ("content", JStr "Priority 1 incidents are answered within one hour.");
    ("title", JStr "SLA policy");
    ("source_url", JStr "https://docs.example/sla_policy.md")];
   [("file_name", JStr "tax_calendar.csv");
    ("content", JStr "jurisdiction,due_date")]].

Definition sample_search : SearchClient :=
  mkSearchClient (fun _ _ => Some sample_documents).

(** Prompts and renderings that keep the scenarios small. *)
Definition sample_rendering : Rendering :=
  {| system_prompt := fun r => "You are the " +:+ role_value r +:+ " agent.";
     dumps_context := fun c => "{context}";
     dumps_snippets := fun l => "[snippets]" |}.

(** A plan whose only step gives its instruction as a number. *)
Definition plan_numbered_text : string :=
  "{" +:+ quoted "workflow_steps" +:+ ": [{" +:+ quoted "agent" +:+ ": "
  +:+ quoted "research" +:+ ", " +:+ quoted "instruction" +:+ ": 5}]}".

Definition plan_numbered : json :=
  JObj [("workflow_steps",
         JArr [JObj [("agent", JStr "research"); ("instruction", JInt 5)]])].

Definition numbered_runtime : Runtime :=
  {| upper := ascii_upper;
     json_loads :=
       loads_of (fun text =>
                   if String.eqb text plan_numbered_text then Some plan_numbered
                   else sample_loads text);
     recursion_headroom := 7 |}.

Definition numbered_planner : Backend :=
  scripted [Content plan_numbered_text] (Content "All clear.").



(** A reply that is one integer of 4301 digits: [json.loads] raises a
    [ValueError] on it. *)
Definition long_integer_text : string :=
  String.concat "" (repeat "7" 4301).

Fixpoint all_digits (s : string) : bool :=
  match s with
  | EmptyString => true
  | String c rest =>
      ((48 <=? nat_of_ascii c) && (nat_of_ascii c <=? 57))%nat && all_digits rest
  end.

(** The text of the [ValueError]. *)
Definition digit_limit_message : string :=
  "Exceeds the limit (4300 digits) for integer string conversion".

Definition digit_limit_runtime : Runtime :=
  {| upper := ascii_upper;
     json_loads := fun text =>
       if all_digits text && (4300 <? String.length text)%nat
       then LoadRaised digit_limit_message
       else loads_of sample_loads text;
     recursion_headroom := 7 |}.

Definition long_integer_backend : Backend :=
  scripted [] (Content long_integer_text).

(** A review reply that decodes to a dictionary nested four levels deep and
    asks for nothing, and a runtime whose [json.dumps] has room for three
    levels only. *)
Definition deep_review_text : string :=
  "{" +:+ quoted "synthesis" +:+ ": {" +:+ quoted "summary" +:+ ": {"
  +:+ quoted "detail" +:+ ": {" +:+ quoted "note" +:+ ": " +:+ quoted "none"
  +:+ "}}}}".

Definition deep_review : json :=
  JObj [("synthesis",
         JObj [("summary", JObj [("detail", JObj [("note", JStr "none")])])])].

Definition deep_runtime : Runtime :=
  {| upper := ascii_upper;
     json_loads :=
       loads_of (fun text =>
                   if String.eqb text deep_review_text then Some deep_review
                   else sample_loads text);
     recursion_headroom := 2 |}.

(** The planner and the output agent are down; the first review (the fifth
    completion) asks for more work, every later review answers with the
    deeply nested reply. *)
Definition late_deep_review : Backend :=
  {| client := fun n rq =>
       match rq_agent rq with
       | ORCHESTRATOR => BackendError "planner unavailable"
       | OUTPUT => BackendError "output unavailable"
       | REVIEW => if (n =? 4)%nat then Content more_work_text
                   else Content deep_review_text
       | _ => Content "All clear."
       end;
     knowledge_raises := fun _ _ => None |}.

(** A workflow created with a cap of two rounds. *)
Definition capped_at_two : Workflow := set_max_iterations 2 sample_workflow.

(** The knowledge base returns results that cannot be serialised. *)
Definition unrenderable_knowledge : Backend :=
  {| client := fun _ _ => Content "All clear.";
     knowledge_raises := fun _ _ => Some TypeError |}.
(** ** Vocabulary of the statements *)

(** *** Shapes of replies *)

(** Shapes of decoded replies the orchestrator reads without an attribute or
    type error: a work or plan item is a dictionary whose [agent], if present,
    is a string; the item lists, if present, are lists of such items. *)
Definition item_ok (item : json) : bool :=
  match item with
  | JObj fields =>
      match dict_get "agent" fields with
      | None | Some (JStr _) => true
      | Some _ => false
      end
  | _ => false
  end.

Definition items_ok (entry : option json) : bool :=
  match entry with
  | None => true
  | Some (JArr items) => forallb item_ok items
  | Some _ => false
  end.

Definition well_shaped (v : json) : bool :=
  match v with
  | JObj fields =>
      items_ok (dict_get "workflow_steps" fields)
      && items_ok (dict_get "additional_work_needed" fields)
  | _ => negb (truthy v)
  end.

(** Every reply of the backend that decodes is well shaped. *)
Definition replies_well_shaped {runtime : Runtime} {backend : Backend} : Prop :=
  forall n rq text v,
    client n rq = Content text -> json_loads text = Decoded v -> well_shaped v = true.

(** The outputs stored on the steps are well shaped. *)
Definition outputs_well_shaped (wf : Workflow) : Prop :=
  forall s out, s ∈ steps wf -> output_data s = Some out ->
    well_shaped (res_parsed_or_empty out) = true.

(** *** Steps *)

(** A step as [WorkflowStep(...)] leaves it. *)
Definition fresh (s : WorkflowStep) : Prop :=
  status s = "pending" /\ output_data s = None /\ error s = None.

(** The part of a step that is fixed when the step is created. *)
Definition step_key (s : WorkflowStep) : Z * AgentRole * json :=
  (step_id s, agent s, instruction s).

(** Positions are 1, 2, 3, ... in list order. *)
Definition positions_ok (l : list WorkflowStep) : Prop :=
  map step_id l = seqZ 1 (Z.of_nat (length l)).

(** A step whose output goes into the context of position [id] under the
    key of role [r]. *)
Definition contributes (id : Z) (r : AgentRole) (s : WorkflowStep) : bool :=
  (step_id s <? id) && bool_decide (agent s = r)
  && match output_data s with Some _ => true | None => false end.

(** Output is present exactly on completed steps, as it is from planning on. *)
Definition outputs_match_status (l : list WorkflowStep) : Prop :=
  forall s, s ∈ l -> (is_Some (output_data s) <-> status s = "completed").

(** The same, as a test on one step. *)
Definition output_matches_status (s : WorkflowStep) : bool :=
  Bool.eqb (match output_data s with Some _ => true | None => false end)
           (String.eqb (status s) "completed").

(** The work items a review step contributes to [_add_revision_steps]. *)
Definition review_items (s : WorkflowStep) : list json :=
  match review_verdict s with
  | Some (JObj fields) =>
      match dict_get "additional_work_needed" fields with
      | Some (JArr items) => items
      | _ => []
      end
  | _ => []
  end.

(** *** Requests and results *)

(** The request [_plan_workflow] sends. *)
Definition plan_request (wf : Workflow) : ChatRequest :=
  mkRequest ORCHESTRATOR
    (JStr ("Plan a workflow for this user request: " +:+ user_request wf)) None None.

(** The request [_execute_step] sends for the step at index [i]: its
    instruction, the context gathered from the steps before it, and the
    user's request as knowledge query when its agent may consult the
    knowledge base. *)
Definition step_request (wf : Workflow) (i : nat) (step0 : WorkflowStep) : ChatRequest :=
  let step := mark_in_progress step0 in
  mkRequest (agent step) (instruction step)
    (context_part (Some (gather_context (set_steps (<[i := step]> (steps wf)) wf) step)))
    (knowledge_part (agent step)
       (if can_query_knowledge (agent step) then Some (user_request wf) else None)).

(** What [execute] returns to [_execute_step] for that step, when it
    returns. *)
Definition step_result {runtime : Runtime} {backend : Backend}
    (wf : Workflow) (i : nat) (step0 : WorkflowStep) (n : nat) : ExecResult :=
  complete (agent step0) (step_request wf i step0) n.

(** The workflow once [_execute_step] has marked the step at index [i] as
    in progress: what it reads the context from, and what it leaves behind
    when [execute] raises. *)
Definition begun (wf : Workflow) (i : nat) (step0 : WorkflowStep) : Workflow :=
  set_steps (<[i := mark_in_progress step0]> (steps wf)) wf.

(** The workflow [_execute_step] returns with: the result recorded on the
    step and logged. *)
Definition ended {runtime : Runtime} {backend : Backend}
    (wf : Workflow) (i : nat) (step0 : WorkflowStep) (n : nat) : Workflow :=
  mkWorkflow (workflow_id wf) (user_request wf) (state wf)
    (<[i := record_result (step_result wf i step0 n) (mark_in_progress step0)]> (steps wf))
    (conversation_history wf ++
       [mkEntry (step_id step0) (role_value (agent step0)) (instruction step0)
          (step_result wf i step0 n)])
    (final_output wf) (iteration_count wf) (max_iterations wf).

(** The output step the tail of [run_workflow] appends when no output step
    is completed, and the workflow with it. *)
Definition forced_output_step (wf : Workflow) : WorkflowStep :=
  new_step (Z.of_nat (length (steps wf)) + 1) OUTPUT
    (JStr "Create final response synthesizing all agent findings").

Definition with_forced_output (wf : Workflow) : Workflow :=
  set_steps (steps wf ++ [forced_output_step wf]) wf.

(** *** Stages of a run *)

(** The workflow a run stopped with, however it stopped. *)
Definition final_workflow (r : RunResult) : Workflow :=
  match r with
  | Returned wf _ | Raised _ wf _ | OutOfFuel wf _ => wf
  end.

(** The number of completions requested when the run stopped. *)
Definition calls_made (r : RunResult) : nat :=
  match r with
  | Returned _ n | Raised _ _ n | OutOfFuel _ n => n
  end.

(** The workflow the loop stopped with, however it stopped. *)
Definition loop_final (r : LoopResult) : Workflow :=
  match r with
  | LoopBreak wf _ | LoopCap wf _ | LoopRaised _ wf _ | LoopFuel wf _ => wf
  end.

(** [advances wf wf']: [wf'] comes from [wf] by executing steps that were
    pending.  Only the mutable part of such steps and the log change. *)
Record advances (wf wf' : Workflow) : Prop := mkAdvances {
  adv_id : workflow_id wf' = workflow_id wf;
  adv_request : user_request wf' = user_request wf;
  adv_state : state wf' = state wf;
  adv_final : final_output wf' = final_output wf;
  adv_count : iteration_count wf' = iteration_count wf;
  adv_max : max_iterations wf' = max_iterations wf;
  adv_keys : map step_key (steps wf') = map step_key (steps wf);
  adv_log : conversation_history wf `prefix_of` conversation_history wf';
  adv_settled : forall j s, steps wf !! j = Some s ->
                  String.eqb (status s) "pending" = false -> steps wf' !! j = Some s
}.

(** [evolves wf wf']: [wf'] is a later stage of the run that was at [wf]
    once planned.  Steps are only appended, settled steps are left alone. *)
Record evolves (wf wf' : Workflow) : Prop := mkEvolves {
  ev_id : workflow_id wf' = workflow_id wf;
  ev_request : user_request wf' = user_request wf;
  ev_max : max_iterations wf' = max_iterations wf;
  ev_count : iteration_count wf <= iteration_count wf';
  ev_keys : map step_key (steps wf) `prefix_of` map step_key (steps wf');
  ev_positions : positions_ok (steps wf) -> positions_ok (steps wf');
  ev_log : conversation_history wf `prefix_of` conversation_history wf';
  ev_settled : forall j s, steps wf !! j = Some s ->
                 String.eqb (status s) "pending" = false -> steps wf' !! j = Some s
}.

(** [logged k wf]: the log holds more than [k] entries unless every step is
    still pending. *)
Definition logged (k : nat) (wf : Workflow) : Prop :=
  (k <= length (conversation_history wf))%nat
  /\ ((forall s, s ∈ steps wf -> status s = "pending")
      \/ (k < length (conversation_history wf))%nat).

(** The failures logged after the entries [old] are recorded on steps. *)
Definition failures_recorded (old : list LogEntry) (wf : Workflow) : Prop :=
  exists new, conversation_history wf = old ++ new
    /\ forall e, e ∈ new -> res_success (log_result e) = false ->
         exists s, s ∈ steps wf /\ step_id s = log_step_id e
                   /\ status s = "failed" /\ error s = Some (res_error (log_result e)).

(** What a run against well shaped replies maintains. *)
Definition sound (old : list LogEntry) (wf : Workflow) : Prop :=
  outputs_well_shaped wf /\ failures_recorded old wf.

(** The states [run_workflow] assigns. *)
Definition assigned_state (s : WorkflowState) : Prop :=
  s = IN_PROGRESS \/ s = NEEDS_REVISION \/ s = COMPLETED.

(** Every reply of the backend that decodes can be rendered by
    [json.dumps] in the context of a later step, and so can the results of
    the knowledge base. *)
Definition replies_render {runtime : Runtime} {backend : Backend} : Prop :=
  (forall n rq text v,
     client n rq = Content text -> json_loads text = Decoded v -> renders v = true)
  /\ (forall n q, knowledge_raises n q = None).

(** The outputs stored on the steps can be rendered. *)
Definition outputs_render {runtime : Runtime} (wf : Workflow) : Prop :=
  forall s out, s ∈ steps wf -> output_data s = Some out ->
    renders (res_parsed out) = true.

(** *** Properties the orchestrator does not have as they stand *)


(** Running a second time on the workflow a run returned appends nothing
    to the log. *)
Definition second_run_silent {runtime : Runtime} {backend : Backend}
    (wf : Workflow) (n : nat) : Prop :=
  forall wf1 n1 wf2 n2,
    run_workflow wf n = Returned wf1 n1 ->
    run_workflow wf1 n1 = Returned wf2 n2 ->
    conversation_history wf2 = conversation_history wf1.

(** A run keeps the steps the workflow came with, where they were. *)
Definition keeps_existing_steps {runtime : Runtime} {backend : Backend}
    (wf : Workflow) (n : nat) : Prop :=
  forall wf' n',
    run_workflow wf n = Returned wf' n' ->
    map step_key (steps wf) `prefix_of` map step_key (steps wf').


(** The context holds the output of every completed step of lower position
    under the key of its role. *)
Definition context_has_every_prior_output (wf : Workflow) (step : WorkflowStep) : Prop :=
  forall s out,
    s ∈ steps wf -> step_id s < step_id step -> status s = "completed" ->
    output_data s = Some out ->
    gather_context wf step !! role_value (agent s) = Some (CtxOutput out).

(** *** Vocabulary of the further properties *)

(** The number of completions requested when the loop stopped. *)
Definition loop_calls (r : LoopResult) : nat :=
  match r with
  | LoopBreak _ n | LoopCap _ n | LoopRaised _ _ n | LoopFuel _ n => n
  end.

(** A step that was executed. *)
Definition settled (s : WorkflowStep) : Prop :=
  status s = "completed" \/ status s = "failed".

(** A step [_execute_step] has marked and not finished: what a raising
    [execute] leaves behind. *)
Definition in_flight (s : WorkflowStep) : Prop :=
  status s = "in_progress" /\ output_data s = None /\ error s = None.

(** The result of its execution, as a settled step keeps it: the output of a
    completed step, the error of a failed one. *)
Definition recorded_result (s : WorkflowStep) : ExecResult :=
  match output_data s with
  | Some r => r
  | None => ResFailure (role_value (agent s))
              (match error s with Some msg => msg | None => "" end)
  end.

(** The log entry of the execution of a settled step. *)
Definition entry_of (s : WorkflowStep) : LogEntry :=
  mkEntry (step_id s) (role_value (agent s)) (instruction s) (recorded_result s).

(** The steps that were executed, in list order. *)
Definition executed_steps (l : list WorkflowStep) : list WorkflowStep :=
  filter (fun s => String.eqb (status s) "completed" || String.eqb (status s) "failed"
                   = true) l.

(** [in_order log0 n1 wf n]: the executed steps are a prefix of the list, the
    rest is as created; the log holds [log0] and then one entry per executed
    step, in list order; [n1] completions were requested before the first. *)
Definition in_order (log0 : list LogEntry) (n1 : nat) (wf : Workflow) (n : nat) : Prop :=
  exists l1 l2,
    steps wf = l1 ++ l2 /\ Forall settled l1 /\ Forall fresh l2
    /\ conversation_history wf = log0 ++ map entry_of l1
    /\ n = (n1 + length l1)%nat.

(** The same without the order of the list, and with room for a step left
    in progress: what holds when [execute] has raised, and once the output
    step has been forced behind steps that are still pending. *)
Definition accounted (log0 : list LogEntry) (n1 : nat) (wf : Workflow) (n : nat) : Prop :=
  conversation_history wf = log0 ++ map entry_of (executed_steps (steps wf))
  /\ n = (n1 + length (executed_steps (steps wf)))%nat
  /\ Forall (fun s => settled s \/ fresh s \/ in_flight s) (steps wf).

(** [interrupted log0 n1 wf n]: as [in_order], with the step behind the
    executed ones left in progress and not logged: the workflow after an
    [execute] that raised. *)
Definition interrupted (log0 : list LogEntry) (n1 : nat) (wf : Workflow) (n : nat) : Prop :=
  exists l1 x l2,
    steps wf = l1 ++ x :: l2 /\ Forall settled l1 /\ in_flight x /\ Forall fresh l2
    /\ conversation_history wf = log0 ++ map entry_of l1
    /\ n = (n1 + length l1)%nat.

(** No step is left in progress. *)
Definition tidy (wf : Workflow) : Prop :=
  Forall (fun s => settled s \/ fresh s) (steps wf).

(** No reply of the backend decodes to a truthy value: the backend answers
    in prose, or fails. *)
Definition replies_unstructured {runtime : Runtime} {backend : Backend} : Prop :=
  forall n rq text v,
    client n rq = Content text -> json_loads text = Decoded v -> truthy v = false.

(** The results of the knowledge base can be rendered. *)
Definition knowledge_renders {backend : Backend} : Prop :=
  forall n q, knowledge_raises n q = None.

(** The parsed outputs stored on the steps are falsy. *)
Definition outputs_unstructured (wf : Workflow) : Prop :=
  forall s out, s ∈ steps wf -> output_data s = Some out ->
    truthy (res_parsed_or_empty out) = false.

(** *** Vocabulary of the knowledge base and the messages *)

(** The messages [_execute_step] has [execute] send for the step at index [i]. *)
Definition step_messages {rendering : Rendering} (search_client : option SearchClient)
    (wf : Workflow) (i : nat) (step0 : WorkflowStep) : list Message :=
  let step := mark_in_progress step0 in
  build_messages search_client (agent step) (instruction step)
    (Some (gather_context (set_steps (<[i := step]> (steps wf)) wf) step))
    (if can_query_knowledge (agent step) then Some (user_request wf) else None).

(** A snippet made of a document: the fields are the document's, the
    content cut after 1000 characters or items. *)
Definition snippet_from (r : Document) (s : Snippet) : Prop :=
  dict_get "file_name" r = Some (sn_file_name s)
  /\ (exists content,
        dict_get "content" r = Some content
        /\ slice_1000 content = Some (sn_content s)
        /\ json_len (sn_content s) = Nat.min 1000 (json_len content))
  /\ sn_title s = default (sn_file_name s) (dict_get "title" r)
  /\ sn_source_url s = default (JStr "") (dict_get "source_url" r).

(** *** Vocabulary of the streamed run *)

(** Agent and outcome of the steps the events report as complete. *)
Definition reported (events : list Event) : list (string * bool) :=
  omap (fun e => match e with
                 | EvStepComplete a c => Some (a, c)
                 | _ => None
                 end) events.

(** Agent and outcome of the steps the log records. *)
Definition outcomes (log : list LogEntry) : list (string * bool) :=
  map (fun e => (log_agent e, res_success (log_result e))) log.

(** The events of the loop: [executing] and [step_complete] of the same
    agent in pairs, with [revision] events between passes. *)
Inductive loop_events : list Event -> Prop :=
| loop_events_nil : loop_events []
| loop_events_step a p c rest :
    loop_events rest -> loop_events (EvExecuting a p :: EvStepComplete a c :: rest)
| loop_events_revision rest :
    loop_events rest -> loop_events (EvRevision :: rest).

(** The event a run that returned ends with. *)
Definition closing (r : RunResult) : list Event :=
  match r with
  | Returned _ _ => [EvComplete]
  | _ => []
  end.

(** The run stopped at a pending step whose instruction cannot be sliced. *)
Definition stopped_at_preview (r : RunResult) : Prop :=
  exists wf n s,
    r = Raised TypeError wf n /\ s ∈ steps wf /\ status s = "pending"
    /\ py_slice 100 (instruction s) = None.

(** The [executing] event of a step whose [step_complete] never came:
    the last event of a run in which [execute] raised. *)
Definition unanswered (r : RunResult) (events : list Event) : Prop :=
  events = []
  \/ exists a p e wf n, events = [EvExecuting a p] /\ r = Raised e wf n.

(** The events so far report the steps logged since the log was [log0]. *)
Definition streamed_ok (log0 : list LogEntry) (wf : Workflow) (events : list Event)
  : Prop :=
  exists body,
    events = EvPlanning :: body /\ loop_events body
    /\ outcomes (conversation_history wf) = outcomes log0 ++ reported body.

(** The same when the last [executing] event may be unanswered. *)
Definition streamed_open (log0 : list LogEntry) (wf : Workflow) (events : list Event)
  : Prop :=
  exists body open,
    events = EvPlanning :: body ++ open /\ loop_events body
    /\ (open = [] \/ exists a p, open = [EvExecuting a p])
    /\ outcomes (conversation_history wf) = outcomes log0 ++ reported body.

(** ** Properties *)

Section Properties.

Context {runtime : Runtime} {backend : Backend}.

(** *** The executor *)

Lemma complete_agent agent_role rq n :
  match complete agent_role rq n with
  | ResSuccess a _ _ | ResFailure a _ => a = role_value agent_role
  end.
Proof.
  unfold complete.
  destruct (client n rq) as [text| |msg]; [destruct (json_loads text)| |]; reflexivity.
Qed.

(** The planning call builds no context and asks no knowledge base, so
    nothing can raise before its [try]. *)
Lemma plan_workflow_eq wf n :
  _plan_workflow wf n
  = (steps_of_plan (user_request wf) (complete ORCHESTRATOR (plan_request wf) n), S n).
Proof. reflexivity. Qed.

(** *** One step *)

Lemma execute_step_eq wf i n step0 :
  steps wf !! i = Some step0 ->
  _execute_step wf i n =
    match assembly_raises n (step_request wf i step0) with
    | Some e => Aborted e (begun wf i step0) n
    | None => Finished (ended wf i step0 n) (S n)
    end.
Proof.
  intros Hi. unfold _execute_step, execute. rewrite Hi. cbn zeta.
  change (mkRequest (agent (mark_in_progress step0)) (instruction (mark_in_progress step0))
            _ _) with (step_request wf i step0).
  destruct (assembly_raises n (step_request wf i step0)) as [e|]; [reflexivity|].
  unfold ended, step_result, set_history, set_steps. cbn.
  rewrite list_insert_insert_eq. f_equal. f_equal.
  unfold record_result. destruct (res_success _); reflexivity.
Qed.

Lemma execute_step_none wf i n :
  steps wf !! i = None -> _execute_step wf i n = Finished wf n.
Proof. intros Hi. unfold _execute_step. rewrite Hi. reflexivity. Qed.

Lemma record_result_key result s :
  step_key (record_result result s) = step_key s.
Proof. unfold record_result. destruct (res_success result); reflexivity. Qed.

Lemma record_result_status result s :
  status (record_result result s) = if res_success result then "completed" else "failed".
Proof. unfold record_result. destruct (res_success result); reflexivity. Qed.

Lemma record_result_not_pending result s :
  String.eqb (status (record_result result s)) "pending" = false.
Proof. rewrite record_result_status. destruct (res_success result); reflexivity. Qed.


(** *** A pass over the pending steps *)

Lemma advances_refl wf : advances wf wf.
Proof. constructor; auto. Qed.

Lemma advances_trans wf1 wf2 wf3 :
  advances wf1 wf2 -> advances wf2 wf3 -> advances wf1 wf3.
Proof.
  intros [] []. constructor; try congruence; eauto.
  etransitivity; eauto.
Qed.

Lemma advances_length wf wf' : advances wf wf' -> length (steps wf') = length (steps wf).
Proof.
  intros H. rewrite <- (length_map step_key (steps wf')), (adv_keys _ _ H).
  apply length_map.
Qed.

Lemma begun_advances wf i step :
  steps wf !! i = Some step -> String.eqb (status step) "pending" = true ->
  advances wf (begun wf i step).
Proof.
  intros Hi Hp. constructor; cbn; auto.
  - change (map step_key) with (fmap (M:=list) step_key).
    rewrite list_fmap_insert.
    apply list_insert_id. rewrite list_lookup_fmap, Hi. reflexivity.
  - intros j s Hj Hs. destruct (decide (i = j)) as [->|Hne].
    + congruence.
    + rewrite list_lookup_insert_ne; auto.
Qed.

Lemma ended_advances wf i n step :
  steps wf !! i = Some step -> String.eqb (status step) "pending" = true ->
  advances wf (ended wf i step n).
Proof.
  intros Hi Hp. constructor; cbn; auto.
  - change (map step_key) with (fmap (M:=list) step_key).
    rewrite list_fmap_insert, record_result_key.
    apply list_insert_id. rewrite list_lookup_fmap, Hi. reflexivity.
  - apply prefix_app_r. reflexivity.
  - intros j s Hj Hs. destruct (decide (i = j)) as [->|Hne].
    + congruence.
    + rewrite list_lookup_insert_ne; auto.
Qed.

Lemma execute_step_advances wf i n step :
  steps wf !! i = Some step -> String.eqb (status step) "pending" = true ->
  advances wf (out_wf (_execute_step wf i n)).
Proof.
  intros Hi Hp. rewrite (execute_step_eq _ _ _ _ Hi).
  destruct (assembly_raises _ _); cbn [out_wf].
  - apply begun_advances; assumption.
  - apply ended_advances; assumption.
Qed.

(** A step costs one completion, unless [execute] raised before the call. *)
Lemma execute_step_calls wf i n :
  out_calls (_execute_step wf i n)
  = match _execute_step wf i n, steps wf !! i with
    | Finished _ _, Some _ => S n
    | _, _ => n
    end.
Proof.
  destruct (steps wf !! i) as [step|] eqn:Hi.
  - rewrite (execute_step_eq _ _ _ _ Hi). destruct (assembly_raises _ _); reflexivity.
  - rewrite (execute_step_none _ _ _ Hi). reflexivity.
Qed.

(** What holds of the workflow and keeps holding when a pending step is
    executed, whether [execute] returns or raises, holds after a pass. *)
Lemma run_pending_invariant (P : Workflow -> Prop) :
  (forall wf i n step, steps wf !! i = Some step ->
     String.eqb (status step) "pending" = true -> P wf ->
     P (out_wf (_execute_step wf i n))) ->
  forall idxs wf n, P wf -> P (out_wf (run_pending idxs wf n)).
Proof.
  intros Hstep idxs. induction idxs as [|i rest IH]; intros wf n HP; cbn; [exact HP|].
  destruct (steps wf !! i) as [step|] eqn:Hi; [|apply IH; exact HP].
  destruct (String.eqb (status step) "pending") eqn:Hp; [|apply IH; exact HP].
  specialize (Hstep wf i n step Hi Hp HP).
  destruct (_execute_step wf i n) as [wf' n'|e wf' n']; [apply IH|]; exact Hstep.
Qed.

(** The same for what holds as long as no step raises. *)
Lemma run_pending_finished (P : Workflow -> Prop) :
  (forall wf i n step, steps wf !! i = Some step ->
     String.eqb (status step) "pending" = true -> P wf -> P (ended wf i step n)) ->
  forall idxs wf n wf' n', P wf -> run_pending idxs wf n = Finished wf' n' -> P wf'.
Proof.
  intros Hstep idxs. induction idxs as [|i rest IH]; intros wf n wf' n' HP; cbn.
  - intros [= <- _]. exact HP.
  - destruct (steps wf !! i) as [step|] eqn:Hi; [|apply IH; exact HP].
    destruct (String.eqb (status step) "pending") eqn:Hp; [|apply IH; exact HP].
    rewrite (execute_step_eq _ _ _ _ Hi).
    destruct (assembly_raises _ _); [discriminate|].
    apply IH. apply Hstep; assumption.
Qed.

Lemma run_pending_advances idxs : forall wf n, advances wf (out_wf (run_pending idxs wf n)).
Proof.
  intros wf n.
  apply (run_pending_invariant (advances wf)); [|apply advances_refl].
  intros w i m step Hi Hp Ha. eapply advances_trans; [exact Ha|].
  apply execute_step_advances with step; assumption.
Qed.

Lemma execute_pending_advances wf n : advances wf (out_wf (execute_pending wf n)).
Proof. apply run_pending_advances. Qed.

(** A pass over steps none of which is pending does nothing. *)
Lemma run_pending_settled idxs wf n :
  (forall s, s ∈ steps wf -> String.eqb (status s) "pending" = false) ->
  run_pending idxs wf n = Finished wf n.
Proof.
  intros Hs. induction idxs as [|i rest IH]; cbn; [reflexivity|].
  destruct (steps wf !! i) as [step|] eqn:Hi; [|exact IH].
  rewrite (Hs step); [exact IH|].
  apply list_elem_of_lookup. eauto.
Qed.

(** After a pass that went through, the visited cells hold no pending step. *)
Lemma run_pending_visits idxs : forall wf n wf' n' j s,
  run_pending idxs wf n = Finished wf' n' ->
  j ∈ idxs -> steps wf' !! j = Some s ->
  String.eqb (status s) "pending" = false.
Proof.
  induction idxs as [|i rest IH]; intros wf n wf' n' j s Hrun Hj Hs; [inversion Hj|].
  cbn in Hrun.
  assert (Hrest : forall wf1 n1 s1, steps wf1 !! i = Some s1 ->
            String.eqb (status s1) "pending" = false ->
            run_pending rest wf1 n1 = Finished wf' n' ->
            String.eqb (status s) "pending" = false).
  { intros wf1 n1 s1 H1 Hp1 Hrun1.
    apply elem_of_cons in Hj as [->|Hj]; [|eauto].
    pose proof (adv_settled _ _ (run_pending_advances rest wf1 n1) _ _ H1 Hp1) as Hk.
    rewrite Hrun1 in Hk. cbn [out_wf] in Hk. congruence. }
  destruct (steps wf !! i) as [step|] eqn:Hi.
  - destruct (String.eqb (status step) "pending") eqn:Hp.
    + rewrite (execute_step_eq wf i n step Hi) in Hrun.
      destruct (assembly_raises _ _); [discriminate Hrun|].
      eapply (Hrest (ended wf i step n) (S n)); [| |exact Hrun].
      * cbn. apply list_lookup_insert_eq. apply lookup_lt_is_Some. eauto.
      * apply record_result_not_pending.
    + eapply Hrest; eauto.
  - apply elem_of_cons in Hj as [->|Hj]; [|eauto].
    pose proof (advances_length _ _ (run_pending_advances rest wf n)) as Hl.
    rewrite Hrun in Hl. cbn [out_wf] in Hl.
    apply lookup_ge_None in Hi. apply lookup_lt_Some in Hs. lia.
Qed.

Lemma execute_pending_settles wf n wf' n' s :
  execute_pending wf n = Finished wf' n' ->
  s ∈ steps wf' -> String.eqb (status s) "pending" = false.
Proof.
  intros Hrun Hs. apply list_elem_of_lookup in Hs as [j Hj].
  eapply (run_pending_visits _ wf n wf' n' j); [exact Hrun| |exact Hj].
  apply elem_of_seq. apply lookup_lt_Some in Hj.
  pose proof (advances_length _ _ (execute_pending_advances wf n)) as Hl.
  rewrite Hrun in Hl. cbn [out_wf] in Hl. lia.
Qed.

(** *** Steps made by planning and by revision *)

Ltac exc_inv :=
  repeat match goal with
  | H : bind ?m _ = Ok _ |- _ =>
      let E := fresh "E" in destruct m eqn:E; cbn [bind] in H; [|discriminate H]
  | H : Ok _ = Ok _ |- _ => injection H as H
  | H : Raise _ = Ok _ |- _ => discriminate H
  end.

Lemma seqZ_succ m (k : nat) :
  seqZ m (Z.of_nat (S k)) = m :: seqZ (m + 1) (Z.of_nat k).
Proof.
  rewrite seqZ_cons by lia. f_equal. f_equal; lia.
Qed.

Lemma plan_step_spec id info s :
  plan_step id info = Ok s -> step_id s = id /\ fresh s.
Proof.
  unfold plan_step. intros H. exc_inv. subst s. repeat split.
Qed.

Lemma work_step_spec id item s :
  work_step id item = Ok s -> step_id s = id /\ fresh s.
Proof.
  unfold work_step. intros H. exc_inv. subst s. repeat split.
Qed.

Lemma plan_steps_spec infos : forall id ss,
  plan_steps id infos = Ok ss ->
  map step_id ss = seqZ id (Z.of_nat (length ss)) /\ length ss = length infos
  /\ Forall fresh ss.
Proof.
  induction infos as [|info rest IH]; intros id ss H; cbn in H.
  - injection H as <-. repeat split. constructor.
  - exc_inv. subst ss.
    destruct (plan_step_spec _ _ _ E) as [Hid Hf].
    destruct (IH _ _ E0) as (Hids & Hlen & Hfr).
    cbn [map length]. rewrite seqZ_succ, Hid, Hids, Hlen. repeat split.
    constructor; assumption.
Qed.

Lemma work_steps_spec items : forall id ss,
  work_steps id items = Ok ss ->
  map step_id ss = seqZ id (Z.of_nat (length ss)) /\ length ss = length items
  /\ Forall fresh ss.
Proof.
  induction items as [|item rest IH]; intros id ss H; cbn in H.
  - injection H as <-. repeat split. constructor.
  - exc_inv. subst ss.
    destruct (work_step_spec _ _ _ E) as [Hid Hf].
    destruct (IH _ _ E0) as (Hids & Hlen & Hfr).
    cbn [map length]. rewrite seqZ_succ, Hid, Hids, Hlen. repeat split.
    constructor; assumption.
Qed.

Lemma revision_items_spec l : forall next new,
  revision_items next l = Ok new ->
  map step_id new = seqZ next (Z.of_nat (length new)) /\ Forall fresh new.
Proof.
  induction l as [|step rest IH]; intros next new H; cbn in H.
  - injection H as <-. split; [reflexivity|constructor].
  - destruct (review_verdict step) as [parsed|]; [|eauto].
    exc_inv. subst new.
    destruct (work_steps_spec _ _ _ E1) as (Hids & _ & Hfr).
    destruct (IH _ _ E2) as (Hids' & Hfr').
    split; [|apply Forall_app; auto].
    rewrite map_app, length_app, Nat2Z.inj_add, seqZ_app by lia.
    congruence.
Qed.

Lemma add_revision_steps_spec wf new :
  _add_revision_steps wf = Ok new ->
  map step_id new = seqZ (Z.of_nat (length (steps wf)) + 1) (Z.of_nat (length new))
  /\ Forall fresh new.
Proof.
  unfold _add_revision_steps. intros H. exc_inv.
  destruct (revision_items_spec _ _ _ E) as (Hids & Hfr).
  assert (Hnew : new = [] \/
            new = a ++ [new_step (Z.of_nat (length (steps wf)) + 1 + Z.of_nat (length a))
              REVIEW
              (JStr "Review the additional findings and determine if analysis is complete")]).
  { destruct a; injection H as <-; [left|right]; reflexivity. }
  destruct Hnew as [->| ->]; [split; [reflexivity|constructor]|].
  split.
  - rewrite map_app, length_app, Nat2Z.inj_add, seqZ_app, Hids by lia. reflexivity.
  - apply Forall_app. split; [assumption|]. repeat constructor.
Qed.

Lemma steps_of_plan_spec request result ss :
  steps_of_plan request result = Ok ss -> positions_ok ss /\ Forall fresh ss.
Proof.
  unfold steps_of_plan, positions_ok. intros H.
  destruct (res_success result && truthy (res_parsed result)).
  - exc_inv. destruct (plan_steps_spec _ _ _ H) as (Hids & _ & Hfr). auto.
  - injection H as <-. split; [reflexivity|repeat constructor].
Qed.

Lemma plan_workflow_spec wf n ss n' :
  _plan_workflow wf n = (Ok ss, n') -> n' = S n /\ positions_ok ss /\ Forall fresh ss.
Proof.
  rewrite plan_workflow_eq. intros [= H <-]. split; [reflexivity|].
  eapply steps_of_plan_spec; eauto.
Qed.

Lemma plan_workflow_calls wf n : snd (_plan_workflow wf n) = S n.
Proof. reflexivity. Qed.

Lemma positions_ok_app l new :
  positions_ok l ->
  map step_id new = seqZ (Z.of_nat (length l) + 1) (Z.of_nat (length new)) ->
  positions_ok (l ++ new).
Proof.
  unfold positions_ok. intros Hl Hn.
  rewrite map_app, length_app, Nat2Z.inj_add, seqZ_app, Hl, Hn by lia.
  f_equal. f_equal. lia.
Qed.


(** *** The revision loop and the whole run *)

Lemma evolves_refl wf : evolves wf wf.
Proof. constructor; auto; reflexivity. Qed.

Lemma evolves_trans wf1 wf2 wf3 : evolves wf1 wf2 -> evolves wf2 wf3 -> evolves wf1 wf3.
Proof.
  intros [] []. constructor; try congruence; eauto; try (etransitivity; eauto).
Qed.

Lemma step_ids_of_keys l : map step_id l = map (fun k => fst (fst k)) (map step_key l).
Proof. rewrite map_map. reflexivity. Qed.

Lemma positions_ok_keys l l' :
  map step_key l' = map step_key l -> positions_ok l -> positions_ok l'.
Proof.
  unfold positions_ok. intros Hk Hl.
  rewrite step_ids_of_keys, Hk, <- step_ids_of_keys, Hl.
  rewrite <- (length_map step_key l'), Hk, length_map. reflexivity.
Qed.

Lemma advances_evolves wf wf' : advances wf wf' -> evolves wf wf'.
Proof.
  intros H. pose proof H as []. constructor; auto.
  - lia.
  - rewrite adv_keys0. reflexivity.
  - apply positions_ok_keys. assumption.
Qed.

(** Appending steps made for the next positions. *)
Lemma append_evolves wf new st :
  map step_id new = seqZ (Z.of_nat (length (steps wf)) + 1) (Z.of_nat (length new)) ->
  evolves wf (set_state st (set_steps (steps wf ++ new) wf)).
Proof.
  intros Hn. constructor; cbn; auto; try reflexivity.
  - rewrite map_app. apply prefix_app_r. reflexivity.
  - intros Hp. apply positions_ok_app; assumption.
  - intros j s Hj _. apply lookup_app_l_Some. assumption.
Qed.

Lemma counted_evolves wf wf' :
  advances (set_iteration_count (iteration_count wf + 1) wf) wf' -> evolves wf wf'.
Proof.
  intros Ha. apply advances_evolves in Ha. destruct Ha. constructor; auto.
  cbn in ev_count0. lia.
Qed.

Lemma revision_loop_evolves fuel : forall wf n,
  evolves wf (loop_final (revision_loop fuel wf n)).
Proof.
  induction fuel as [|fuel IH]; intros wf n; cbn [revision_loop].
  - destruct (iteration_count wf <? max_iterations wf); apply evolves_refl.
  - destruct (iteration_count wf <? max_iterations wf); [|apply evolves_refl].
    pose proof (execute_pending_advances
                  (set_iteration_count (iteration_count wf + 1) wf) n) as Ha.
    apply counted_evolves in Ha.
    destruct (execute_pending _ n) as [wf2 n2|e wf2 n2]; cbn [out_wf] in Ha;
      [|exact Ha].
    rename Ha into H2.
    destruct (_check_if_revision_needed wf2) as [[|]|e]; try exact H2.
    destruct (_add_revision_steps wf2) as [new|e] eqn:Hadd; try exact H2.
    eapply evolves_trans; [exact H2|].
    eapply evolves_trans; [|apply IH].
    apply append_evolves. apply add_revision_steps_spec. assumption.
Qed.

Lemma finalize_evolves wf n : evolves wf (out_wf (finalize wf n)).
Proof.
  unfold finalize.
  destruct (last _) as [s|].
  - constructor; cbn; auto; reflexivity.
  - set (output_step := new_step _ OUTPUT _).
    set (wf1 := set_steps (steps wf ++ [output_step]) wf).
    assert (H1 : evolves wf wf1).
    { apply (append_evolves wf [output_step] (state wf)). reflexivity. }
    assert (Hi : steps wf1 !! length (steps wf) = Some output_step).
    { cbn. apply list_lookup_middle. reflexivity. }
    pose proof (execute_step_advances wf1 _ n _ Hi eq_refl) as Ha.
    destruct (_execute_step wf1 _ n) as [wf2 n2|e wf2 n2]; cbn [out_wf] in *;
      (eapply evolves_trans; [exact H1|]);
      apply advances_evolves in Ha; destruct Ha; constructor; auto.
Qed.

(** When the tail of [run_workflow] goes through, the workflow is completed
    and has a final output. *)
Lemma finalize_state wf n wf' n' :
  finalize wf n = Finished wf' n' ->
  state wf' = COMPLETED /\ is_Some (final_output wf').
Proof.
  unfold finalize. destruct (last _) as [s|].
  - intros [= <- _]. cbn. eauto.
  - destruct (_execute_step _ _ n) as [wf2 n2|e wf2 n2]; [|discriminate].
    intros [= <- _]. cbn. eauto.
Qed.

Lemma finalize_count wf n : iteration_count (out_wf (finalize wf n)) = iteration_count wf.
Proof.
  unfold finalize. destruct (last _); [reflexivity|].
  match goal with |- context [_execute_step ?w ?i n] =>
    pose proof (execute_step_advances w i n _
                  (list_lookup_middle (steps wf) [] _ _ eq_refl) eq_refl) as Ha;
    destruct (_execute_step w i n) as [wf3 n3|e wf3 n3] end;
    cbn in *; apply (adv_count _ _ Ha).
Qed.

(** The loop test bounds the counter. *)
Lemma revision_loop_bound fuel : forall wf n,
  iteration_count wf <= max_iterations wf ->
  iteration_count (loop_final (revision_loop fuel wf n))
    <= max_iterations (loop_final (revision_loop fuel wf n)).
Proof.
  induction fuel as [|fuel IH]; intros wf n Hle; cbn [revision_loop].
  - destruct (iteration_count wf <? max_iterations wf); exact Hle.
  - destruct (Z.ltb_spec (iteration_count wf) (max_iterations wf)) as [Hlt|_]; [|exact Hle].
    pose proof (execute_pending_advances
                  (set_iteration_count (iteration_count wf + 1) wf) n) as Ha.
    destruct (execute_pending _ n) as [wf2 n2|e wf2 n2]; cbn [out_wf] in Ha;
      destruct Ha; cbn in adv_count0, adv_max0;
      assert (H2 : iteration_count wf2 <= max_iterations wf2) by lia;
      [|exact H2].
    destruct (_check_if_revision_needed wf2) as [[|]|e]; try exact H2.
    destruct (_add_revision_steps wf2) as [new|e]; try exact H2.
    apply IH. exact H2.
Qed.

(** [max_iterations - iteration_count] rounds are enough. *)
Lemma revision_loop_fuel fuel : forall wf n wf' n',
  (Z.to_nat (max_iterations wf - iteration_count wf) <= fuel)%nat ->
  revision_loop fuel wf n <> LoopFuel wf' n'.
Proof.
  induction fuel as [|fuel IH]; intros wf n wf' n' Hf; cbn [revision_loop].
  - destruct (Z.ltb_spec (iteration_count wf) (max_iterations wf)); [lia|discriminate].
  - destruct (Z.ltb_spec (iteration_count wf) (max_iterations wf)) as [Hlt|_]; [|discriminate].
    pose proof (execute_pending_advances
                  (set_iteration_count (iteration_count wf + 1) wf) n) as Ha.
    destruct (execute_pending _ n) as [wf2 n2|e wf2 n2]; [|discriminate].
    cbn [out_wf] in Ha. destruct Ha. cbn in adv_count0, adv_max0.
    destruct (_check_if_revision_needed wf2) as [[|]|e]; try discriminate.
    destruct (_add_revision_steps wf2) as [new|e]; try discriminate.
    apply IH. cbn. lia.
Qed.


(** More fuel continues the loop where less fuel left it. *)
Lemma revision_loop_more fuel k : forall wf n,
  revision_loop (fuel + k) wf n
  = match revision_loop fuel wf n with
    | LoopFuel wf' n' => revision_loop k wf' n'
    | r => r
    end.
Proof.
  induction fuel as [|fuel IH]; intros wf n.
  - cbn [Nat.add revision_loop].
    destruct (iteration_count wf <? max_iterations wf) eqn:Hlt; [reflexivity|].
    destruct k; cbn [revision_loop]; rewrite Hlt; reflexivity.
  - cbn [Nat.add revision_loop].
    destruct (iteration_count wf <? max_iterations wf); [|reflexivity].
    destruct (execute_pending _ n) as [wf2 n2|e wf2 n2]; [|reflexivity].
    destruct (_check_if_revision_needed wf2) as [[|]|e]; try reflexivity.
    destruct (_add_revision_steps wf2) as [new|e]; [apply IH|reflexivity].
Qed.

(** The workflow a run stopped with. *)
Lemma final_workflow_eq fuel wf n planned n1 :
  _plan_workflow (set_state IN_PROGRESS wf) n = (Ok planned, n1) ->
  final_workflow (run_workflow_fuel fuel wf n)
  = match revision_loop fuel (set_steps planned (set_state IN_PROGRESS wf)) n1 with
    | LoopBreak wf2 n2 | LoopCap wf2 n2 => out_wf (finalize wf2 n2)
    | LoopRaised _ wf2 _ | LoopFuel wf2 _ => wf2
    end.
Proof.
  intros Hplan. unfold run_workflow_fuel. rewrite Hplan.
  destruct (revision_loop fuel _ n1) as [wf2 n2|wf2 n2|e wf2 n2|wf2 n2];
    try reflexivity; destruct (finalize wf2 n2); reflexivity.
Qed.

Lemma run_workflow_evolves fuel wf n planned n1 :
  _plan_workflow (set_state IN_PROGRESS wf) n = (Ok planned, n1) ->
  evolves (set_steps planned (set_state IN_PROGRESS wf))
    (final_workflow (run_workflow_fuel fuel wf n)).
Proof.
  intros Hplan. rewrite (final_workflow_eq _ _ _ _ _ Hplan).
  pose proof (revision_loop_evolves fuel
                (set_steps planned (set_state IN_PROGRESS wf)) n1) as Hloop.
  destruct (revision_loop fuel _ n1) as [wf2 n2|wf2 n2|e wf2 n2|wf2 n2];
    cbn [loop_final] in Hloop; try exact Hloop;
    (eapply evolves_trans; [exact Hloop|apply finalize_evolves]).
Qed.

(** A run given more rounds goes through the stage the run given fewer
    rounds stopped at. *)
Lemma run_workflow_stages fuel k wf n planned n1 :
  _plan_workflow (set_state IN_PROGRESS wf) n = (Ok planned, n1) ->
  evolves (final_workflow (run_workflow_fuel fuel wf n))
    (final_workflow (run_workflow_fuel (fuel + k) wf n)).
Proof.
  intros Hplan. rewrite !(final_workflow_eq _ _ _ _ _ Hplan), revision_loop_more.
  destruct (revision_loop fuel _ n1) as [wf2 n2|wf2 n2|e wf2 n2|wf2 n2];
    try apply evolves_refl.
  pose proof (revision_loop_evolves k wf2 n2) as Hloop.
  destruct (revision_loop k wf2 n2) as [wf3 n3|wf3 n3|e wf3 n3|wf3 n3];
    cbn [loop_final] in Hloop; try exact Hloop;
    (eapply evolves_trans; [exact Hloop|apply finalize_evolves]).
Qed.

Lemma positions_increasing l i j a b :
  positions_ok l -> l !! i = Some a -> l !! j = Some b -> (i < j)%nat ->
  step_id a < step_id b.
Proof.
  unfold positions_ok. intros Hl Hi Hj Hlt.
  assert (Ha : map step_id l !! i = Some (step_id a)).
  { change (map step_id) with (fmap (M:=list) step_id).
    rewrite list_lookup_fmap, Hi. reflexivity. }
  assert (Hb : map step_id l !! j = Some (step_id b)).
  { change (map step_id) with (fmap (M:=list) step_id).
    rewrite list_lookup_fmap, Hj. reflexivity. }
  rewrite Hl in Ha, Hb.
  apply lookup_seqZ in Ha as [-> _]. apply lookup_seqZ in Hb as [-> _]. lia.
Qed.

(** Running a step changes no position, agent or instruction. *)
Lemma execute_step_keys wf i n :
  map step_key (steps (out_wf (_execute_step wf i n))) = map step_key (steps wf).
Proof.
  destruct (steps wf !! i) as [step0|] eqn:Hi.
  - rewrite (execute_step_eq _ _ _ _ Hi).
    change (map step_key) with (fmap (M:=list) step_key).
    destruct (assembly_raises _ _); cbn [out_wf begun ended steps set_steps];
      rewrite list_fmap_insert, ?record_result_key;
      apply list_insert_id; rewrite list_lookup_fmap, Hi; reflexivity.
  - rewrite (execute_step_none _ _ _ Hi). reflexivity.
Qed.

(** C6 (amended). Within one call of [run_workflow], from the planned list
    on: at every stage the run goes through (the list planning returns, the
    workflow after [fuel] rounds of the loop, the workflow the call ends
    with, the forced output step included) the positions are 1, 2, 3, ...
    in list order, hence strictly increasing and never reused; the steps of
    an earlier stage are an initial segment of the steps of every later
    stage, with their position, agent and instruction; and each operation
    on the list keeps this: running a step or a pass over the pending steps
    changes no position, agent or instruction, the steps
    [_add_revision_steps] returns continue the numbering of the list they
    are appended to, and the tail of the run appends at most the forced
    output step behind the steps that are there. *)
Theorem C6_positions_append_only fuel k wf n planned n1 :
  _plan_workflow (set_state IN_PROGRESS wf) n = (Ok planned, n1) ->
  positions_ok planned
  /\ positions_ok (steps (final_workflow (run_workflow_fuel fuel wf n)))
  /\ (forall i j a b,
        steps (final_workflow (run_workflow_fuel fuel wf n)) !! i = Some a ->
        steps (final_workflow (run_workflow_fuel fuel wf n)) !! j = Some b ->
        (i < j)%nat -> step_id a < step_id b)
  /\ map step_key planned
       `prefix_of` map step_key (steps (final_workflow (run_workflow_fuel fuel wf n)))
  /\ map step_key (steps (final_workflow (run_workflow_fuel fuel wf n)))
       `prefix_of`
       map step_key (steps (final_workflow (run_workflow_fuel (fuel + k) wf n)))
  /\ (forall w i m,
        map step_key (steps (out_wf (_execute_step w i m))) = map step_key (steps w))
  /\ (forall w m,
        map step_key (steps (out_wf (execute_pending w m))) = map step_key (steps w))
  /\ (forall w new, positions_ok (steps w) -> _add_revision_steps w = Ok new ->
        positions_ok (steps w ++ new))
  /\ (forall w m,
        (steps (out_wf (finalize w m)) = steps w
         \/ exists s, map step_key (steps (out_wf (finalize w m)))
                      = map step_key (steps w) ++ [step_key s])
        /\ (positions_ok (steps w) -> positions_ok (steps (out_wf (finalize w m))))).
Proof.
  intros Hplan.
  destruct (plan_workflow_spec _ _ _ _ Hplan) as (_ & Hpos & _).
  pose proof (run_workflow_evolves fuel wf n planned n1 Hplan) as Hev.
  assert (Hfin : positions_ok (steps (final_workflow (run_workflow_fuel fuel wf n)))).
  { apply (ev_positions _ _ Hev). exact Hpos. }
  split; [exact Hpos|]. split; [exact Hfin|].
  split; [intros i j a b; apply positions_increasing; exact Hfin|].
  split; [exact (ev_keys _ _ Hev)|].
  split; [exact (ev_keys _ _ (run_workflow_stages fuel k wf n planned n1 Hplan))|].
  split; [exact execute_step_keys|].
  split; [intros w m; exact (adv_keys _ _ (execute_pending_advances w m))|].
  split.
  { intros w new Hw Hadd. apply positions_ok_app; [assumption|].
    apply add_revision_steps_spec. assumption. }
  intros w m. split; [|exact (ev_positions _ _ (finalize_evolves w m))].
  unfold finalize. destruct (last _) as [s|]; [left; reflexivity|right].
  set (output_step := new_step _ OUTPUT _).
  exists output_step.
  pose proof (execute_step_keys (set_steps (steps w ++ [output_step]) w)
                (length (steps w)) m) as Hk.
  destruct (_execute_step _ _ m) as [wf2 n2|e wf2 n2]; cbn [out_wf] in *;
    cbn [steps set_state set_final_output set_steps] in *;
    rewrite Hk, map_app; reflexivity.
Qed.

Lemma run_workflow_bound fuel wf n :
  iteration_count wf <= max_iterations wf ->
  iteration_count wf <= iteration_count (final_workflow (run_workflow_fuel fuel wf n))
  /\ iteration_count (final_workflow (run_workflow_fuel fuel wf n)) <= max_iterations wf
  /\ max_iterations (final_workflow (run_workflow_fuel fuel wf n)) = max_iterations wf.
Proof.
  intros Hle. unfold run_workflow_fuel.
  destruct (_plan_workflow (set_state IN_PROGRESS wf) n) as [[planned|e] n1] eqn:Hplan;
    [|cbn; lia].
  set (wf1 := set_steps planned (set_state IN_PROGRESS wf)).
  pose proof (revision_loop_evolves fuel wf1 n1) as Hev.
  pose proof (revision_loop_bound fuel wf1 n1 Hle) as Hb.
  assert (Hfin : forall wf2 n2, evolves wf1 wf2 ->
            iteration_count wf2 <= max_iterations wf2 ->
            iteration_count wf <= iteration_count (out_wf (finalize wf2 n2))
            /\ iteration_count (out_wf (finalize wf2 n2)) <= max_iterations wf
            /\ max_iterations (out_wf (finalize wf2 n2)) = max_iterations wf).
  { intros wf2 n2 H2 Hb2. pose proof (finalize_evolves wf2 n2) as H3.
    pose proof (finalize_count wf2 n2) as Hc.
    destruct H2, H3. cbn in *. lia. }
  destruct (revision_loop fuel wf1 n1) as [wf2 n2|wf2 n2|e wf2 n2|wf2 n2];
    cbn [loop_final] in Hev, Hb.
  - specialize (Hfin wf2 n2 Hev Hb). destruct (finalize wf2 n2); exact Hfin.
  - specialize (Hfin wf2 n2 Hev Hb). destruct (finalize wf2 n2); exact Hfin.
  - destruct Hev. cbn in *. lia.
  - destruct Hev. cbn in *. lia.
Qed.


(** *** What a run adds to the log *)

Lemma ended_logged k wf i n step : logged k wf -> logged k (ended wf i step n).
Proof.
  intros [Hk _]. unfold logged. cbn. rewrite length_app. cbn. split; [lia|right; lia].
Qed.

Lemma execute_pending_logged k wf n wf' n' :
  logged k wf -> execute_pending wf n = Finished wf' n' -> logged k wf'.
Proof.
  apply (run_pending_finished (logged k)).
  intros w i m step _ _. apply ended_logged.
Qed.

Lemma append_logged k wf new st :
  Forall fresh new -> logged k wf ->
  logged k (set_state st (set_steps (steps wf ++ new) wf)).
Proof.
  intros Hnew [Hk [Hall|Hlt]]; split; cbn; auto.
  left. intros s Hs. apply elem_of_app in Hs as [Hs|Hs]; [auto|].
  rewrite Forall_forall in Hnew. apply Hnew. exact Hs.
Qed.

Lemma revision_loop_logged k fuel : forall wf n,
  logged k wf ->
  match revision_loop fuel wf n with
  | LoopRaised _ _ _ => True
  | LoopBreak wf' _ | LoopCap wf' _ | LoopFuel wf' _ => logged k wf'
  end.
Proof.
  induction fuel as [|fuel IH]; intros wf n Hl; cbn [revision_loop].
  - destruct (iteration_count wf <? max_iterations wf); exact Hl.
  - destruct (iteration_count wf <? max_iterations wf); [|exact Hl].
    pose proof (execute_pending_logged k
                  (set_iteration_count (iteration_count wf + 1) wf) n) as H2.
    destruct (execute_pending _ n) as [wf2 n2|e wf2 n2]; [|exact I].
    specialize (H2 wf2 n2 Hl eq_refl).
    destruct (_check_if_revision_needed wf2) as [[|]|e]; try exact H2; try exact I.
    destruct (_add_revision_steps wf2) as [new|e] eqn:Hadd; try exact I.
    apply IH. apply append_logged; [|exact H2].
    eapply add_revision_steps_spec. exact Hadd.
Qed.

Lemma finalize_logged k wf n wf' n' :
  logged k wf -> finalize wf n = Finished wf' n' ->
  (k < length (conversation_history wf'))%nat.
Proof.
  intros [Hk Hcase]. unfold finalize.
  destruct (last _) as [s|] eqn:Hlast.
  - intros [= <- _]. cbn. destruct Hcase as [Hall|Hlt]; [|exact Hlt].
    apply last_Some_elem_of in Hlast.
    apply list_elem_of_filter in Hlast as [Hc Hs].
    unfold is_completed_output in Hc. apply andb_true_iff in Hc as [_ Hc].
    rewrite (Hall s Hs) in Hc. discriminate Hc.
  - match goal with |- context [_execute_step ?w ?i n] =>
      rewrite (execute_step_eq w i n _
                 (list_lookup_middle (steps wf) [] _ _ eq_refl)) end.
    destruct (assembly_raises _ _); [discriminate|].
    intros [= <- _]. cbn. rewrite length_app. cbn. lia.
Qed.

Lemma run_workflow_appends fuel wf n wf' n' :
  run_workflow_fuel fuel wf n = Returned wf' n' ->
  conversation_history wf `prefix_of` conversation_history wf'
  /\ (length (conversation_history wf) < length (conversation_history wf'))%nat.
Proof.
  intros Hrun.
  unfold run_workflow_fuel in Hrun.
  destruct (_plan_workflow (set_state IN_PROGRESS wf) n) as [[planned|e] n1] eqn:Hplan;
    [|discriminate].
  destruct (plan_workflow_spec _ _ _ _ Hplan) as (_ & _ & Hfresh).
  set (wf1 := set_steps planned (set_state IN_PROGRESS wf)) in *.
  assert (Hl : logged (length (conversation_history wf)) wf1).
  { split; [reflexivity|]. left. intros s Hs.
    rewrite Forall_forall in Hfresh. apply Hfresh. exact Hs. }
  pose proof (revision_loop_logged _ fuel wf1 n1 Hl) as Hl2.
  pose proof (revision_loop_evolves fuel wf1 n1) as Hev.
  assert (Hfin : forall wf2 n2, logged (length (conversation_history wf)) wf2 ->
            evolves wf1 wf2 -> finalize wf2 n2 = Finished wf' n' ->
            conversation_history wf `prefix_of` conversation_history wf'
            /\ (length (conversation_history wf) < length (conversation_history wf'))%nat).
  { intros wf2 n2 H2 He2 Hf.
    pose proof (finalize_logged _ wf2 n2 _ _ H2 Hf) as Hlt.
    pose proof (finalize_evolves wf2 n2) as He3.
    rewrite Hf in He3. cbn [out_wf] in He3. split; [|exact Hlt].
    change (conversation_history wf) with (conversation_history wf1).
    etransitivity; [exact (ev_log _ _ He2)|exact (ev_log _ _ He3)]. }
  destruct (revision_loop fuel wf1 n1) as [wf2 n2|wf2 n2|e wf2 n2|wf2 n2];
    cbn [loop_final] in *; try discriminate.
  - destruct (finalize wf2 n2) as [wf3 n3|e wf3 n3] eqn:Hf; [|discriminate].
    injection Hrun as <- <-. eauto.
  - destruct (finalize wf2 n2) as [wf3 n3|e wf3 n3] eqn:Hf; [|discriminate].
    injection Hrun as <- <-. eauto.
Qed.

(** C4 (amended). A step that is no longer pending is never executed again:
    a pass over the pending steps leaves it as it is, whether the pass goes
    through or is cut short by an exception; a pass over a workflow without
    pending steps changes nothing and calls no backend; a second pass right
    after a pass that went through does nothing; and the revision loop
    leaves such a step alone over any number of rounds.  [run_workflow]
    itself plans unconditionally: whatever steps the workflow had, the
    steps after the call start with the freshly planned ones, and every
    call that returns has appended at least one entry to the conversation
    log it was given. *)
Theorem C4_settled_steps_never_rerun wf n :
  (forall j s, steps wf !! j = Some s -> String.eqb (status s) "pending" = false ->
     steps (out_wf (execute_pending wf n)) !! j = Some s)
  /\ ((forall s, s ∈ steps wf -> String.eqb (status s) "pending" = false) ->
      execute_pending wf n = Finished wf n)
  /\ (forall wf' n', execute_pending wf n = Finished wf' n' ->
        execute_pending wf' n' = Finished wf' n')
  /\ (forall fuel j s, steps wf !! j = Some s -> String.eqb (status s) "pending" = false ->
        steps (loop_final (revision_loop fuel wf n)) !! j = Some s)
  /\ (forall planned n1,
        _plan_workflow (set_state IN_PROGRESS wf) n = (Ok planned, n1) ->
        Forall fresh planned
        /\ map step_key planned
             `prefix_of` map step_key (steps (final_workflow (run_workflow wf n))))
  /\ (forall wf' n', run_workflow wf n = Returned wf' n' ->
        conversation_history wf `prefix_of` conversation_history wf'
        /\ (length (conversation_history wf) < length (conversation_history wf'))%nat).
Proof.
  repeat split.
  - apply (adv_settled _ _ (execute_pending_advances wf n)).
  - intros Hs. apply run_pending_settled. exact Hs.
  - intros wf' n' Hrun. apply run_pending_settled.
    intros s. apply (execute_pending_settles wf n wf' n' s Hrun).
  - intros fuel. apply (ev_settled _ _ (revision_loop_evolves fuel wf n)).
  - eapply plan_workflow_spec. eassumption.
  - apply (ev_keys _ _ (run_workflow_evolves _ wf n planned n1 H)).
  - eapply run_workflow_appends. eassumption.
  - eapply run_workflow_appends. eassumption.
Qed.

(** *** The context handed to a step *)

Lemma role_value_inj a b : role_value a = role_value b -> a = b.
Proof. destruct a, b; cbn; intros H; try reflexivity; discriminate H. Qed.

Lemma add_output_lookup id ctx s r :
  add_output id ctx s !! role_value r =
    if contributes id r s then CtxOutput <$> output_data s else ctx !! role_value r.
Proof.
  unfold add_output, contributes.
  destruct (output_data s) as [out|]; [|rewrite andb_false_r; reflexivity].
  destruct (step_id s <? id); [|reflexivity]. cbn.
  destruct (bool_decide_reflect (agent s = r)) as [->|Hne]; cbn.
  - apply lookup_insert_eq.
  - apply lookup_insert_ne. intros H. apply Hne, role_value_inj, H.
Qed.

Lemma add_output_other id ctx s key :
  (forall r, key <> role_value r) -> add_output id ctx s !! key = ctx !! key.
Proof.
  intros Hk. unfold add_output.
  destruct (output_data s); [|reflexivity].
  destruct (step_id s <? id); [|reflexivity].
  apply lookup_insert_ne. apply not_eq_sym, Hk.
Qed.

Lemma gathered_lookup id r l : forall ctx,
  foldl (add_output id) ctx l !! role_value r =
    match last (filter (fun s => contributes id r s = true) l) with
    | Some s => CtxOutput <$> output_data s
    | None => ctx !! role_value r
    end.
Proof.
  induction l as [|s rest IH]; intros ctx; [reflexivity|].
  cbn [foldl]. rewrite IH, filter_cons.
  destruct (decide (contributes id r s = true)) as [Hc|Hc].
  - destruct (filter _ rest) as [|s' l'] eqn:Hf.
    + cbn. rewrite add_output_lookup, Hc. reflexivity.
    + change (last (s :: s' :: l')) with (last (s' :: l')).
      destruct (last (s' :: l')) eqn:Hl; [reflexivity|].
      apply last_None in Hl. discriminate Hl.
  - destruct (last (filter _ rest)); [reflexivity|].
    rewrite add_output_lookup. destruct (contributes id r s); congruence.
Qed.

Lemma gathered_other id key l : forall ctx,
  (forall r, key <> role_value r) -> foldl (add_output id) ctx l !! key = ctx !! key.
Proof.
  induction l as [|s rest IH]; intros ctx Hk; [reflexivity|].
  cbn [foldl]. rewrite IH by assumption. apply add_output_other. assumption.
Qed.

Lemma user_request_not_role r : "user_request" <> role_value r.
Proof. destruct r; discriminate. Qed.

Lemma gather_context_role wf step r :
  gather_context wf step !! role_value r =
    match last (filter (fun s => contributes (step_id step) r s = true) (steps wf)) with
    | Some s => CtxOutput <$> output_data s
    | None => None
    end.
Proof.
  unfold gather_context.
  rewrite lookup_insert_ne by apply user_request_not_role.
  rewrite gathered_lookup. destruct (last _); [reflexivity|apply lookup_empty].
Qed.

Lemma gather_context_keys wf step key v :
  gather_context wf step !! key = Some v ->
  key = "user_request" \/ exists r, key = role_value r.
Proof.
  intros H. destruct (decide (key = "user_request")) as [|Hne]; [left; assumption|].
  right. unfold gather_context in H. rewrite lookup_insert_ne in H by congruence.
  destruct (decide (key = role_value ORCHESTRATOR)); [eauto|].
  destruct (decide (key = role_value TRIAGE)); [eauto|].
  destruct (decide (key = role_value RESEARCH)); [eauto|].
  destruct (decide (key = role_value COMPLIANCE)); [eauto|].
  destruct (decide (key = role_value REVIEW)); [eauto|].
  destruct (decide (key = role_value OUTPUT)); [eauto|].
  rewrite gathered_other in H; [rewrite lookup_empty in H; discriminate H|].
  intros []; assumption.
Qed.

Lemma contributes_spec id r s :
  contributes id r s = true <->
  step_id s < id /\ agent s = r /\ is_Some (output_data s).
Proof.
  unfold contributes. rewrite !andb_true_iff, Z.ltb_lt, bool_decide_eq_true.
  destruct (output_data s) as [out|]; split.
  - intros [[? ?] _]. eauto.
  - intros (? & ? & _). auto.
  - intros [_ H]. discriminate H.
  - intros (_ & _ & [x Hx]). discriminate Hx.
Qed.

(** What the gathered context holds, for a workflow whose steps carry output
    exactly when completed. *)
Lemma gather_context_spec wf step :
  outputs_match_status (steps wf) ->
  gather_context wf step !! "user_request" = Some (CtxRequest (user_request wf))
  /\ (forall key out, gather_context wf step !! key = Some (CtxOutput out) ->
        exists s, s ∈ steps wf /\ step_id s < step_id step /\ status s = "completed"
                  /\ output_data s = Some out /\ key = role_value (agent s))
  /\ (forall s, s ∈ steps wf -> step_id s < step_id step -> status s = "completed" ->
        exists s' out',
          last (filter (fun x => contributes (step_id step) (agent s) x = true) (steps wf))
            = Some s'
          /\ status s' = "completed" /\ output_data s' = Some out'
          /\ gather_context wf step !! role_value (agent s) = Some (CtxOutput out')).
Proof.
  intros Hcons. split; [|split].
  - unfold gather_context. apply lookup_insert_eq.
  - intros key out Hk.
    destruct (gather_context_keys _ _ _ _ Hk) as [->|[r ->]].
    + unfold gather_context in Hk. rewrite lookup_insert_eq in Hk. discriminate Hk.
    + rewrite gather_context_role in Hk.
      destruct (last _) as [s|] eqn:Hlast; [|discriminate Hk].
      apply last_Some_elem_of in Hlast.
      apply list_elem_of_filter in Hlast as [Hc Hs].
      apply contributes_spec in Hc as (Hlt & Hr & Hsome).
      exists s. destruct (output_data s) as [out0|] eqn:Hout; [|discriminate Hk].
      injection Hk as ->. repeat split; auto.
      * apply (Hcons s Hs). rewrite Hout. eauto.
      * congruence.
  - intros s Hs Hlt Hst.
    assert (Hc : contributes (step_id step) (agent s) s = true).
    { apply contributes_spec. repeat split; auto. apply (Hcons s Hs). exact Hst. }
    destruct (last (filter (fun x => contributes (step_id step) (agent s) x = true)
                      (steps wf))) as [s'|] eqn:Hlast.
    + pose proof (last_Some_elem_of _ _ Hlast) as Hin.
      apply list_elem_of_filter in Hin as [Hc' Hs'].
      apply contributes_spec in Hc' as (Hlt' & Hr' & [out' Hout']).
      exists s', out'. repeat split; auto.
      * apply (Hcons s' Hs'). rewrite Hout'. eauto.
      * rewrite gather_context_role, Hlast, Hout'. reflexivity.
    + apply last_None in Hlast.
      assert (Hin : s ∈ filter (fun x => contributes (step_id step) (agent s) x = true)
                         (steps wf)).
      { apply list_elem_of_filter. split; assumption. }
      rewrite Hlast in Hin. inversion Hin.
Qed.

(** Every output in the gathered context is the output of a step. *)
Lemma gathered_outputs id l : forall ctx key out,
  foldl (add_output id) ctx l !! key = Some (CtxOutput out) ->
  ctx !! key = Some (CtxOutput out) \/ exists s, s ∈ l /\ output_data s = Some out.
Proof.
  induction l as [|s rest IH]; intros ctx key out H; [left; exact H|].
  cbn [foldl] in H. destruct (IH _ _ _ H) as [Hc|(s' & Hs' & Hout)].
  - unfold add_output in Hc. destruct (output_data s) as [o|] eqn:Ho; [|left; exact Hc].
    destruct (step_id s <? id); [|left; exact Hc].
    destruct (decide (role_value (agent s) = key)) as [<-|Hne].
    + rewrite lookup_insert_eq in Hc. injection Hc as <-.
      right. exists s. split; [apply list_elem_of_here|exact Ho].
    + rewrite lookup_insert_ne in Hc by exact Hne. left. exact Hc.
  - right. exists s'. split; [apply list_elem_of_further; exact Hs'|exact Hout].
Qed.

Lemma gather_context_outputs wf step key out :
  gather_context wf step !! key = Some (CtxOutput out) ->
  exists s, s ∈ steps wf /\ output_data s = Some out.
Proof.
  unfold gather_context. intros H.
  destruct (decide ("user_request" = key)) as [<-|Hne].
  - rewrite lookup_insert_eq in H. discriminate H.
  - rewrite lookup_insert_ne in H by exact Hne.
    destruct (gathered_outputs _ _ _ _ _ H) as [Hc|Hs]; [|exact Hs].
    rewrite lookup_empty in Hc. discriminate Hc.
Qed.


(** *** Replies that can be rendered *)

Lemma begun_outputs wf i step0 s out :
  steps wf !! i = Some step0 ->
  s ∈ steps (begun wf i step0) -> output_data s = Some out ->
  exists s', s' ∈ steps wf /\ output_data s' = Some out.
Proof.
  intros Hi Hs Hout. cbn in Hs. apply list_elem_of_lookup in Hs as [j Hj].
  apply list_lookup_insert_Some in Hj as [(-> & <- & _)|[Hne Hj]].
  - exists step0. split; [apply list_elem_of_lookup; eauto|exact Hout].
  - exists s. split; [apply list_elem_of_lookup; eauto|exact Hout].
Qed.

Lemma ended_outputs wf i step0 n s out :
  steps wf !! i = Some step0 ->
  s ∈ steps (ended wf i step0 n) -> output_data s = Some out ->
  (out = step_result wf i step0 n /\ res_success out = true)
  \/ exists s', s' ∈ steps wf /\ output_data s' = Some out.
Proof.
  intros Hi Hs Hout. cbn in Hs. apply list_elem_of_lookup in Hs as [j Hj].
  apply list_lookup_insert_Some in Hj as [(-> & <- & _)|[Hne Hj]].
  - unfold record_result in Hout.
    destruct (res_success (step_result wf j step0 n)) eqn:Hsucc; cbn in Hout.
    + injection Hout as <-. left. split; [reflexivity|exact Hsucc].
    + right. exists step0. split; [apply list_elem_of_lookup; eauto|exact Hout].
  - right. exists s. split; [apply list_elem_of_lookup; eauto|exact Hout].
Qed.

Lemma complete_renders agent_role rq n :
  replies_render -> renders (res_parsed (complete agent_role rq n)) = true.
Proof.
  intros [Hr _]. unfold complete.
  destruct (client n rq) as [text| |msg] eqn:Hc; try reflexivity.
  destruct (json_loads text) as [v| |msg] eqn:Hv; try reflexivity.
  cbn. eapply Hr; eauto.
Qed.

Lemma begun_renders wf i step0 :
  steps wf !! i = Some step0 -> outputs_render wf -> outputs_render (begun wf i step0).
Proof.
  intros Hi Hr s out Hs Hout.
  destruct (begun_outputs _ _ _ _ _ Hi Hs Hout) as (s' & Hs' & Hout').
  exact (Hr s' out Hs' Hout').
Qed.

Lemma ended_renders wf i step0 n :
  replies_render ->
  steps wf !! i = Some step0 -> outputs_render wf -> outputs_render (ended wf i step0 n).
Proof.
  intros Hrep Hi Hr s out Hs Hout.
  destruct (ended_outputs _ _ _ _ _ _ Hi Hs Hout) as [[-> _]|(s' & Hs' & Hout')].
  - apply complete_renders. exact Hrep.
  - exact (Hr s' out Hs' Hout').
Qed.

(** The context of a step is made of the outputs stored on the steps: when
    these can be rendered, so can the context. *)
Lemma context_of_step_renders wf i step0 :
  steps wf !! i = Some step0 -> outputs_render wf ->
  context_renders
    (gather_context (begun wf i step0) (mark_in_progress step0)) = true.
Proof.
  intros Hi Hr. unfold context_renders. apply forallb_forall.
  intros [key v] Hin. cbn [snd].
  destruct v as [out|text]; [|reflexivity]. cbn [value_renders].
  apply list_elem_of_In, elem_of_map_to_list in Hin.
  destruct (gather_context_outputs _ _ _ _ Hin) as (s & Hs & Hout).
  exact (begun_renders _ _ _ Hi Hr s out Hs Hout).
Qed.

(** Assembling the messages of a step raises only through the results of
    the knowledge base, when the outputs stored on the steps can be
    rendered. *)
Lemma step_assembles wf i step0 n :
  steps wf !! i = Some step0 -> outputs_render wf ->
  assembly_raises n (step_request wf i step0)
  = match rq_knowledge_query (step_request wf i step0) with
    | Some q => knowledge_raises n q
    | None => None
    end.
Proof.
  intros Hi Hr. unfold assembly_raises.
  replace (match rq_context (step_request wf i step0) with
           | Some c => context_renders c | None => true end) with true; [reflexivity|].
  unfold step_request, context_part. cbn [rq_context].
  destruct (map_to_list _); [reflexivity|].
  symmetry. apply (context_of_step_renders wf i step0 Hi Hr).
Qed.

Lemma step_assembles_quietly wf i step0 n :
  replies_render -> steps wf !! i = Some step0 -> outputs_render wf ->
  assembly_raises n (step_request wf i step0) = None.
Proof.
  intros [_ Hk] Hi Hr. rewrite (step_assembles _ _ _ _ Hi Hr).
  destruct (rq_knowledge_query _); [apply Hk|reflexivity].
Qed.


(** *** Runs against a backend with well shaped replies *)

Lemma complete_well_shaped agent_role rq n :
  replies_well_shaped ->
  well_shaped (res_parsed_or_empty (complete agent_role rq n)) = true.
Proof.
  intros Hw. unfold complete.
  destruct (client n rq) as [text| |msg] eqn:Hc; try reflexivity.
  destruct (json_loads text) as [v| |msg] eqn:Hv; try reflexivity.
  cbn. eapply Hw; eauto.
Qed.

Lemma item_ok_agent item : item_ok item = true -> exists name, agent_name_of item = Ok name.
Proof.
  unfold item_ok, agent_name_of, py_get. destruct item as [| | | | | |fields]; try discriminate.
  destruct (dict_get "agent" fields) as [[]|]; try discriminate; cbn; eauto.
Qed.

Lemma item_ok_get item key default :
  item_ok item = true -> exists v, py_get item key default = Ok v.
Proof.
  unfold item_ok, py_get. destruct item as [| | | | | |fields]; try discriminate.
  destruct (dict_get key fields); eauto.
Qed.

Lemma plan_steps_ok infos :
  forallb item_ok infos = true -> forall id, exists ss, plan_steps id infos = Ok ss.
Proof.
  induction infos as [|info rest IH]; intros H id; cbn [plan_steps];
    [exists []; reflexivity|].
  cbn [forallb] in H. apply andb_true_iff in H as [Hi Hr].
  destruct (item_ok_agent _ Hi) as [name Hn].
  destruct (item_ok_get info "instruction" (JStr "") Hi) as [v Hv].
  destruct (IH Hr (id + 1)) as [ss Hss].
  unfold plan_step. rewrite Hn, Hv. cbn. rewrite Hss. cbn. eauto.
Qed.

Lemma work_steps_ok items :
  forallb item_ok items = true -> forall id, exists ss, work_steps id items = Ok ss.
Proof.
  induction items as [|item rest IH]; intros H id; cbn [work_steps];
    [exists []; reflexivity|].
  cbn [forallb] in H. apply andb_true_iff in H as [Hi Hr].
  destruct (item_ok_agent _ Hi) as [name Hn].
  destruct (item_ok_get item "task" (JStr "") Hi) as [v Hv].
  destruct (IH Hr (id + 1)) as [ss Hss].
  unfold work_step. rewrite Hn, Hv. cbn. rewrite Hss. cbn. eauto.
Qed.

(** A truthy, well shaped value is a dictionary with well shaped lists. *)
Lemma well_shaped_truthy v :
  well_shaped v = true -> truthy v = true ->
  exists fields, v = JObj fields
    /\ items_ok (dict_get "workflow_steps" fields) = true
    /\ items_ok (dict_get "additional_work_needed" fields) = true.
Proof.
  intros Hw Ht. destruct v as [| | | | | |fields];
    try (unfold well_shaped in Hw; rewrite Ht in Hw; discriminate Hw).
  unfold well_shaped in Hw. apply andb_true_iff in Hw as [H1 H2]. eauto.
Qed.

Lemma items_ok_iter fields key :
  items_ok (dict_get key fields) = true ->
  exists items, (v <- py_get (JObj fields) key (JArr []) ;; py_iter v) = Ok items
    /\ forallb item_ok items = true.
Proof.
  unfold items_ok, py_get. destruct (dict_get key fields) as [[]|]; try discriminate.
  - intros H. cbn. eauto.
  - intros _. cbn. eauto.
Qed.

Lemma steps_of_plan_ok request result :
  well_shaped (res_parsed_or_empty result) = true ->
  exists ss, steps_of_plan request result = Ok ss.
Proof.
  intros Hw. unfold steps_of_plan.
  destruct result as [a raw parsed|a msg]; cbn [res_success res_parsed andb]; [|eauto].
  destruct (truthy parsed) eqn:Ht; [|eauto].
  cbn [res_parsed_or_empty] in Hw.
  destruct (well_shaped_truthy _ Hw Ht) as (fields & -> & H1 & _).
  destruct (items_ok_iter _ _ H1) as (items & Hit & Hok).
  destruct (plan_steps_ok _ Hok 1) as [ss Hss].
  exists ss. unfold bind in *.
  destruct (py_get (JObj fields) "workflow_steps" (JArr [])); [|discriminate Hit].
  rewrite Hit. exact Hss.
Qed.

Lemma review_verdict_shape wf s parsed :
  outputs_well_shaped wf -> s ∈ steps wf -> review_verdict s = Some parsed ->
  exists fields, parsed = JObj fields
    /\ items_ok (dict_get "additional_work_needed" fields) = true.
Proof.
  intros Hw Hs Hv. unfold review_verdict in Hv.
  destruct (output_data s) as [out|] eqn:Hout; [|discriminate Hv].
  destruct (bool_decide (agent s = REVIEW)); [|discriminate Hv]. cbn in Hv.
  destruct (truthy (res_parsed_or_empty out)) eqn:Ht; [|discriminate Hv].
  injection Hv as <-.
  destruct (well_shaped_truthy _ (Hw s out Hs Hout) Ht) as (fields & Hf & _ & H2).
  eauto.
Qed.

Lemma check_steps_ok wf l :
  outputs_well_shaped wf -> (forall s, s ∈ l -> s ∈ steps wf) ->
  exists b, check_steps l = Ok b.
Proof.
  intros Hw. induction l as [|s rest IH]; intros Hin; cbn; [eauto|].
  destruct (review_verdict s) as [parsed|] eqn:Hv.
  - destruct (review_verdict_shape wf s parsed Hw (Hin s (list_elem_of_here _ _)) Hv)
      as (fields & -> & _).
    unfold wants_revision, py_get.
    destruct (dict_get "additional_work_needed" fields);
      destruct (dict_get "ready_for_output" fields); cbn; eauto.
  - apply IH. intros x Hx. apply Hin. apply list_elem_of_further. exact Hx.
Qed.

Lemma revision_items_ok wf l :
  outputs_well_shaped wf -> (forall s, s ∈ l -> s ∈ steps wf) ->
  forall next, exists new, revision_items next l = Ok new.
Proof.
  intros Hw. induction l as [|s rest IH]; intros Hin next; cbn; [eauto|].
  assert (Hrest : forall x, x ∈ rest -> x ∈ steps wf).
  { intros x Hx. apply Hin. apply list_elem_of_further. exact Hx. }
  destruct (review_verdict s) as [parsed|] eqn:Hv; [|apply IH; exact Hrest].
  destruct (review_verdict_shape wf s parsed Hw (Hin s (list_elem_of_here _ _)) Hv)
    as (fields & -> & Hok).
  destruct (items_ok_iter _ _ Hok) as (items & Hit & Hitems).
  destruct (work_steps_ok _ Hitems next) as [new Hnew].
  destruct (IH Hrest (next + Z.of_nat (length new))) as [more Hmore].
  exists (new ++ more). unfold bind in *.
  destruct (py_get (JObj fields) "additional_work_needed" (JArr [])); [|discriminate Hit].
  rewrite Hit, Hnew, Hmore. reflexivity.
Qed.

Lemma add_revision_steps_ok wf :
  outputs_well_shaped wf -> exists new, _add_revision_steps wf = Ok new.
Proof.
  intros Hw. unfold _add_revision_steps.
  destruct (revision_items_ok wf (steps wf) Hw (fun s H => H)
              (Z.of_nat (length (steps wf)) + 1)) as [new Hnew].
  rewrite Hnew. cbn. destruct new; eauto.
Qed.


Lemma ended_sound old wf i n step :
  replies_well_shaped ->
  steps wf !! i = Some step -> String.eqb (status step) "pending" = true ->
  sound old wf -> sound old (ended wf i step n).
Proof.
  intros Hrep Hi Hp [Hshape (new & Hlog & Hfail)].
  set (result := step_result wf i step n).
  assert (Hres : well_shaped (res_parsed_or_empty result) = true).
  { apply complete_well_shaped. exact Hrep. }
  split.
  - intros s out Hs Hout.
    destruct (ended_outputs _ _ _ _ _ _ Hi Hs Hout) as [[-> _]|(s' & Hs' & Hout')].
    + exact Hres.
    + exact (Hshape s' out Hs' Hout').
  - exists (new ++ [mkEntry (step_id step) (role_value (agent step)) (instruction step) result]).
    cbn. split; [rewrite Hlog, app_assoc; reflexivity|].
    intros e He Hf. apply elem_of_app in He as [He|He].
    + destruct (Hfail e He Hf) as (s & Hs & Hid & Hst & Herr).
      exists s. repeat split; auto.
      apply list_elem_of_lookup in Hs as [j Hj].
      apply list_elem_of_lookup. exists j.
      rewrite list_lookup_insert_ne; [exact Hj|].
      intros ->. rewrite Hi in Hj. injection Hj as ->.
      rewrite Hst in Hp. discriminate Hp.
    + apply list_elem_of_singleton in He. subst e.
      change (res_success result = false) in Hf.
      exists (record_result result (mark_in_progress step)). split.
      { apply list_elem_of_lookup. exists i. apply list_lookup_insert_eq.
        apply lookup_lt_is_Some. eauto. }
      unfold record_result. rewrite Hf. cbn. repeat split.
Qed.

(** A pass all of whose steps assemble their messages goes through. *)
Lemma run_pending_goes_through (P : Workflow -> Prop) :
  (forall wf i n step, steps wf !! i = Some step ->
     String.eqb (status step) "pending" = true -> P wf ->
     assembly_raises n (step_request wf i step) = None /\ P (ended wf i step n)) ->
  forall idxs wf n, P wf ->
    exists wf' n', run_pending idxs wf n = Finished wf' n' /\ P wf'.
Proof.
  intros Hstep idxs. induction idxs as [|i rest IH]; intros wf n HP; cbn; [eauto|].
  destruct (steps wf !! i) as [step|] eqn:Hi; [|apply IH; exact HP].
  destruct (String.eqb (status step) "pending") eqn:Hp; [|apply IH; exact HP].
  destruct (Hstep wf i n step Hi Hp HP) as [Hquiet HP'].
  rewrite (execute_step_eq _ _ _ _ Hi), Hquiet. apply IH. exact HP'.
Qed.

Lemma execute_pending_sound old wf n :
  replies_well_shaped -> replies_render ->
  sound old wf /\ outputs_render wf ->
  exists wf' n', execute_pending wf n = Finished wf' n'
    /\ sound old wf' /\ outputs_render wf'.
Proof.
  intros Hrep Hren.
  apply (run_pending_goes_through (fun w => sound old w /\ outputs_render w)).
  intros w i m step Hi Hp [Hs Hr]. split; [|split].
  - apply step_assembles_quietly; assumption.
  - apply ended_sound; assumption.
  - apply ended_renders; assumption.
Qed.

Lemma append_sound old wf new st :
  Forall fresh new -> sound old wf ->
  sound old (set_state st (set_steps (steps wf ++ new) wf)).
Proof.
  intros Hnew [Hshape (log & Hlog & Hfail)]. split.
  - intros s out Hs Hout. cbn in Hs. apply elem_of_app in Hs as [Hs|Hs].
    + eapply Hshape; eauto.
    + rewrite Forall_forall in Hnew. destruct (Hnew s Hs) as (_ & Hnone & _).
      congruence.
  - exists log. split; [exact Hlog|].
    intros e He Hf. destruct (Hfail e He Hf) as (s & Hs & Hrest).
    exists s. split; [|exact Hrest]. cbn. apply elem_of_app. left. exact Hs.
Qed.

Lemma append_renders wf new st :
  Forall fresh new -> outputs_render wf ->
  outputs_render (set_state st (set_steps (steps wf ++ new) wf)).
Proof.
  intros Hnew Hr s out Hs Hout. cbn in Hs. apply elem_of_app in Hs as [Hs|Hs].
  - eapply Hr; eauto.
  - rewrite Forall_forall in Hnew. destruct (Hnew s Hs) as (_ & Hnone & _). congruence.
Qed.

(** With well shaped replies that can be rendered the loop never raises. *)
Lemma revision_loop_sound old fuel : forall wf n,
  replies_well_shaped -> replies_render ->
  sound old wf /\ outputs_render wf ->
  (sound old (loop_final (revision_loop fuel wf n))
   /\ outputs_render (loop_final (revision_loop fuel wf n)))
  /\ forall e wf' n', revision_loop fuel wf n <> LoopRaised e wf' n'.
Proof.
  induction fuel as [|fuel IH]; intros wf n Hrep Hren Hs; cbn [revision_loop].
  - destruct (iteration_count wf <? max_iterations wf); split; auto; discriminate.
  - destruct (iteration_count wf <? max_iterations wf); [|split; auto; discriminate].
    destruct (execute_pending_sound old
                (set_iteration_count (iteration_count wf + 1) wf) n Hrep Hren Hs)
      as (wf2 & n2 & -> & H2 & H2r).
    destruct (check_steps_ok wf2 (steps wf2) (proj1 H2) (fun s H => H)) as [b Hb].
    unfold _check_if_revision_needed. rewrite Hb.
    destruct b; [|split; auto; discriminate].
    destruct (add_revision_steps_ok wf2 (proj1 H2)) as [new Hnew]. rewrite Hnew.
    apply IH; [exact Hrep|exact Hren|].
    pose proof (proj2 (add_revision_steps_spec _ _ Hnew)) as Hfresh.
    split; [apply append_sound|apply append_renders]; assumption.
Qed.

(** The tail of a run, spelled out. *)
Lemma finalize_eq wf n :
  finalize wf n
  = match last (filter (fun s => is_completed_output s = true) (steps wf)) with
    | Some s =>
        Finished (set_state COMPLETED (set_final_output (Some (raw_response_of s)) wf)) n
    | None =>
        match assembly_raises n
                (step_request (with_forced_output wf) (length (steps wf))
                   (forced_output_step wf)) with
        | Some e =>
            Aborted e (begun (with_forced_output wf) (length (steps wf))
                         (forced_output_step wf)) n
        | None =>
            let wf2 := ended (with_forced_output wf) (length (steps wf))
                         (forced_output_step wf) n in
            Finished
              (set_state COMPLETED
                 (set_final_output
                    (Some match steps wf2 !! length (steps wf) with
                          | Some s => raw_response_of s
                          | None => ""
                          end) wf2)) (S n)
        end
    end.
Proof.
  unfold finalize. destruct (last _); [reflexivity|].
  fold (forced_output_step wf). fold (with_forced_output wf).
  rewrite (execute_step_eq (with_forced_output wf) (length (steps wf)) n
             (forced_output_step wf)
             (list_lookup_middle (steps wf) [] _ _ eq_refl)).
  destruct (assembly_raises _ _); reflexivity.
Qed.

Lemma forced_output_lookup wf :
  steps (with_forced_output wf) !! length (steps wf) = Some (forced_output_step wf).
Proof. cbn. apply list_lookup_middle. reflexivity. Qed.

Lemma forced_output_renders wf : outputs_render wf -> outputs_render (with_forced_output wf).
Proof.
  intros Hr. apply (append_renders wf [forced_output_step wf] (state wf)); [|exact Hr].
  repeat constructor.
Qed.

(** When the outputs stored on the steps can be rendered, the tail of the
    run goes through. *)
Lemma finalize_goes_through wf n :
  outputs_render wf -> exists wf' n', finalize wf n = Finished wf' n'.
Proof.
  intros Hr. rewrite finalize_eq. destruct (last _); [eauto|].
  rewrite (step_assembles _ _ _ n (forced_output_lookup wf) (forced_output_renders wf Hr)).
  cbn. eauto.
Qed.

Lemma finalize_sound old wf n :
  replies_well_shaped -> sound old wf -> sound old (out_wf (finalize wf n)).
Proof.
  intros Hrep Hs. rewrite finalize_eq. destruct (last _) as [s|]; [exact Hs|].
  pose proof (append_sound old wf [forced_output_step wf] (state wf)
                ltac:(repeat constructor) Hs) as H1.
  change (set_state (state wf) (set_steps (steps wf ++ [forced_output_step wf]) wf))
    with (with_forced_output wf) in H1.
  destruct (assembly_raises _ _) as [exc|]; cbn [out_wf].
  - destruct H1 as [Hshape (new & Hlog & Hfail)]. split.
    + intros s out Hin Hout.
      destruct (begun_outputs _ _ _ _ _ (forced_output_lookup wf) Hin Hout)
        as (s' & Hs' & Hout').
      exact (Hshape s' out Hs' Hout').
    + exists new. split; [exact Hlog|].
      intros x Hx Hf. destruct (Hfail x Hx Hf) as (s & Hin & Hid & Hst & Herr).
      exists s. repeat split; auto.
      apply list_elem_of_lookup in Hin as [j Hj].
      apply list_elem_of_lookup. exists j. cbn.
      rewrite list_lookup_insert_ne; [exact Hj|].
      intros <-. cbn in Hj. rewrite list_lookup_middle in Hj by reflexivity.
      injection Hj as <-. discriminate Hst.
  - exact (ended_sound old _ _ n _ Hrep (forced_output_lookup wf) eq_refl H1).
Qed.

(** With well shaped replies that can be rendered a run returns, completed,
    with an output, and with every failure it logged recorded on a step. *)
Lemma run_workflow_completes wf n :
  replies_well_shaped -> replies_render ->
  exists wf' n', run_workflow wf n = Returned wf' n'
    /\ state wf' = COMPLETED /\ is_Some (final_output wf')
    /\ failures_recorded (conversation_history wf) wf'.
Proof.
  intros Hrep Hren. unfold run_workflow, run_workflow_fuel.
  rewrite plan_workflow_eq.
  pose proof (complete_well_shaped ORCHESTRATOR
                (plan_request (set_state IN_PROGRESS wf)) n Hrep) as Hplanshape.
  destruct (steps_of_plan_ok (user_request (set_state IN_PROGRESS wf)) _ Hplanshape)
    as [planned Hplanned].
  rewrite Hplanned.
  set (wf1 := set_steps planned (set_state IN_PROGRESS wf)).
  destruct (steps_of_plan_spec _ _ _ Hplanned) as [_ Hfresh].
  assert (H1 : sound (conversation_history wf) wf1 /\ outputs_render wf1).
  { split; [split|].
    - intros s out Hs Hout. rewrite Forall_forall in Hfresh.
      destruct (Hfresh s Hs) as (_ & Hnone & _). congruence.
    - exists []. split; [cbn; rewrite app_nil_r; reflexivity|].
      intros e He. inversion He.
    - intros s out Hs Hout. rewrite Forall_forall in Hfresh.
      destruct (Hfresh s Hs) as (_ & Hnone & _). congruence. }
  set (fuel := Z.to_nat (max_iterations wf - iteration_count wf)).
  destruct (revision_loop_sound _ fuel wf1 (S n) Hrep Hren H1) as [H2 Hnoraise].
  pose proof (revision_loop_fuel fuel wf1 (S n)) as Hfuel.
  assert (Hfin : forall wf2 n2,
            sound (conversation_history wf) wf2 /\ outputs_render wf2 ->
            exists wf' n',
              match finalize wf2 n2 with
              | Finished wf3 n3 => Returned wf3 n3
              | Aborted e wf3 n3 => Raised e wf3 n3
              end = Returned wf' n'
              /\ state wf' = COMPLETED /\ is_Some (final_output wf')
              /\ failures_recorded (conversation_history wf) wf').
  { intros wf2 n2 [Hs2 Hr2].
    pose proof (finalize_sound _ wf2 n2 Hrep Hs2) as [_ H3].
    destruct (finalize_goes_through wf2 n2 Hr2) as (wf3 & n3 & Hf).
    destruct (finalize_state _ _ _ _ Hf) as [Hst Hout].
    rewrite Hf in *. exists wf3, n3. auto. }
  destruct (revision_loop fuel wf1 (S n)) as [wf2 n2|wf2 n2|e wf2 n2|wf2 n2];
    cbn [loop_final] in H2.
  - apply Hfin. exact H2.
  - apply Hfin. exact H2.
  - exfalso. eapply Hnoraise. reflexivity.
  - exfalso. eapply Hfuel; [|reflexivity]. subst fuel wf1. cbn. lia.
Qed.

(** X2. Against a backend whose decodable replies are well shaped and can
    be rendered by [json.dumps] in the context of a later step, the results
    of the knowledge base included, [run_workflow] returns, with state
    [COMPLETED] and a final output. *)
Theorem well_shaped_run_completes wf n :
  replies_well_shaped -> replies_render ->
  exists wf' n', run_workflow wf n = Returned wf' n'
    /\ state wf' = COMPLETED /\ is_Some (final_output wf').
Proof.
  intros Hrep Hren.
  destruct (run_workflow_completes wf n Hrep Hren) as (wf' & n' & Hrun & Hst & Hout & _).
  eauto.
Qed.


(** *** The bound on revision rounds *)






(** *** Backend failures *)



(** *** The executor's result *)

(** C8. [execute] raises, before any call of the backend, when rendering
    the context or the results of the knowledge base raises.  Otherwise it
    calls the backend once and returns a result: a success result carrying
    the raw reply when the reply has a text that [json.loads] decodes
    ([parsed] holding the value) or rejects as malformed ([parsed] being
    [None]); a failure result carrying the error text when the backend call
    raises, and also when the backend replied but [json.loads] raises
    another exception on the text or the reply has no text. *)
Theorem C8_execute_result agent_role instr context kq n :
  let rq := mkRequest agent_role instr (context_part context)
              (knowledge_part agent_role kq) in
  (forall e, assembly_raises n rq = Some e ->
     execute agent_role instr context kq n = (Raise e, n))
  /\ (assembly_raises n rq = None ->
      exists result,
        execute agent_role instr context kq n = (Ok result, S n)
        /\ (forall text v, client n rq = Content text -> json_loads text = Decoded v ->
              result = ResSuccess (role_value agent_role) text v)
        /\ (forall text, client n rq = Content text -> json_loads text = Undecodable ->
              result = ResSuccess (role_value agent_role) text JNull)
        /\ (forall text msg, client n rq = Content text ->
              json_loads text = LoadRaised msg ->
              result = ResFailure (role_value agent_role) msg)
        /\ (client n rq = NoContent -> res_success result = false)
        /\ (forall msg, client n rq = BackendError msg ->
              result = ResFailure (role_value agent_role) msg)
        /\ (res_success result = false <->
              (exists msg, client n rq = BackendError msg)
              \/ client n rq = NoContent
              \/ exists text msg, client n rq = Content text
                                  /\ json_loads text = LoadRaised msg)).
Proof.
  cbn zeta. unfold execute. split.
  - intros e ->. reflexivity.
  - intros ->. eexists. split; [reflexivity|]. unfold complete.
    destruct (client n _) as [text| |msg] eqn:Hc.
    + destruct (json_loads text) as [v| |msg] eqn:Hv; cbn [res_success];
        repeat split; try congruence; try discriminate;
        try (intros [(? & [=])|[[=]|(? & ? & [=] & ?)]]; congruence);
        intros _; right; right; eauto.
    + cbn [res_success]. repeat split; try congruence; try discriminate. auto.
    + cbn [res_success]. repeat split; try congruence; try discriminate. eauto.
Qed.

(** *** Agent names *)

Lemma plan_steps_lookup infos : forall id ss k info,
  plan_steps id infos = Ok ss -> infos !! k = Some info ->
  exists s, ss !! k = Some s /\ plan_step (id + Z.of_nat k) info = Ok s.
Proof.
  induction infos as [|x rest IH]; intros id ss k info H Hk; [discriminate Hk|].
  cbn in H. exc_inv. subst ss. destruct k as [|k]; cbn in Hk.
  - injection Hk as ->. exists a. split; [reflexivity|].
    rewrite Z.add_0_r. exact E.
  - destruct (IH _ _ _ _ E0 Hk) as (s & Hs & Hp). exists s. split; [exact Hs|].
    rewrite <- Hp. f_equal. lia.
Qed.

Lemma work_steps_lookup items : forall id ss k item,
  work_steps id items = Ok ss -> items !! k = Some item ->
  exists s, ss !! k = Some s /\ work_step (id + Z.of_nat k) item = Ok s.
Proof.
  induction items as [|x rest IH]; intros id ss k item H Hk; [discriminate Hk|].
  cbn in H. exc_inv. subst ss. destruct k as [|k]; cbn in Hk.
  - injection Hk as ->. exists a. split; [reflexivity|].
    rewrite Z.add_0_r. exact E.
  - destruct (IH _ _ _ _ E0 Hk) as (s & Hs & Hp). exists s. split; [exact Hs|].
    rewrite <- Hp. f_equal. lia.
Qed.

Lemma work_steps_app a : forall id b xs ys,
  work_steps id a = Ok xs -> work_steps (id + Z.of_nat (length xs)) b = Ok ys ->
  work_steps id (a ++ b) = Ok (xs ++ ys).
Proof.
  induction a as [|x rest IH]; intros id b xs ys Ha Hb; cbn in Ha.
  - injection Ha as <-. cbn in Hb. rewrite Z.add_0_r in Hb. exact Hb.
  - exc_inv. subst xs. cbn [app work_steps]. rewrite E. cbn [bind].
    rewrite (IH (id + 1) b a0 ys E0); [reflexivity|].
    rewrite <- Hb. f_equal. cbn [length]. lia.
Qed.

Lemma unknown_agent_name fields name :
  dict_get "agent" fields = Some (JStr name) ->
  agent_name_of (JObj fields) = Ok (upper name).
Proof. intros H. unfold agent_name_of, py_get. rewrite H. reflexivity. Qed.

Lemma plan_step_unknown id fields name s :
  dict_get "agent" fields = Some (JStr name) -> role_of_name (upper name) = None ->
  plan_step id (JObj fields) = Ok s -> agent s = RESEARCH.
Proof.
  intros Ha Hr. unfold plan_step. rewrite (unknown_agent_name _ _ Ha). cbn [bind].
  intros H. exc_inv. subst s. cbn. unfold role_or_research. rewrite Hr. reflexivity.
Qed.

Lemma work_step_unknown id fields name s :
  dict_get "agent" fields = Some (JStr name) -> role_of_name (upper name) = None ->
  work_step id (JObj fields) = Ok s -> agent s = RESEARCH.
Proof.
  intros Ha Hr. unfold work_step. rewrite (unknown_agent_name _ _ Ha). cbn [bind].
  intros H. exc_inv. subst s. cbn. unfold role_or_research. rewrite Hr. reflexivity.
Qed.

(** With well shaped outputs the revision scan makes one step per work item
    of the review steps, in order. *)
Lemma revision_items_eq wf l :
  outputs_well_shaped wf -> (forall s, s ∈ l -> s ∈ steps wf) ->
  forall next, revision_items next l = work_steps next (concat (map review_items l)).
Proof.
  intros Hw. induction l as [|s rest IH]; intros Hin next; cbn; [reflexivity|].
  assert (Hrest : forall x, x ∈ rest -> x ∈ steps wf).
  { intros x Hx. apply Hin. apply list_elem_of_further. exact Hx. }
  unfold review_items at 1.
  destruct (review_verdict s) as [parsed|] eqn:Hv; [|apply IH; exact Hrest].
  destruct (review_verdict_shape wf s parsed Hw (Hin s (list_elem_of_here _ _)) Hv)
    as (fields & -> & Hok).
  assert (Hit : (v <- py_get (JObj fields) "additional_work_needed" (JArr []) ;; py_iter v)
                = Ok match dict_get "additional_work_needed" fields with
                     | Some (JArr items) => items
                     | _ => []
                     end
                /\ forallb item_ok match dict_get "additional_work_needed" fields with
                                   | Some (JArr items) => items
                                   | _ => []
                                   end = true).
  { unfold items_ok, py_get in *.
    destruct (dict_get "additional_work_needed" fields) as [[]|];
      try discriminate Hok; cbn; auto. }
  destruct Hit as [Hit Hitems].
  set (items := match dict_get "additional_work_needed" fields with
                | Some (JArr items) => items
                | _ => []
                end) in *.
  destruct (work_steps_ok _ Hitems next) as [new Hnew].
  destruct (revision_items_ok wf rest Hw Hrest (next + Z.of_nat (length new)))
    as [more Hmore].
  rewrite (work_steps_app items next _ new more Hnew);
    [|rewrite <- IH by exact Hrest; exact Hmore].
  unfold bind in *.
  destruct (py_get (JObj fields) "additional_work_needed" (JArr [])); [|discriminate Hit].
  rewrite Hit, Hnew, Hmore. reflexivity.
Qed.

(** C9. An agent name that, upper-cased, is not the name of a role makes
    the research role the agent of its step, and raises nothing: for the
    items of a planner's [workflow_steps] in [_plan_workflow], and for the
    work items of the review steps in [_add_revision_steps]. *)
Theorem C9_unknown_agent_is_research :
  (forall wf n text fields items,
     client n (plan_request wf) = Content text ->
     json_loads text = Decoded (JObj fields) ->
     dict_get "workflow_steps" fields = Some (JArr items) ->
     forallb item_ok items = true ->
     exists planned,
       _plan_workflow wf n = (Ok planned, S n)
       /\ length planned = length items
       /\ forall k ifields name,
            items !! k = Some (JObj ifields) ->
            dict_get "agent" ifields = Some (JStr name) ->
            role_of_name (upper name) = None ->
            exists s, planned !! k = Some s /\ agent s = RESEARCH)
  /\ (forall wf,
        outputs_well_shaped wf ->
        exists new,
          _add_revision_steps wf = Ok new
          /\ forall k ifields name,
               concat (map review_items (steps wf)) !! k = Some (JObj ifields) ->
               dict_get "agent" ifields = Some (JStr name) ->
               role_of_name (upper name) = None ->
               exists s, new !! k = Some s /\ agent s = RESEARCH).
Proof.
  split.
  - intros wf n text fields items Hc Hl Hws Hok.
    destruct (plan_steps_ok _ Hok 1) as [planned Hp].
    exists planned.
    assert (Hplan : _plan_workflow wf n = (Ok planned, S n)).
    { rewrite plan_workflow_eq. unfold complete. rewrite Hc, Hl.
      unfold steps_of_plan. cbn [res_success res_parsed andb].
      destruct fields as [|f fs]; [discriminate Hws|]. cbn [truthy].
      unfold py_get. rewrite Hws. cbn. rewrite Hp. reflexivity. }
    split; [exact Hplan|]. split; [apply (plan_steps_spec _ _ _ Hp)|].
    intros k ifields name Hk Ha Hr.
    destruct (plan_steps_lookup _ _ _ _ _ Hp Hk) as (s & Hs & Hstep).
    exists s. split; [exact Hs|]. eapply plan_step_unknown; eauto.
  - intros wf Hw.
    destruct (add_revision_steps_ok wf Hw) as [new Hnew].
    exists new. split; [exact Hnew|].
    intros k ifields name Hk Ha Hr.
    unfold _add_revision_steps in Hnew.
    rewrite (revision_items_eq wf (steps wf) Hw (fun s H => H)) in Hnew.
    destruct (work_steps _ (concat (map review_items (steps wf)))) as [ss|e] eqn:Hss;
      [|discriminate Hnew].
    destruct (work_steps_lookup _ _ _ _ _ Hss Hk) as (s & Hs & Hstep).
    exists s. split; [|eapply work_step_unknown; eauto].
    cbn [bind] in Hnew. destruct ss as [|s0 ss']; [discriminate Hs|].
    injection Hnew as <-.
    apply (lookup_app_l_Some (s0 :: ss') _ k s). exact Hs.
Qed.


(** *** Planning *)

(** X1. The default sequence is what planning returns when the planner's
    call raises, when its reply does not decode, and when it decodes to a
    falsy value ([null], [false], [0], an empty string, list or dictionary). *)
Theorem plan_workflow_default wf n :
  (forall msg, client n (plan_request wf) = BackendError msg ->
     _plan_workflow wf n = (Ok (default_steps (user_request wf)), S n))
  /\ (forall text, client n (plan_request wf) = Content text ->
        json_loads text = Undecodable ->
        _plan_workflow wf n = (Ok (default_steps (user_request wf)), S n))
  /\ (forall text v, client n (plan_request wf) = Content text ->
        json_loads text = Decoded v -> truthy v = false ->
        _plan_workflow wf n = (Ok (default_steps (user_request wf)), S n)).
Proof.
  rewrite plan_workflow_eq. unfold complete. repeat split.
  - intros msg ->. reflexivity.
  - intros text -> ->. reflexivity.
  - intros text v -> -> Hv. unfold steps_of_plan. cbn. rewrite Hv. reflexivity.
Qed.

(** C1. A planner reply that decodes to a non-empty dictionary without a
    [workflow_steps] entry, or with an empty one, is not replaced by the
    default sequence: [_plan_workflow] returns the empty list. *)
Theorem C1_stepless_plan_is_returned wf n text fields :
  client n (plan_request wf) = Content text ->
  json_loads text = Decoded (JObj fields) ->
  fields <> [] ->
  dict_get "workflow_steps" fields = None
  \/ dict_get "workflow_steps" fields = Some (JArr []) ->
  _plan_workflow wf n = (Ok [], S n).
Proof.
  intros Hc Hl Hne Hws.
  rewrite plan_workflow_eq. unfold complete. rewrite Hc, Hl.
  unfold steps_of_plan. cbn [res_success res_parsed andb].
  destruct fields as [|f fs]; [congruence|]. cbn [truthy].
  unfold py_get. destruct Hws as [-> | ->]; reflexivity.
Qed.

(** *** The review verdict *)

(** C2. The verdict of [_check_if_revision_needed] is that of the first
    step in list order that is a REVIEW step with a truthy parsed output,
    whatever review steps come after it. *)
Theorem C2_first_review_decides wf pre s post parsed :
  steps wf = pre ++ s :: post ->
  (forall x, x ∈ pre -> review_verdict x = None) ->
  review_verdict s = Some parsed ->
  _check_if_revision_needed wf = wants_revision parsed.
Proof.
  intros Hsteps Hpre Hs. unfold _check_if_revision_needed. rewrite Hsteps.
  clear Hsteps. induction pre as [|x pre IH]; cbn.
  - rewrite Hs. reflexivity.
  - rewrite (Hpre x (list_elem_of_here _ _)). apply IH.
    intros y Hy. apply Hpre. apply list_elem_of_further. exact Hy.
Qed.


(** *** Workflow states *)

Lemma revision_loop_assigned fuel : forall wf n,
  assigned_state (state wf) -> assigned_state (state (loop_final (revision_loop fuel wf n))).
Proof.
  induction fuel as [|fuel IH]; intros wf n Hs; cbn [revision_loop].
  - destruct (iteration_count wf <? max_iterations wf); exact Hs.
  - destruct (iteration_count wf <? max_iterations wf); [|exact Hs].
    pose proof (execute_pending_advances
                  (set_iteration_count (iteration_count wf + 1) wf) n) as Ha.
    destruct (execute_pending _ n) as [wf2 n2|e wf2 n2]; cbn [out_wf] in Ha;
      assert (H2 : assigned_state (state wf2)) by (rewrite (adv_state _ _ Ha); exact Hs);
      [|exact H2].
    destruct (_check_if_revision_needed wf2) as [[|]|e]; try exact H2.
    destruct (_add_revision_steps wf2) as [new|e]; try exact H2.
    apply IH. right. left. reflexivity.
Qed.

(** X3. However a run stops, and after any number of loop rounds, the state
    it leaves is one of in_progress, needs_revision and completed: failed
    and awaiting_review are never assigned. *)
Theorem run_workflow_state fuel wf n :
  assigned_state (state (final_workflow (run_workflow_fuel fuel wf n))).
Proof.
  unfold run_workflow_fuel.
  destruct (_plan_workflow (set_state IN_PROGRESS wf) n) as [[planned|e] n1];
    [|left; reflexivity].
  pose proof (revision_loop_assigned fuel (set_steps planned (set_state IN_PROGRESS wf)) n1
                (or_introl eq_refl)) as Hs.
  assert (Hfin : forall wf2 n2, assigned_state (state wf2) ->
            assigned_state (state (out_wf (finalize wf2 n2)))).
  { intros wf2 n2 H2. rewrite finalize_eq. destruct (last _); [right; right; reflexivity|].
    destruct (assembly_raises _ _); [exact H2|right; right; reflexivity]. }
  destruct (revision_loop fuel _ n1) as [wf2 n2|wf2 n2|e wf2 n2|wf2 n2];
    cbn [loop_final] in Hs; try exact Hs.
  - specialize (Hfin wf2 n2 Hs). destruct (finalize wf2 n2); exact Hfin.
  - specialize (Hfin wf2 n2 Hs). destruct (finalize wf2 n2); exact Hfin.
Qed.


(** *** Outputs and statuses *)

Lemma outputs_match_status_check l :
  forallb output_matches_status l = true -> outputs_match_status l.
Proof.
  intros H s Hs. rewrite forallb_forall in H.
  specialize (H s (proj1 (list_elem_of_In _ _) Hs)).
  unfold output_matches_status in H. apply Bool.eqb_prop in H.
  rewrite <- String.eqb_eq, <- H.
  destruct (output_data s); split; intros Hx; eauto; try discriminate Hx.
  destruct Hx as [x Hx]. discriminate Hx.
Qed.

Lemma fresh_outputs_match l : Forall fresh l -> outputs_match_status l.
Proof.
  intros H s Hs. rewrite Forall_forall in H.
  destruct (H s Hs) as (Hst & Hout & _). rewrite Hst, Hout. split.
  - intros [x Hx]. discriminate Hx.
  - discriminate.
Qed.

Lemma outputs_match_insert l i step s' :
  l !! i = Some step -> outputs_match_status l ->
  (is_Some (output_data s') <-> status s' = "completed") ->
  outputs_match_status (<[i := s']> l).
Proof.
  intros Hi Hl Hs' s Hs.
  apply list_elem_of_lookup in Hs as [j Hj].
  apply list_lookup_insert_Some in Hj as [(_ & <- & _)|[_ Hj]]; [exact Hs'|].
  apply Hl. apply list_elem_of_lookup. eauto.
Qed.

(** The workflow whose steps [_execute_step] reads the context from. *)
Lemma context_source_outputs wf i step :
  steps wf !! i = Some step -> String.eqb (status step) "pending" = true ->
  outputs_match_status (steps wf) ->
  outputs_match_status
    (steps (set_steps (<[i := mark_in_progress step]> (steps wf)) wf)).
Proof.
  intros Hi Hp Hl. cbn. apply (outputs_match_insert _ _ step); auto.
  apply String.eqb_eq in Hp.
  pose proof (Hl step (proj2 (list_elem_of_lookup _ _) (ex_intro _ i Hi))) as Hstep.
  cbn. split.
  - intros Hx. apply Hstep in Hx. congruence.
  - discriminate.
Qed.

Lemma step_request_context wf i step0 :
  rq_context (step_request wf i step0)
  = Some (gather_context (set_steps (<[i := mark_in_progress step0]> (steps wf)) wf)
            (mark_in_progress step0)).
Proof.
  unfold step_request. cbn [rq_context]. unfold context_part.
  match goal with
  | |- context [map_to_list ?c] => destruct (map_to_list c) eqn:Hl
  end; [|reflexivity].
  apply map_to_list_empty_iff in Hl.
  unfold gather_context in Hl. apply insert_non_empty in Hl. destruct Hl.
Qed.

(** C5 (amended). When [_execute_step] runs the pending step stored at index
    [i], at position N, the request it sends carries as context the
    dictionary gathered from the workflow's steps.  That context holds the
    user's request under [user_request]; every output in it is the output of
    a completed step of position below N, under the key of that step's role,
    so nothing of position N or above and nothing of a failed step is in it;
    and for every completed step of position below N the key of its role is
    bound, to the output of the last completed step of that role and of
    position below N in list order (an earlier step of the same role is
    overwritten). *)
Theorem C5_context_of_step wf i step0 :
  steps wf !! i = Some step0 ->
  String.eqb (status step0) "pending" = true ->
  outputs_match_status (steps wf) ->
  let step := mark_in_progress step0 in
  let wf1 := set_steps (<[i := step]> (steps wf)) wf in
  rq_context (step_request wf i step0) = Some (gather_context wf1 step)
  /\ gather_context wf1 step !! "user_request" = Some (CtxRequest (user_request wf))
  /\ (forall key out, gather_context wf1 step !! key = Some (CtxOutput out) ->
        exists s, s ∈ steps wf1 /\ step_id s < step_id step0 /\ status s = "completed"
                  /\ output_data s = Some out /\ key = role_value (agent s))
  /\ (forall s, s ∈ steps wf1 -> step_id s < step_id step0 -> status s = "completed" ->
        exists s' out',
          last (filter (fun x => contributes (step_id step0) (agent s) x = true)
                  (steps wf1)) = Some s'
          /\ status s' = "completed" /\ output_data s' = Some out'
          /\ gather_context wf1 step !! role_value (agent s) = Some (CtxOutput out')).
Proof.
  intros Hi Hp Hl. cbn zeta.
  split; [apply step_request_context|].
  exact (gather_context_spec _ (mark_in_progress step0)
           (context_source_outputs wf i step0 Hi Hp Hl)).
Qed.

Lemma execute_step_outputs wf i n step :
  steps wf !! i = Some step -> String.eqb (status step) "pending" = true ->
  outputs_match_status (steps wf) ->
  outputs_match_status (steps (out_wf (_execute_step wf i n))).
Proof.
  intros Hi Hp Hl. rewrite (execute_step_eq _ _ _ _ Hi).
  destruct (assembly_raises _ _); cbn [out_wf];
    [apply context_source_outputs; assumption|].
  cbn [ended steps].
  apply (outputs_match_insert _ _ step); auto.
  apply String.eqb_eq in Hp.
  pose proof (Hl step (proj2 (list_elem_of_lookup _ _) (ex_intro _ i Hi))) as Hstep.
  unfold record_result. destruct (res_success _); cbn.
  - split; eauto.
  - split; [|discriminate]. intros Hx. apply Hstep in Hx. congruence.
Qed.

Lemma execute_pending_outputs wf n :
  outputs_match_status (steps wf) ->
  outputs_match_status (steps (out_wf (execute_pending wf n))).
Proof.
  apply (run_pending_invariant (fun w => outputs_match_status (steps w))).
  intros w i m step Hi Hp. apply execute_step_outputs with step; assumption.
Qed.

Lemma revision_loop_outputs fuel : forall wf n,
  outputs_match_status (steps wf) ->
  outputs_match_status (steps (loop_final (revision_loop fuel wf n))).
Proof.
  induction fuel as [|fuel IH]; intros wf n Hl; cbn [revision_loop].
  - destruct (iteration_count wf <? max_iterations wf); exact Hl.
  - destruct (iteration_count wf <? max_iterations wf); [|exact Hl].
    pose proof (execute_pending_outputs
                  (set_iteration_count (iteration_count wf + 1) wf) n Hl) as H2.
    destruct (execute_pending _ n) as [wf2 n2|e wf2 n2]; cbn [out_wf] in H2;
      [|exact H2].
    destruct (_check_if_revision_needed wf2) as [[|]|e]; try exact H2.
    destruct (_add_revision_steps wf2) as [new|e] eqn:Hadd; try exact H2.
    apply IH. cbn. intros s Hs. apply elem_of_app in Hs as [Hs|Hs]; [auto|].
    apply (fresh_outputs_match new); [|exact Hs].
    eapply add_revision_steps_spec. exact Hadd.
Qed.

(** X4. From planning on, at every stage of a run, a step has output
    exactly when it is completed; a failed step has none. *)
Theorem run_workflow_outputs fuel wf n planned n1 :
  _plan_workflow (set_state IN_PROGRESS wf) n = (Ok planned, n1) ->
  outputs_match_status (steps (final_workflow (run_workflow_fuel fuel wf n))).
Proof.
  intros Hplan. unfold run_workflow_fuel. rewrite Hplan.
  destruct (plan_workflow_spec _ _ _ _ Hplan) as (_ & _ & Hfresh).
  pose proof (revision_loop_outputs fuel (set_steps planned (set_state IN_PROGRESS wf)) n1
                (fresh_outputs_match _ Hfresh)) as H2.
  assert (Hfin : forall wf2 n2, outputs_match_status (steps wf2) ->
            outputs_match_status (steps (out_wf (finalize wf2 n2)))).
  { intros wf2 n2 Hl. unfold finalize. destruct (last _); [exact Hl|].
    match goal with |- context [_execute_step ?w ?i n2] =>
      pose proof (execute_step_outputs w i n2 _
                    (list_lookup_middle (steps wf2) [] _ _ eq_refl) eq_refl) as He;
      destruct (_execute_step w i n2) as [wf3 n3|e wf3 n3] end;
    cbn in *; apply He; intros s Hs; (apply elem_of_app in Hs as [Hs|Hs]; [auto|]);
    apply list_elem_of_singleton in Hs; subst s; cbn; (split;
    [intros [x Hx]; discriminate Hx|discriminate]). }
  destruct (revision_loop fuel _ n1) as [wf2 n2|wf2 n2|e wf2 n2|wf2 n2];
    cbn [loop_final] in H2; try exact H2.
  - specialize (Hfin wf2 n2 H2). destruct (finalize wf2 n2); exact Hfin.
  - specialize (Hfin wf2 n2 H2). destruct (finalize wf2 n2); exact Hfin.
Qed.

End Properties.

(** ** Further properties *)

Section Further.

Context {runtime : Runtime} {backend : Backend}.

(** *** The log and the executed steps *)

Lemma settled_not_pending s : settled s -> String.eqb (status s) "pending" = false.
Proof. intros [H|H]; rewrite H; reflexivity. Qed.

Lemma fresh_pending s : fresh s -> String.eqb (status s) "pending" = true.
Proof. intros (H & _). rewrite H. reflexivity. Qed.

Lemma executed_steps_all l : Forall settled l -> executed_steps l = l.
Proof.
  unfold executed_steps. induction 1 as [|s l Hs _ IH]; [reflexivity|].
  rewrite filter_cons_True, IH; [reflexivity|].
  destruct Hs as [Hs|Hs]; rewrite Hs; reflexivity.
Qed.

Lemma executed_steps_none l :
  Forall (fun s => fresh s \/ in_flight s) l -> executed_steps l = [].
Proof.
  unfold executed_steps. induction 1 as [|s l Hs _ IH]; [reflexivity|].
  rewrite filter_cons_False; [exact IH|].
  destruct Hs as [(Hs & _)|(Hs & _)]; rewrite Hs; discriminate.
Qed.

Lemma executed_steps_split l1 l2 :
  Forall settled l1 -> Forall fresh l2 -> executed_steps (l1 ++ l2) = l1.
Proof.
  intros H1 H2. unfold executed_steps. rewrite filter_app.
  fold (executed_steps l1). fold (executed_steps l2).
  rewrite (executed_steps_all _ H1), executed_steps_none; [apply app_nil_r|].
  eapply Forall_impl; [exact H2|]. auto.
Qed.

Lemma executed_steps_interrupted l1 x l2 :
  Forall settled l1 -> in_flight x -> Forall fresh l2 ->
  executed_steps (l1 ++ x :: l2) = l1.
Proof.
  intros H1 Hx H2. unfold executed_steps. rewrite filter_app.
  fold (executed_steps l1). fold (executed_steps (x :: l2)).
  rewrite (executed_steps_all _ H1), executed_steps_none; [apply app_nil_r|].
  constructor; [right; exact Hx|]. eapply Forall_impl; [exact H2|]. auto.
Qed.

(** What [_execute_step] makes of a step that is as created. *)
Lemma record_fresh_step wf i n x :
  fresh x ->
  settled (record_result (step_result wf i x n) (mark_in_progress x))
  /\ step_key (record_result (step_result wf i x n) (mark_in_progress x)) = step_key x
  /\ entry_of (record_result (step_result wf i x n) (mark_in_progress x))
     = mkEntry (step_id x) (role_value (agent x)) (instruction x) (step_result wf i x n).
Proof.
  intros (_ & Hout & _).
  pose proof (complete_agent (agent x) (step_request wf i x) n) as Ha.
  fold (step_result wf i x n) in Ha.
  unfold record_result, settled, entry_of, recorded_result.
  destruct (step_result wf i x n) as [a raw parsed|a msg]; cbn in *.
  - repeat split. left. reflexivity.
  - rewrite Hout, Ha. repeat split. right. reflexivity.
Qed.

Lemma mark_fresh_step x : fresh x -> in_flight (mark_in_progress x).
Proof. intros (_ & Hout & Herr). repeat split; assumption. Qed.

(** Executing the first step that is still as created. *)
Lemma execute_step_middle wf n la x lb :
  steps wf = la ++ x :: lb -> fresh x ->
  exists x',
    settled x' /\ step_key x' = step_key x
    /\ _execute_step wf (length la) n =
         match assembly_raises n (step_request wf (length la) x) with
         | Some e => Aborted e (set_steps (la ++ mark_in_progress x :: lb) wf) n
         | None =>
             Finished (set_history (conversation_history wf ++ [entry_of x'])
                         (set_steps (la ++ x' :: lb) wf)) (S n)
         end.
Proof.
  intros Hsteps Hx.
  assert (Hi : steps wf !! length la = Some x).
  { rewrite Hsteps. apply list_lookup_middle. reflexivity. }
  destruct (record_fresh_step wf (length la) n x Hx) as (Hs & Hk & He).
  exists (record_result (step_result wf (length la) x n) (mark_in_progress x)).
  split; [exact Hs|]. split; [exact Hk|].
  rewrite (execute_step_eq _ _ _ _ Hi), He.
  unfold begun, ended, set_history, set_steps. cbn.
  rewrite Hsteps, !insert_app_r_alt by lia.
  replace (length la - length la)%nat with 0%nat by lia. reflexivity.
Qed.

Lemma run_pending_in_order log0 n1 m : forall j wf n l1 l2,
  steps wf = l1 ++ l2 -> Forall settled l1 -> Forall fresh l2 ->
  conversation_history wf = log0 ++ map entry_of l1 -> n = (n1 + length l1)%nat ->
  (j <= length l1)%nat ->
  match run_pending (seq j m) wf n with
  | Finished wf' n' =>
      exists l1' l2',
        steps wf' = l1' ++ l2' /\ Forall settled l1' /\ Forall fresh l2'
        /\ conversation_history wf' = log0 ++ map entry_of l1'
        /\ n' = (n1 + length l1')%nat
        /\ ((length l1 + length l2 <= j + m)%nat -> l2' = [])
  | Aborted _ wf' n' => interrupted log0 n1 wf' n'
  end.
Proof.
  induction m as [|m IH]; intros j wf n l1 l2 Hsteps H1 H2 Hlog Hn Hj.
  - exists l1, l2. cbn. repeat split; auto.
    intros Hlen. destruct l2; [reflexivity|cbn in Hlen; lia].
  - destruct l2 as [|x l2].
    + rewrite run_pending_settled.
      * exists l1, []. cbn. repeat split; auto.
      * intros s Hs. rewrite Hsteps, app_nil_r in Hs.
        apply settled_not_pending. rewrite Forall_forall in H1. auto.
    + cbn [seq run_pending].
      destruct (decide (j = length l1)) as [->|Hne].
      * assert (Hi : steps wf !! length l1 = Some x).
        { rewrite Hsteps. apply list_lookup_middle. reflexivity. }
        rewrite Hi, (fresh_pending x (Forall_inv H2)).
        destruct (execute_step_middle wf n l1 x l2 Hsteps (Forall_inv H2))
          as (x' & Hs' & _ & ->).
        destruct (assembly_raises _ _) as [e|].
        -- exists l1, (mark_in_progress x), l2. cbn.
           repeat split; auto; try apply (mark_fresh_step x (Forall_inv H2)).
           exact (Forall_inv_tail H2).
        -- specialize (IH (S (length l1))
                         (set_history (conversation_history wf ++ [entry_of x'])
                            (set_steps (l1 ++ x' :: l2) wf))
                         (S n) (l1 ++ [x']) l2).
           destruct (run_pending (seq (S (length l1)) m) _ (S n)) as [wf' n'|e wf' n'].
           ++ destruct IH as (l1' & l2' & Ha & Hb & Hc & Hd & He & Hf).
              { cbn. rewrite <- app_assoc. reflexivity. }
              { apply Forall_app. split; [exact H1|]. constructor; [exact Hs'|constructor]. }
              { exact (Forall_inv_tail H2). }
              { cbn. rewrite Hlog, map_app, app_assoc. reflexivity. }
              { rewrite length_app. cbn. lia. }
              { rewrite length_app. cbn. lia. }
              exists l1', l2'. repeat split; auto.
              intros Hlen. apply Hf. rewrite length_app. cbn in *. lia.
           ++ apply IH.
              ** cbn. rewrite <- app_assoc. reflexivity.
              ** apply Forall_app. split; [exact H1|]. constructor; [exact Hs'|constructor].
              ** exact (Forall_inv_tail H2).
              ** cbn. rewrite Hlog, map_app, app_assoc. reflexivity.
              ** rewrite length_app. cbn. lia.
              ** rewrite length_app. cbn. lia.
      * assert (Hlt : (j < length l1)%nat) by lia.
        destruct (lookup_lt_is_Some_2 l1 j Hlt) as [s Hs].
        assert (Hi : steps wf !! j = Some s).
        { rewrite Hsteps. apply lookup_app_l_Some. exact Hs. }
        rewrite Hi.
        assert (Hset : settled s).
        { rewrite Forall_forall in H1. apply H1. apply list_elem_of_lookup. eauto. }
        rewrite (settled_not_pending s Hset).
        specialize (IH (S j) wf n l1 (x :: l2) Hsteps H1 H2 Hlog Hn ltac:(lia)).
        destruct (run_pending (seq (S j) m) wf n) as [wf' n'|e wf' n']; [|exact IH].
        destruct IH as (l1' & l2' & Ha & Hb & Hc & Hd & He & Hf).
        exists l1', l2'. repeat split; auto.
        intros Hlen. apply Hf. lia.
Qed.

(** A pass executes every step that is still as created, in list order,
    up to the first whose [execute] raises. *)
Lemma execute_pending_in_order log0 n1 wf n :
  in_order log0 n1 wf n ->
  match execute_pending wf n with
  | Finished wf' n' =>
      Forall settled (steps wf')
      /\ conversation_history wf' = log0 ++ map entry_of (steps wf')
      /\ n' = (n1 + length (steps wf'))%nat
  | Aborted _ wf' n' => interrupted log0 n1 wf' n'
  end.
Proof.
  intros (l1 & l2 & Hsteps & H1 & H2 & Hlog & Hn). unfold execute_pending.
  pose proof (run_pending_in_order log0 n1 (length (steps wf)) 0 wf n l1 l2
                Hsteps H1 H2 Hlog Hn ltac:(lia)) as H.
  destruct (run_pending _ wf n) as [wf' n'|e wf' n']; [|exact H].
  destruct H as (l1' & l2' & Ha & Hb & Hc & Hd & He & Hf).
  rewrite Hf in Ha by (rewrite Hsteps, length_app; lia).
  rewrite app_nil_r in Ha. rewrite Ha. auto.
Qed.

(** The loop keeps the executed steps in front and the log in their order;
    when it is left by [break], every step has been executed. *)
Lemma revision_loop_in_order log0 n1 fuel : forall wf n,
  in_order log0 n1 wf n ->
  match revision_loop fuel wf n with
  | LoopBreak wf2 n2 => in_order log0 n1 wf2 n2 /\ Forall settled (steps wf2)
  | LoopCap wf2 n2 | LoopFuel wf2 n2 => in_order log0 n1 wf2 n2
  | LoopRaised _ wf2 n2 => in_order log0 n1 wf2 n2 \/ interrupted log0 n1 wf2 n2
  end.
Proof.
  induction fuel as [|fuel IH]; intros wf n Hin; cbn [revision_loop].
  - destruct (iteration_count wf <? max_iterations wf); exact Hin.
  - destruct (iteration_count wf <? max_iterations wf); [|exact Hin].
    pose proof (execute_pending_in_order log0 n1
                  (set_iteration_count (iteration_count wf + 1) wf) n Hin) as Hpass.
    destruct (execute_pending _ n) as [wf2 n2|e wf2 n2]; [|right; exact Hpass].
    destruct Hpass as (Hset & Hlog & Hn).
    assert (H2 : in_order log0 n1 wf2 n2).
    { exists (steps wf2), []. rewrite app_nil_r. auto. }
    destruct (_check_if_revision_needed wf2) as [[|]|e].
    + destruct (_add_revision_steps wf2) as [new|e] eqn:Hadd.
      * apply IH. exists (steps wf2), new. cbn.
        repeat split; auto. eapply add_revision_steps_spec. exact Hadd.
      * left. exact H2.
    + split; [exact H2|exact Hset].
    + left. exact H2.
Qed.

Lemma in_order_accounted log0 n1 wf n :
  in_order log0 n1 wf n -> accounted log0 n1 wf n /\ tidy wf.
Proof.
  intros (l1 & l2 & Hsteps & H1 & H2 & Hlog & Hn). unfold accounted, tidy.
  rewrite Hsteps, (executed_steps_split l1 l2 H1 H2). repeat split; auto.
  - apply Forall_app. split.
    + eapply Forall_impl; [exact H1|]. auto.
    + eapply Forall_impl; [exact H2|]. auto.
  - apply Forall_app. split.
    + eapply Forall_impl; [exact H1|]. auto.
    + eapply Forall_impl; [exact H2|]. auto.
Qed.

Lemma interrupted_accounted log0 n1 wf n :
  interrupted log0 n1 wf n -> accounted log0 n1 wf n.
Proof.
  intros (l1 & x & l2 & Hsteps & H1 & Hx & H2 & Hlog & Hn). unfold accounted.
  rewrite Hsteps, (executed_steps_interrupted l1 x l2 H1 Hx H2). repeat split; auto.
  apply Forall_app. split.
  - eapply Forall_impl; [exact H1|]. auto.
  - constructor; [auto|]. eapply Forall_impl; [exact H2|]. auto.
Qed.

Lemma executed_steps_forced l x :
  settled x -> executed_steps (l ++ [x]) = executed_steps l ++ [x].
Proof.
  intros Hx. unfold executed_steps. rewrite filter_app. f_equal.
  rewrite filter_cons_True; [reflexivity|].
  destruct Hx as [Hx|Hx]; rewrite Hx; reflexivity.
Qed.

Lemma executed_steps_begun l x :
  in_flight x -> executed_steps (l ++ [x]) = executed_steps l.
Proof.
  intros (Hx & _). unfold executed_steps. rewrite filter_app.
  rewrite filter_cons_False; [apply app_nil_r|].
  rewrite Hx. discriminate.
Qed.

(** The forced output step is executed last and logged last. *)
Lemma finalize_accounted log0 n1 wf n :
  in_order log0 n1 wf n ->
  accounted log0 n1 (out_wf (finalize wf n)) (out_calls (finalize wf n))
  /\ (forall wf' n', finalize wf n = Finished wf' n' ->
        tidy wf' /\ (Forall settled (steps wf) -> Forall settled (steps wf'))).
Proof.
  intros Hin.
  pose proof (in_order_accounted _ _ _ _ Hin) as [(Hlog & Hn & Hst) Htidy].
  unfold finalize. destruct (last _) as [s|].
  - cbn. repeat split; auto; injection H as <- _; auto.
  - set (output_step := new_step _ OUTPUT _).
    destruct (execute_step_middle (set_steps (steps wf ++ [output_step]) wf) n
                (steps wf) output_step [] eq_refl ltac:(repeat split))
      as (x' & Hx & _ & He).
    rewrite He. destruct (assembly_raises _ _) as [e|]; unfold accounted, tidy;
      cbn [out_wf out_calls steps conversation_history set_state set_final_output
           set_history set_steps].
    + rewrite (executed_steps_begun _ (mark_in_progress output_step)
                 ltac:(repeat split)).
      repeat split; auto; try discriminate.
      apply Forall_app. split; [exact Hst|].
      constructor; [right; right; repeat split|constructor].
    + rewrite (executed_steps_forced _ _ Hx), map_app, length_app.
      cbn [map length]. repeat split.
      * rewrite Hlog, app_assoc. reflexivity.
      * lia.
      * apply Forall_app. split; [exact Hst|].
        constructor; [left; exact Hx|constructor].
      * injection H as <- _. cbn.
        apply Forall_app. split; [exact Htidy|].
        constructor; [left; exact Hx|constructor].
      * injection H as <- _. cbn. intros Hall.
        apply Forall_app. split; [exact Hall|].
        constructor; [exact Hx|constructor].
Qed.

(** From planning on: the log, the call counter and the statuses. *)
Lemma run_workflow_accounted fuel wf n planned n1 :
  _plan_workflow (set_state IN_PROGRESS wf) n = (Ok planned, n1) ->
  accounted (conversation_history wf) (S n)
    (final_workflow (run_workflow_fuel fuel wf n))
    (calls_made (run_workflow_fuel fuel wf n))
  /\ ((forall e wf' n', run_workflow_fuel fuel wf n <> Raised e wf' n') ->
      tidy (final_workflow (run_workflow_fuel fuel wf n)))
  /\ (forall wf2 n2 wf' n',
        revision_loop fuel (set_steps planned (set_state IN_PROGRESS wf)) n1
          = LoopBreak wf2 n2 ->
        run_workflow_fuel fuel wf n = Returned wf' n' ->
        Forall settled (steps wf')).
Proof.
  intros Hplan. unfold run_workflow_fuel. rewrite Hplan.
  destruct (plan_workflow_spec _ _ _ _ Hplan) as (-> & _ & Hfresh).
  set (wf1 := set_steps planned (set_state IN_PROGRESS wf)).
  assert (H1 : in_order (conversation_history wf) (S n) wf1 (S n)).
  { exists [], planned. cbn. rewrite app_nil_r. repeat split; auto. }
  pose proof (revision_loop_in_order _ _ fuel wf1 (S n) H1) as H2.
  destruct (revision_loop fuel wf1 (S n)) as [wf2 n2|wf2 n2|e wf2 n2|wf2 n2].
  - destruct H2 as [H2 Hall].
    destruct (finalize_accounted _ _ wf2 n2 H2) as [Ha Hs].
    destruct (finalize wf2 n2) as [wf3 n3|e wf3 n3];
      cbn [out_wf out_calls final_workflow calls_made] in *.
    + destruct (Hs wf3 n3 eq_refl) as [Ht Hk].
      split; [exact Ha|]. split; [intros _; exact Ht|].
      intros wf4 n4 wf' n' _ [= <- _]. apply Hk. exact Hall.
    + split; [exact Ha|]. split; [|discriminate].
      intros Hno. exfalso. eapply Hno. reflexivity.
  - destruct (finalize_accounted _ _ wf2 n2 H2) as [Ha Hs].
    destruct (finalize wf2 n2) as [wf3 n3|e wf3 n3];
      cbn [out_wf out_calls final_workflow calls_made] in *.
    + destruct (Hs wf3 n3 eq_refl) as [Ht Hk].
      split; [exact Ha|]. split; [intros _; exact Ht|discriminate].
    + split; [exact Ha|]. split; [|discriminate].
      intros Hno. exfalso. eapply Hno. reflexivity.
  - cbn [final_workflow calls_made]. split; [|split; [|discriminate]].
    + destruct H2 as [H2|H2];
        [apply in_order_accounted; exact H2|apply interrupted_accounted; exact H2].
    + intros Hno. exfalso. eapply Hno. reflexivity.
  - cbn [final_workflow calls_made].
    split; [apply in_order_accounted; exact H2|].
    split; [intros _; apply in_order_accounted in H2; apply H2|discriminate].
Qed.

Lemma executed_count l :
  (length (filter (fun s => String.eqb (status s) "completed" = true) l)
   + length (filter (fun s => String.eqb (status s) "failed" = true) l)
   = length (executed_steps l))%nat.
Proof.
  unfold executed_steps. induction l as [|s l IH]; [reflexivity|].
  rewrite !filter_cons.
  destruct (String.eqb_spec (status s) "completed") as [Hs|Hs];
    [rewrite Hs|destruct (String.eqb_spec (status s) "failed")];
    cbn; repeat case_decide; try discriminate; try congruence; cbn; lia.
Qed.

(** *** What a run leaves behind *)

(** X6. After a planning call that returned, and however far the run got
    (any number of loop rounds; returned, raised or still running), the
    conversation log is the log the workflow came with followed by one
    entry per completed or failed step, in the order of the step list, each
    entry holding that step's position, agent, instruction and result.
    Every step is completed, failed, untouched, or left in progress without
    output, error or log entry; a step is left in progress only by a run
    that raised. *)
Theorem log_lists_executed_steps fuel wf n planned n1 :
  _plan_workflow (set_state IN_PROGRESS wf) n = (Ok planned, n1) ->
  conversation_history (final_workflow (run_workflow_fuel fuel wf n))
    = conversation_history wf
      ++ map entry_of (executed_steps (steps (final_workflow (run_workflow_fuel fuel wf n))))
  /\ Forall (fun s => settled s \/ fresh s \/ in_flight s)
       (steps (final_workflow (run_workflow_fuel fuel wf n)))
  /\ ((forall e wf' n', run_workflow_fuel fuel wf n <> Raised e wf' n') ->
      Forall (fun s => settled s \/ fresh s)
        (steps (final_workflow (run_workflow_fuel fuel wf n)))).
Proof.
  intros Hplan.
  destruct (run_workflow_accounted fuel wf n planned n1 Hplan)
    as ((Hlog & _ & Hst) & Htidy & _).
  split; [exact Hlog|]. split; [exact Hst|exact Htidy].
Qed.

(** X7. The numbers of [get_workflow_summary] account for every backend
    call of the run: one planning call plus one call per step counted in
    [steps_executed] or [steps_failed]; the log grows by as many entries. *)
Theorem summary_counts_calls fuel wf n planned n1 :
  _plan_workflow (set_state IN_PROGRESS wf) n = (Ok planned, n1) ->
  calls_made (run_workflow_fuel fuel wf n)
    = (n + 1
       + steps_executed (get_workflow_summary (final_workflow (run_workflow_fuel fuel wf n)))
       + steps_failed (get_workflow_summary (final_workflow (run_workflow_fuel fuel wf n))))%nat
  /\ length (conversation_history (final_workflow (run_workflow_fuel fuel wf n)))
     = (length (conversation_history wf)
        + steps_executed (get_workflow_summary (final_workflow (run_workflow_fuel fuel wf n)))
        + steps_failed (get_workflow_summary (final_workflow (run_workflow_fuel fuel wf n))))%nat.
Proof.
  intros Hplan.
  destruct (run_workflow_accounted fuel wf n planned n1 Hplan) as [(Hlog & Hn & Hst) _].
  cbn [get_workflow_summary steps_executed steps_failed].
  rewrite <- !Nat.add_assoc, executed_count. split.
  - rewrite Hn. lia.
  - rewrite Hlog at 1. rewrite length_app, length_map. reflexivity.
Qed.

(** X8. When the loop of [run_workflow] is left by [break] (the check
    found no revision to be needed) and the run returns, the workflow that
    is returned has no pending step: every step is completed or failed, and
    [steps_executed] and [steps_failed] add up to the number of steps. *)
Theorem break_leaves_no_pending_step fuel wf n planned n1 wf2 n2 wf' n' :
  _plan_workflow (set_state IN_PROGRESS wf) n = (Ok planned, n1) ->
  revision_loop fuel (set_steps planned (set_state IN_PROGRESS wf)) n1 = LoopBreak wf2 n2 ->
  run_workflow_fuel fuel wf n = Returned wf' n' ->
  Forall settled (steps wf')
  /\ (steps_executed (get_workflow_summary wf')
      + steps_failed (get_workflow_summary wf'))%nat
     = length (steps wf').
Proof.
  intros Hplan Hloop Hrun.
  destruct (run_workflow_accounted fuel wf n planned n1 Hplan) as (_ & _ & Hbreak).
  pose proof (Hbreak wf2 n2 wf' n' Hloop Hrun) as Hall. split; [exact Hall|].
  cbn [get_workflow_summary steps_executed steps_failed].
  rewrite executed_count, (executed_steps_all _ Hall). reflexivity.
Qed.

Lemma fresh_not_completed_output l :
  Forall fresh l -> filter (fun s => is_completed_output s = true) l = [].
Proof.
  induction 1 as [|s l (Hs & _) _ IH]; [reflexivity|].
  rewrite filter_cons_False; [exact IH|].
  unfold is_completed_output. rewrite Hs.
  destruct (bool_decide (agent s = OUTPUT)); discriminate.
Qed.

Lemma fresh_renders wf : Forall fresh (steps wf) -> outputs_render wf.
Proof.
  intros Hall s out Hs Ho. rewrite Forall_forall in Hall.
  destruct (Hall s Hs) as (_ & Hnone & _). congruence.
Qed.

(** A step of an agent that does not consult the knowledge base assembles
    its messages, when the outputs stored on the steps can be rendered. *)
Lemma quiet_step_assembles wf i step0 n :
  steps wf !! i = Some step0 -> can_query_knowledge (agent step0) = false ->
  outputs_render wf ->
  assembly_raises n (step_request wf i step0) = None.
Proof.
  intros Hi Hq Hr. rewrite (step_assembles _ _ _ _ Hi Hr).
  unfold step_request. cbn [rq_knowledge_query agent mark_in_progress].
  rewrite Hq. reflexivity.
Qed.

(** X9. A workflow whose iteration counter has already reached its cap
    (for instance a cap of zero) executes none of the steps it plans: the
    run makes two backend calls, the planning call and the call of an
    output step appended after the planned steps, which all stay pending;
    the counter is unchanged and the state is completed. *)
Theorem exhausted_cap_runs_output_only wf n planned n1 :
  _plan_workflow (set_state IN_PROGRESS wf) n = (Ok planned, n1) ->
  max_iterations wf <= iteration_count wf ->
  exists wf' x,
    run_workflow wf n = Returned wf' (n + 2)
    /\ steps wf' = planned ++ [x]
    /\ Forall fresh planned
    /\ settled x
    /\ step_key x = (Z.of_nat (length planned) + 1, OUTPUT,
                     JStr "Create final response synthesizing all agent findings")
    /\ conversation_history wf' = conversation_history wf ++ [entry_of x]
    /\ iteration_count wf' = iteration_count wf
    /\ state wf' = COMPLETED.
Proof.
  intros Hplan Hcap.
  destruct (plan_workflow_spec _ _ _ _ Hplan) as (-> & _ & Hfresh).
  unfold run_workflow, run_workflow_fuel. rewrite Hplan.
  assert (Hloop : forall fuel,
            revision_loop fuel (set_steps planned (set_state IN_PROGRESS wf)) (S n)
            = LoopCap (set_steps planned (set_state IN_PROGRESS wf)) (S n)).
  { intros [|fuel]; cbn; destruct (Z.ltb_spec (iteration_count wf) (max_iterations wf));
      try lia; reflexivity. }
  rewrite Hloop. unfold finalize. cbn [steps set_steps].
  rewrite (fresh_not_completed_output _ Hfresh). cbn [last].
  set (output_step := new_step _ OUTPUT _).
  set (wf1 := set_steps (planned ++ [output_step])
                (set_steps planned (set_state IN_PROGRESS wf))).
  destruct (execute_step_middle wf1 (S n) planned output_step [] eq_refl
              ltac:(repeat split))
    as (x & Hx & Hk & He).
  rewrite He.
  rewrite (quiet_step_assembles wf1 (length planned) output_step (S n)
             (list_lookup_middle planned [] _ _ eq_refl) eq_refl).
  2:{ apply fresh_renders. cbn. apply Forall_app. split; [exact Hfresh|].
      repeat constructor. }
  eexists _, x. split.
  - replace (n + 2)%nat with (S (S n)) by lia. reflexivity.
  - cbn. repeat split; auto.
Qed.

(** *** The final output *)

Lemma completed_output_spec s :
  is_completed_output s = true <-> agent s = OUTPUT /\ status s = "completed".
Proof.
  unfold is_completed_output. rewrite andb_true_iff, bool_decide_eq_true.
  split; intros [H1 H2]; split; auto.
  - apply String.eqb_eq. exact H2.
  - apply String.eqb_eq. exact H2.
Qed.

Lemma finalize_selects wf n wf' n' :
  finalize wf n = Finished wf' n' ->
  final_output wf'
    = Some (match last (filter (fun s => is_completed_output s = true) (steps wf')) with
            | Some s => raw_response_of s
            | None => ""
            end)
  /\ exists s, s ∈ steps wf' /\ agent s = OUTPUT.
Proof.
  rewrite finalize_eq.
  destruct (last (filter _ (steps wf))) as [s|] eqn:Hlast.
  - intros [= <- _]. cbn [final_output steps set_state set_final_output]. rewrite Hlast.
    split; [reflexivity|]. exists s.
    apply last_Some_elem_of in Hlast. apply list_elem_of_filter in Hlast as [H1 H2].
    split; [exact H2|]. apply completed_output_spec in H1. tauto.
  - apply last_None in Hlast.
    destruct (assembly_raises _ _); [discriminate|].
    cbn zeta. intros [= <- _].
    unfold ended, with_forced_output.
    set (x := record_result _ _).
    cbn [final_output steps set_state set_final_output set_steps].
    rewrite insert_app_r_alt by lia.
    replace (length (steps wf) - length (steps wf))%nat with 0%nat by lia.
    cbn [insert list_insert].
    rewrite (list_lookup_middle (steps wf) [] x (length (steps wf)) eq_refl).
    rewrite filter_app, Hlast, app_nil_l. split.
    + subst x. unfold record_result.
      destruct (res_success _); cbn [filter]; rewrite ?filter_cons, ?filter_nil;
        cbn; repeat case_decide; try reflexivity;
        try (exfalso; match goal with H : ~ _ |- _ => apply H end;
             apply completed_output_spec; split; reflexivity).
    + exists x. split; [apply elem_of_app; right; apply list_elem_of_here|].
      subst x. unfold record_result. destruct (res_success _); reflexivity.
Qed.

Lemma returned_selects fuel wf n wf' n' :
  run_workflow_fuel fuel wf n = Returned wf' n' ->
  final_output wf'
    = Some (match last (filter (fun s => is_completed_output s = true) (steps wf')) with
            | Some s => raw_response_of s
            | None => ""
            end)
  /\ exists s, s ∈ steps wf' /\ agent s = OUTPUT.
Proof.
  unfold run_workflow_fuel.
  destruct (_plan_workflow _ n) as [[planned|e] n1]; [|discriminate].
  destruct (revision_loop fuel _ n1) as [wf2 n2|wf2 n2|e wf2 n2|wf2 n2]; try discriminate.
  - pose proof (finalize_selects wf2 n2) as H.
    destruct (finalize wf2 n2) as [wf3 n3|e wf3 n3]; [|discriminate].
    intros [= <- <-]. apply (H wf3 n3 eq_refl).
  - pose proof (finalize_selects wf2 n2) as H.
    destruct (finalize wf2 n2) as [wf3 n3|e wf3 n3]; [|discriminate].
    intros [= <- <-]. apply (H wf3 n3 eq_refl).
Qed.

(** X10. The final output of a run that returns is the raw response of
    the last step in list order that is a completed OUTPUT step, and the
    empty string when the run has no such step (the output step appended at
    the end failed); the returned workflow always has an OUTPUT step. *)
Theorem final_output_is_last_completed_output fuel wf n wf' n' :
  run_workflow_fuel fuel wf n = Returned wf' n' ->
  final_output wf'
    = Some (match last (filter (fun s => is_completed_output s = true) (steps wf')) with
            | Some s => raw_response_of s
            | None => ""
            end)
  /\ exists s, s ∈ steps wf' /\ agent s = OUTPUT.
Proof. apply returned_selects. Qed.

(** *** Replies without structure *)

Lemma plan_unstructured wf n :
  replies_unstructured ->
  _plan_workflow wf n = (Ok (default_steps (user_request wf)), S n).
Proof.
  intros Hun. rewrite plan_workflow_eq. unfold complete.
  destruct (client n (plan_request wf)) as [text| |msg] eqn:Hc; try reflexivity.
  destruct (json_loads text) as [v| |msg] eqn:Hl; try reflexivity.
  unfold steps_of_plan. cbn. rewrite (Hun _ _ _ _ Hc Hl). reflexivity.
Qed.

Lemma complete_unstructured a rq n :
  replies_unstructured ->
  truthy (res_parsed_or_empty (complete a rq n)) = false.
Proof.
  intros Hun. unfold complete.
  destruct (client n rq) as [text| |msg] eqn:Hc; try reflexivity.
  destruct (json_loads text) as [v| |msg] eqn:Hl; try reflexivity.
  cbn. exact (Hun _ _ _ _ Hc Hl).
Qed.

(** A falsy value has no nesting to speak of. *)
Lemma falsy_renders v : truthy v = false -> renders v = true.
Proof.
  unfold renders. destruct v as [| | | | |items|fields]; try reflexivity.
  - destruct items; [reflexivity|discriminate].
  - destruct fields; [reflexivity|discriminate].
Qed.

Lemma unstructured_renders wf : outputs_unstructured wf -> outputs_render wf.
Proof.
  intros Hun s out Hs Ho. specialize (Hun s out Hs Ho).
  destruct out as [a raw parsed|a msg]; [|reflexivity].
  apply falsy_renders. exact Hun.
Qed.

Lemma ended_unstructured wf i n step :
  replies_unstructured -> steps wf !! i = Some step ->
  outputs_unstructured wf -> outputs_unstructured (ended wf i step n).
Proof.
  intros Hun Hi Hout s out Hs Ho.
  destruct (ended_outputs _ _ _ _ _ _ Hi Hs Ho) as [[-> _]|(s' & Hs' & Ho')].
  - apply complete_unstructured. exact Hun.
  - exact (Hout s' out Hs' Ho').
Qed.

Lemma unstructured_no_verdict wf :
  outputs_unstructured wf -> _check_if_revision_needed wf = Ok false.
Proof.
  unfold outputs_unstructured, _check_if_revision_needed.
  induction (steps wf) as [|x l IH]; intros H; cbn; [reflexivity|].
  assert (Hx : review_verdict x = None).
  { unfold review_verdict. destruct (output_data x) as [out|] eqn:Ho; [|reflexivity].
    rewrite (H x out (list_elem_of_here _ _) Ho), andb_false_r. reflexivity. }
  rewrite Hx. apply IH. intros s out Hs. apply H. apply list_elem_of_further. exact Hs.
Qed.

Lemma fresh_unstructured wf : Forall fresh (steps wf) -> outputs_unstructured wf.
Proof.
  intros Hall s out Hs Ho. rewrite Forall_forall in Hall.
  destruct (Hall s Hs) as (_ & Hnone & _). congruence.
Qed.

(** One round against replies without structure ends the loop. *)
Lemma unstructured_round fuel wf n :
  replies_unstructured -> knowledge_renders -> Forall fresh (steps wf) ->
  iteration_count wf < max_iterations wf ->
  exists wf2 n2,
    revision_loop (S fuel) wf n = LoopBreak wf2 n2
    /\ iteration_count wf2 = iteration_count wf + 1
    /\ map step_key (steps wf2) = map step_key (steps wf)
    /\ outputs_unstructured wf2.
Proof.
  intros Hun Hkb Hfresh Hlt. cbn [revision_loop].
  destruct (Z.ltb_spec (iteration_count wf) (max_iterations wf)) as [_|]; [|lia].
  set (wf1 := set_iteration_count (iteration_count wf + 1) wf).
  pose proof (execute_pending_advances wf1 n) as Ha.
  destruct (run_pending_goes_through outputs_unstructured) with
    (idxs := seq 0 (length (steps wf1))) (wf := wf1) (n := n)
    as (wf2 & n2 & Hpass & Hout).
  { intros w i m step Hi _ Hw. split.
    - rewrite (step_assembles _ _ _ _ Hi (unstructured_renders _ Hw)).
      destruct (rq_knowledge_query _); [apply Hkb|reflexivity].
    - apply ended_unstructured; assumption. }
  { apply fresh_unstructured. exact Hfresh. }
  unfold execute_pending in *. rewrite Hpass in *. cbn [out_wf] in Ha.
  rewrite (unstructured_no_verdict _ Hout). exists wf2, n2.
  destruct Ha. cbn in *. auto.
Qed.

(** X11. Against a backend none of whose replies decodes to a truthy JSON
    value (free text, failures, [null], empty containers), the results of
    the knowledge base being such that [json.dumps] renders them, a
    workflow below its cap runs in a single loop round: the run returns
    completed after executing exactly the five default steps, followed by
    one more output step exactly when the planned output step failed; no
    step is left pending, and the backend is called once per step after
    the planning call. *)
Theorem unstructured_replies_single_pass wf n :
  replies_unstructured -> knowledge_renders ->
  iteration_count wf < max_iterations wf ->
  exists wf' done extra,
    run_workflow wf n = Returned wf' (n + 1 + length (steps wf'))
    /\ state wf' = COMPLETED
    /\ iteration_count wf' = iteration_count wf + 1
    /\ steps wf' = done ++ extra
    /\ Forall settled (steps wf')
    /\ map step_key done = map step_key (default_steps (user_request wf))
    /\ match last done with
       | Some s =>
           (status s = "completed" /\ extra = [])
           \/ (status s = "failed"
               /\ exists x, extra = [x]
                    /\ step_key x
                       = (6, OUTPUT,
                          JStr "Create final response synthesizing all agent findings"))
       | None => False
       end.
Proof.
  intros Hun Hkb Hlt.
  pose proof (plan_unstructured (set_state IN_PROGRESS wf) n Hun) as Hplan.
  cbn [user_request set_state] in Hplan.
  destruct (Z.to_nat (max_iterations wf - iteration_count wf)) as [|fuel] eqn:Hfuel; [lia|].
  destruct (run_workflow_accounted (S fuel) wf n _ _ Hplan) as ((_ & Hn & _) & _ & Hbreak).
  destruct (unstructured_round fuel
              (set_steps (default_steps (user_request wf)) (set_state IN_PROGRESS wf))
              (S n) Hun Hkb) as (wf2 & n2 & Hloop & Hcount & Hkeys & Hout).
  { cbn. repeat constructor. }
  { exact Hlt. }
  specialize (Hbreak wf2 n2).
  unfold run_workflow. rewrite Hfuel.
  revert Hn Hbreak. unfold run_workflow_fuel. rewrite Hplan, Hloop.
  cbn [steps set_steps iteration_count set_state] in Hkeys, Hcount.
  destruct (steps wf2) as [|s1 [|s2 [|s3 [|s4 [|s5 [|s6 rest]]]]]] eqn:Hsteps;
    try discriminate Hkeys.
  injection Hkeys as I1 A1 J1 I2 A2 J2 I3 A3 J3 I4 A4 J4 I5 A5 J5.
  assert (Hdone : map step_key [s1; s2; s3; s4; s5]
                  = map step_key (default_steps (user_request wf))).
  { cbn [map]. unfold step_key.
    rewrite I1, A1, J1, I2, A2, J2, I3, A3, J3, I4, A4, J4, I5, A5, J5. reflexivity. }
  assert (Hfilter : filter (fun s => is_completed_output s = true) (steps wf2)
                    = if String.eqb (status s5) "completed" then [s5] else []).
  { rewrite Hsteps.
    rewrite !filter_cons, filter_nil. unfold is_completed_output.
    rewrite A1, A2, A3, A4, A5. cbn.
    destruct (String.eqb (status s5) "completed"); reflexivity. }
  unfold finalize. rewrite Hfilter.
  destruct (String.eqb (status s5) "completed") eqn:Hs5; cbn [last].
  - cbn [final_workflow calls_made]. intros Hn Hbreak.
    pose proof (Hbreak _ _ eq_refl eq_refl) as Hall.
    exists (set_state COMPLETED (set_final_output (Some (raw_response_of s5)) wf2)),
      [s1; s2; s3; s4; s5], [].
    cbn [steps set_state set_final_output state iteration_count] in *.
    rewrite Hsteps in *. split.
    + f_equal. rewrite Hn.
      rewrite (executed_steps_all _ Hall). cbn [length]. lia.
    + repeat split; auto.
      cbn. left. split; [apply String.eqb_eq; exact Hs5|reflexivity].
  - set (output_step := new_step _ OUTPUT _).
    destruct (execute_step_middle (set_steps (steps wf2 ++ [output_step]) wf2) n2
                (steps wf2) output_step [] eq_refl ltac:(repeat split))
      as (x & Hx & Hk & He).
    rewrite He.
    rewrite (quiet_step_assembles (set_steps (steps wf2 ++ [output_step]) wf2)
               (length (steps wf2)) output_step n2
               (list_lookup_middle (steps wf2) [] _ _ eq_refl) eq_refl).
    2:{ apply (append_renders wf2 [output_step] (state wf2));
          [repeat constructor|apply unstructured_renders; exact Hout]. }
    cbn [final_workflow calls_made]. intros Hn Hbreak.
    pose proof (Hbreak _ _ eq_refl eq_refl) as Hall.
    match goal with
    | |- context [Returned ?w _] => exists w, [s1; s2; s3; s4; s5], [x]
    end.
    cbn [steps set_state set_final_output set_history set_steps state iteration_count] in *.
    rewrite Hsteps in *. split; [|repeat split; auto].
    + f_equal. rewrite Hn.
      rewrite (executed_steps_all _ Hall).
      rewrite !length_app. cbn. lia.
    + cbn. right. split.
      * apply Forall_app in Hall as [Hall _].
        inversion Hall as [|? ? _ T2]. inversion T2 as [|? ? _ T3].
        inversion T3 as [|? ? _ T4]. inversion T4 as [|? ? _ T5].
        inversion T5 as [|? ? [Hc|Hf] _]; [|exact Hf].
        rewrite Hc in Hs5. discriminate Hs5.
      * exists x. split; [reflexivity|]. rewrite Hk. subst output_step.
        rewrite ?Hsteps. reflexivity.
Qed.

(** *** Rounds without work *)

Lemma idle_rounds fuel : forall wf n,
  fuel = Z.to_nat (max_iterations wf - iteration_count wf) ->
  Forall settled (steps wf) ->
  _check_if_revision_needed wf = Ok true ->
  _add_revision_steps wf = Ok [] ->
  iteration_count wf < max_iterations wf ->
  revision_loop fuel wf n
    = LoopCap (set_state NEEDS_REVISION (set_iteration_count (max_iterations wf) wf)) n.
Proof.
  induction fuel as [|fuel IH]; intros wf n Hf Hs Hc Ha Hlt; [lia|].
  cbn [revision_loop].
  destruct (Z.ltb_spec (iteration_count wf) (max_iterations wf)) as [_|]; [|lia].
  unfold execute_pending. rewrite run_pending_settled.
  2:{ cbn. intros s Hin. apply settled_not_pending.
      rewrite Forall_forall in Hs. auto. }
  change (_check_if_revision_needed (set_iteration_count (iteration_count wf + 1) wf))
    with (_check_if_revision_needed wf).
  change (_add_revision_steps (set_iteration_count (iteration_count wf + 1) wf))
    with (_add_revision_steps wf).
  rewrite Hc, Ha. cbn [steps set_iteration_count]. rewrite app_nil_r.
  set (wf' := set_state NEEDS_REVISION _).
  destruct (Z.eq_dec (iteration_count wf + 1) (max_iterations wf)) as [He|Hne].
  - assert (Hcap : revision_loop fuel wf' n = LoopCap wf' n).
    { destruct fuel; cbn;
        destruct (Z.ltb_spec (iteration_count wf + 1) (max_iterations wf)); try lia;
        reflexivity. }
    rewrite Hcap. subst wf'. unfold set_state, set_steps, set_iteration_count. cbn.
    rewrite He. reflexivity.
  - rewrite (IH wf' n); subst wf'; cbn; try assumption; try lia.
    reflexivity.
Qed.

(** X12. When the review asks for a revision without naming work (its
    verdict is true and [_add_revision_steps] returns no step) and no step
    is pending, the loop neither calls the backend nor changes a step or the
    log: it only counts up to the cap and leaves the state at
    needs_revision. *)
Theorem revision_without_work_spins_to_cap wf n :
  Forall settled (steps wf) ->
  _check_if_revision_needed wf = Ok true ->
  _add_revision_steps wf = Ok [] ->
  iteration_count wf < max_iterations wf ->
  revision_loop (Z.to_nat (max_iterations wf - iteration_count wf)) wf n
    = LoopCap (set_state NEEDS_REVISION (set_iteration_count (max_iterations wf) wf)) n.
Proof. intros. apply idle_rounds; auto. Qed.

(** *** The endpoints *)

(** The counter after the loop: untouched when the cap was reached before,
    raised by one at least otherwise. *)
Lemma revision_loop_count fuel wf n :
  (max_iterations wf <= iteration_count wf ->
   iteration_count (loop_final (revision_loop fuel wf n)) = iteration_count wf)
  /\ (iteration_count wf < max_iterations wf -> (0 < fuel)%nat ->
      iteration_count wf + 1 <= iteration_count (loop_final (revision_loop fuel wf n))).
Proof.
  split.
  - intros Hcap. destruct fuel; cbn [revision_loop];
      destruct (Z.ltb_spec (iteration_count wf) (max_iterations wf)); try lia; reflexivity.
  - intros Hlt Hfuel. destruct fuel as [|fuel]; [lia|]. cbn [revision_loop].
    destruct (Z.ltb_spec (iteration_count wf) (max_iterations wf)); [|lia].
    pose proof (adv_count _ _ (execute_pending_advances
                  (set_iteration_count (iteration_count wf + 1) wf) n)) as Hc.
    destruct (execute_pending _ n) as [wf2 n2|e wf2 n2]; cbn [out_wf] in Hc;
      cbn [iteration_count set_iteration_count] in Hc; [|cbn [loop_final]; lia].
    destruct (_check_if_revision_needed wf2) as [[|]|e]; cbn [loop_final]; try lia.
    destruct (_add_revision_steps wf2) as [new|e]; cbn [loop_final]; try lia.
    pose proof (revision_loop_evolves fuel
                  (set_state NEEDS_REVISION (set_steps (steps wf2 ++ new) wf2)) n2) as Hev.
    apply ev_count in Hev. cbn in Hev. lia.
Qed.

Lemma run_workflow_count wf n wf' n' :
  run_workflow wf n = Returned wf' n' ->
  (max_iterations wf <= iteration_count wf -> iteration_count wf' = iteration_count wf)
  /\ (iteration_count wf < max_iterations wf ->
      iteration_count wf + 1 <= iteration_count wf' <= max_iterations wf).
Proof.
  intros Hrun. split.
  - intros Hcap. revert Hrun. unfold run_workflow, run_workflow_fuel.
    destruct (_plan_workflow _ n) as [[planned|e] n1]; [|discriminate].
    set (wf1 := set_steps planned (set_state IN_PROGRESS wf)).
    pose proof (proj1 (revision_loop_count
                         (Z.to_nat (max_iterations wf - iteration_count wf)) wf1 n1) Hcap)
      as Hc.
    destruct (revision_loop _ wf1 n1) as [wf2 n2|wf2 n2|e wf2 n2|wf2 n2];
      try discriminate; cbn [loop_final] in Hc;
      pose proof (finalize_count wf2 n2) as Hf;
      (destruct (finalize wf2 n2) as [wf3 n3|e wf3 n3]; [|discriminate]);
      intros [= <- _]; cbn in *; lia.
  - intros Hlt.
    pose proof (run_workflow_bound (Z.to_nat (max_iterations wf - iteration_count wf))
                  wf n ltac:(lia)) as (_ & Hub & _).
    revert Hrun Hub. unfold run_workflow, run_workflow_fuel.
    destruct (_plan_workflow _ n) as [[planned|e] n1]; [|discriminate].
    set (wf1 := set_steps planned (set_state IN_PROGRESS wf)).
    pose proof (proj2 (revision_loop_count
                         (Z.to_nat (max_iterations wf - iteration_count wf)) wf1 n1)
                  Hlt ltac:(lia)) as Hc.
    destruct (revision_loop _ wf1 n1) as [wf2 n2|wf2 n2|e wf2 n2|wf2 n2];
      try discriminate; cbn [loop_final] in Hc;
      pose proof (finalize_count wf2 n2) as Hf;
      (destruct (finalize wf2 n2) as [wf3 n3|e wf3 n3]; [|discriminate]);
      intros [= <- _] Hub; cbn in *; lia.
Qed.

Lemma returned_planned fuel wf n wf' n' :
  run_workflow_fuel fuel wf n = Returned wf' n' ->
  exists planned, _plan_workflow (set_state IN_PROGRESS wf) n = (Ok planned, S n).
Proof.
  unfold run_workflow_fuel.
  destruct (_plan_workflow _ n) as [[planned|e] n1] eqn:Hplan; [|discriminate].
  intros _. destruct (plan_workflow_spec _ _ _ _ Hplan) as (-> & _). eauto.
Qed.

(** X17. [POST /workflow] against a backend whose decodable replies are
    well shaped and can be rendered: for every integer cap the endpoint
    responds, with state completed, a final output, the output agent among
    the agents involved, no iteration when the cap is zero or negative and
    between one iteration and the cap otherwise; the log of the response
    has one entry per backend call after the planning call, of which
    [steps_executed] counts the successful ones.  With [max_iterations]
    given as null the request fails with a [TypeError] right after the
    planning call, before any step runs. *)
Theorem api_workflow_responds id text n :
  replies_well_shaped -> replies_render ->
  (forall cap, exists r n',
      api_run_workflow id (mkWorkflowRequest text (Some cap)) n = Responded r n'
      /\ resp_state r = "completed"
      /\ is_Some (resp_final_output r)
      /\ Z.min 1 (Z.max 0 cap) <= resp_iterations r <= Z.max 0 cap
      /\ "output" ∈ resp_agents_involved r
      /\ n' = (n + 1 + length (resp_conversation_history r))%nat
      /\ (resp_steps_executed r <= length (resp_conversation_history r))%nat)
  /\ api_run_workflow id (mkWorkflowRequest text None) n = ServerError TypeError (S n).
Proof.
  intros Hrep Hren. split.
  - intros cap. set (wf := set_max_iterations cap (create_workflow id text)).
    destruct (run_workflow_completes wf n Hrep Hren)
      as (wf' & n' & Hrun & Hstate & Hout & _).
    unfold api_run_workflow. cbn [wr_max_iterations wr_request]. fold wf. rewrite Hrun.
    cbn [respond]. exists (response_of wf'), n'. split; [reflexivity|].
    unfold response_of, get_workflow_summary.
    cbn [resp_state resp_final_output resp_iterations resp_agents_involved
         resp_conversation_history resp_steps_executed sum_state sum_final_output
         iterations agents_involved sum_conversation_history steps_executed].
    destruct (run_workflow_count wf n wf' n' Hrun) as [Hcap Hlow].
    destruct (returned_selects _ wf n wf' n' Hrun) as [_ (s & Hs & Hagent)].
    destruct (returned_planned _ wf n wf' n' Hrun) as [planned Hplan].
    destruct (run_workflow_accounted (Z.to_nat (max_iterations wf - iteration_count wf))
                wf n planned _ Hplan) as [(Hlog & Hn & Hst) _].
    fold (run_workflow wf n) in Hlog, Hn, Hst. rewrite Hrun in Hlog, Hn, Hst.
    cbn [final_workflow calls_made] in Hlog, Hn, Hst. cbn in Hlog.
    split; [rewrite Hstate; reflexivity|]. split; [exact Hout|]. split.
    { cbn in Hcap, Hlow. lia. }
    split.
    { apply elem_of_list_to_set. apply list_elem_of_fmap. exists s.
      rewrite Hagent. split; [reflexivity|exact Hs]. }
    split.
    { rewrite Hn, Hlog, length_map. lia. }
    rewrite Hlog, length_map, <- executed_count. lia.
  - destruct (run_workflow_completes (create_workflow id text) n Hrep Hren)
      as (wf' & n' & Hrun & _).
    destruct (returned_planned _ _ n wf' n' Hrun) as [planned Hplan].
    unfold api_run_workflow. cbn [wr_max_iterations wr_request].
    rewrite Hplan. reflexivity.
Qed.

Lemma scenario_of_none key table :
  scenario_of key table = None <-> key ∉ map fst table.
Proof.
  induction table as [|[k info] table IH]; cbn [scenario_of map fst].
  - split; [intros _ H; inversion H|reflexivity].
  - rewrite not_elem_of_cons. destruct (String.eqb_spec k key) as [->|Hne].
    + split; [discriminate|]. intros [H _]. congruence.
    + rewrite IH. split; [intros H; split; [congruence|exact H]|intros [_ H]; exact H].
Qed.

Lemma scenario_of_listed key name request :
  (key, name, request) ∈ list_scenarios ->
  scenario_of key DEMO_SCENARIOS = Some (name, request).
Proof.
  unfold list_scenarios, DEMO_SCENARIOS. cbn [map]. intros H.
  repeat (apply elem_of_cons in H as [H|H];
          [injection H as -> -> ->; vm_compute; reflexivity|]).
  inversion H.
Qed.

(** X18. [POST /workflow/{scenario_key}] answers 404 exactly for the keys
    that are not in [DEMO_SCENARIOS] (the comparison is exact, so a key in
    another letter case is not found), and then calls no backend; for a key
    that [GET /scenarios] lists it behaves as [POST /workflow] does on the
    listed request with the default cap of 5. *)
Theorem scenario_endpoint id key n :
  ((exists detail, api_run_scenario id key n = NotFound detail)
   <-> key ∉ map fst DEMO_SCENARIOS)
  /\ (forall name request,
        (key, name, request) ∈ list_scenarios ->
        api_run_scenario id key n
          = api_run_workflow id (mkWorkflowRequest request (Some 5)) n).
Proof.
  split.
  - rewrite <- scenario_of_none. unfold api_run_scenario.
    destruct (scenario_of key DEMO_SCENARIOS) as [[name request]|].
    + split; [|discriminate]. intros [detail H].
      destruct (run_workflow _ n); discriminate H.
    + split; [reflexivity|]. eauto.
  - intros name request H. unfold api_run_scenario.
    rewrite (scenario_of_listed _ _ _ H). reflexivity.
Qed.

(** *** The run with a stream callback *)

Lemma run_pending_streamed_erase idxs : forall wf n events,
  match run_pending_streamed idxs wf n events with
  | PassDone wf' n' _ => run_pending idxs wf n = Finished wf' n'
  | PassRaised e wf' n' _ =>
      run_pending idxs wf n = Aborted e wf' n'
      \/ (e = TypeError
          /\ exists s, s ∈ steps wf' /\ status s = "pending"
                       /\ py_slice 100 (instruction s) = None)
  end.
Proof.
  induction idxs as [|i rest IH]; intros wf n events;
    cbn [run_pending_streamed run_pending]; [reflexivity|].
  destruct (steps wf !! i) as [step|] eqn:Hi; [|apply IH].
  destruct (String.eqb (status step) "pending") eqn:Hp; [|apply IH].
  destruct (py_slice 100 (instruction step)) as [preview|] eqn:Hs.
  - destruct (_execute_step wf i n) as [wf' n'|e wf' n']; [apply IH|left; reflexivity].
  - right. split; [reflexivity|]. exists step.
    split; [apply list_elem_of_lookup; eauto|].
    split; [apply String.eqb_eq; exact Hp|exact Hs].
Qed.

Lemma revision_loop_streamed_erase fuel : forall wf n events,
  fst (revision_loop_streamed fuel wf n events) = revision_loop fuel wf n
  \/ exists wf' n' s,
       fst (revision_loop_streamed fuel wf n events) = LoopRaised TypeError wf' n'
       /\ s ∈ steps wf' /\ status s = "pending" /\ py_slice 100 (instruction s) = None.
Proof.
  induction fuel as [|fuel IH]; intros wf n events;
    cbn [revision_loop_streamed revision_loop];
    destruct (iteration_count wf <? max_iterations wf); try (left; reflexivity).
  set (wf1 := set_iteration_count (iteration_count wf + 1) wf).
  pose proof (run_pending_streamed_erase (seq 0 (length (steps wf1))) wf1 n events) as Hp.
  unfold execute_pending.
  destruct (run_pending_streamed _ wf1 n events) as [wf2 n2 ev2|e wf2 n2 ev2].
  - rewrite Hp.
    destruct (_check_if_revision_needed wf2) as [[|]|e]; try (left; reflexivity).
    destruct (_add_revision_steps wf2) as [new|e]; [apply IH|left; reflexivity].
  - destruct Hp as [->|[-> (s & Hs)]]; [left; reflexivity|].
    right. exists wf2, n2, s. split; [reflexivity|exact Hs].
Qed.

(** X21. The callback only observes: the run with a stream callback ends
    as the run without one does, with the same workflow and the same number
    of backend calls, unless it stops with a [TypeError] at a pending step
    whose instruction cannot be sliced for the message of the event (an
    instruction that the plan or the review gave as a number, a boolean,
    null or an object). *)
Theorem streamed_run_erases fuel wf n :
  fst (run_workflow_streamed fuel wf n) = run_workflow_fuel fuel wf n
  \/ stopped_at_preview (fst (run_workflow_streamed fuel wf n)).
Proof.
  unfold run_workflow_streamed, run_workflow_fuel, stopped_at_preview.
  destruct (_plan_workflow (set_state IN_PROGRESS wf) n) as [[planned|e] n1];
    [|left; reflexivity].
  destruct (revision_loop_streamed_erase fuel
              (set_steps planned (set_state IN_PROGRESS wf)) n1 [EvPlanning])
    as [Heq|(wf' & n' & s & Heq & Hs)].
  - left. rewrite <- Heq.
    destruct (revision_loop_streamed fuel _ n1 _) as [[wf2 n2|wf2 n2|e wf2 n2|wf2 n2] ev];
      cbn [fst]; try reflexivity; destruct (finalize wf2 n2); reflexivity.
  - right. exists wf', n', s.
    destruct (revision_loop_streamed fuel _ n1 _) as [r ev]. cbn [fst] in Heq. subst r.
    split; [reflexivity|exact Hs].
Qed.

(** X22. With a stream callback, a first planned step whose instruction
    cannot be sliced stops the run in its first round with a [TypeError]:
    no step is executed and the only event is the planning event. *)
Theorem unsliceable_instruction_stops_stream fuel wf n s rest n1 :
  _plan_workflow (set_state IN_PROGRESS wf) n = (Ok (s :: rest), n1) ->
  py_slice 100 (instruction s) = None ->
  iteration_count wf < max_iterations wf ->
  run_workflow_streamed (S fuel) wf n
    = (Raised TypeError
         (set_iteration_count (iteration_count wf + 1)
            (set_steps (s :: rest) (set_state IN_PROGRESS wf))) n1,
       [EvPlanning]).
Proof.
  intros Hplan Hs Hlt.
  destruct (plan_workflow_spec _ _ _ _ Hplan) as (_ & _ & Hfresh).
  inversion Hfresh as [|? ? (Hp & _) _]. subst.
  unfold run_workflow_streamed. rewrite Hplan. cbn [revision_loop_streamed].
  cbn [iteration_count max_iterations set_steps set_state].
  destruct (Z.ltb_spec (iteration_count wf) (max_iterations wf)); [|lia].
  set (wf1 := set_iteration_count _ _).
  assert (Hpass : run_pending_streamed (seq 0 (length (steps wf1))) wf1 n1 [EvPlanning]
                  = PassRaised TypeError wf1 n1 [EvPlanning]).
  { change (steps wf1) with (s :: rest). cbn [length seq run_pending_streamed].
    change (steps wf1 !! 0%nat) with (Some s). cbn match.
    rewrite Hp. cbn [String.eqb Ascii.eqb Bool.eqb]. rewrite Hs. reflexivity. }
  change (steps (set_steps (s :: rest) (set_state IN_PROGRESS wf))) with (steps wf1).
  rewrite Hpass. reflexivity.
Qed.

Lemma loop_events_app a b : loop_events a -> loop_events b -> loop_events (a ++ b).
Proof. induction 1; cbn [app]; auto; constructor; auto. Qed.

Lemma event_has_icon e : event_type e ∈ icon_keys.
Proof.
  destruct e; cbn;
    repeat first [apply list_elem_of_here|apply list_elem_of_further].
Qed.

Lemma ended_report wf i n step :
  steps wf !! i = Some step ->
  conversation_history (ended wf i step n)
    = conversation_history wf
      ++ [mkEntry (step_id step) (role_value (agent step)) (instruction step)
            (step_result wf i step n)]
  /\ match steps (ended wf i step n) !! i with
     | Some s => String.eqb (status s) "completed"
     | None => false
     end = res_success (step_result wf i step n).
Proof.
  intros Hi. split; [reflexivity|]. cbn [ended steps].
  rewrite list_lookup_insert_eq by (apply lookup_lt_is_Some; eauto).
  rewrite record_result_status. destruct (res_success _); reflexivity.
Qed.

Lemma streamed_ok_open log0 wf events :
  streamed_ok log0 wf events -> streamed_open log0 wf events.
Proof.
  intros (body & -> & Hbody & Hout). exists body, []. rewrite app_nil_r. auto.
Qed.

Lemma pass_streamed_ok log0 idxs : forall wf n events,
  streamed_ok log0 wf events ->
  match run_pending_streamed idxs wf n events with
  | PassDone wf' _ events' => streamed_ok log0 wf' events'
  | PassRaised _ wf' _ events' => streamed_open log0 wf' events'
  end.
Proof.
  induction idxs as [|i rest IH]; intros wf n events Hok;
    cbn [run_pending_streamed]; [exact Hok|].
  destruct (steps wf !! i) as [step|] eqn:Hi; [|apply IH; exact Hok].
  destruct (String.eqb (status step) "pending"); [|apply IH; exact Hok].
  destruct (py_slice 100 (instruction step)) as [preview|];
    [|apply streamed_ok_open; exact Hok].
  rewrite (execute_step_eq _ _ _ _ Hi).
  destruct (assembly_raises _ _) as [e|].
  - destruct Hok as (body & -> & Hbody & Hout).
    exists body, [EvExecuting (role_value (agent step)) preview].
    split; [reflexivity|]. split; [exact Hbody|]. split; [right; eauto|exact Hout].
  - destruct (ended_report wf i n step Hi) as (Hlog & Hc).
    apply IH. destruct Hok as (body & -> & Hbody & Hout).
    exists (body ++ [EvExecuting (role_value (agent step)) preview;
                     EvStepComplete (role_value (agent step))
                       match steps (ended wf i step n) !! i with
                       | Some s => String.eqb (status s) "completed"
                       | None => false
                       end]).
    split; [rewrite <- !app_assoc; reflexivity|]. split.
    + apply loop_events_app; [exact Hbody|]. repeat constructor.
    + rewrite Hlog. unfold outcomes, reported in *. rewrite map_app, omap_app, Hout, Hc.
      rewrite app_assoc. reflexivity.
Qed.

Lemma loop_streamed_ok log0 fuel : forall wf n events,
  streamed_ok log0 wf events ->
  match fst (revision_loop_streamed fuel wf n events) with
  | LoopRaised _ wf' _ =>
      streamed_open log0 wf' (snd (revision_loop_streamed fuel wf n events))
  | LoopBreak wf' _ | LoopCap wf' _ | LoopFuel wf' _ =>
      streamed_ok log0 wf' (snd (revision_loop_streamed fuel wf n events))
  end.
Proof.
  assert (Hrev : forall wf events st new,
            streamed_ok log0 wf events ->
            streamed_ok log0 (set_state st (set_steps new wf)) (events ++ [EvRevision])).
  { intros wf events st new (body & -> & Hbody & Hout).
    exists (body ++ [EvRevision]). split; [reflexivity|]. split.
    - apply loop_events_app; [exact Hbody|]. repeat constructor.
    - cbn [conversation_history set_state set_steps]. unfold reported in *.
      rewrite omap_app, Hout. cbn [omap]. rewrite app_nil_r. reflexivity. }
  induction fuel as [|fuel IH]; intros wf n events Hok; cbn [revision_loop_streamed];
    destruct (iteration_count wf <? max_iterations wf); try exact Hok.
  set (wf1 := set_iteration_count (iteration_count wf + 1) wf).
  pose proof (pass_streamed_ok log0 (seq 0 (length (steps wf1))) wf1 n events Hok) as Hp.
  destruct (run_pending_streamed _ wf1 n events) as [wf2 n2 ev2|e wf2 n2 ev2];
    [|exact Hp].
  destruct (_check_if_revision_needed wf2) as [[|]|e]; try exact Hp;
    [|apply streamed_ok_open; exact Hp].
  destruct (_add_revision_steps wf2) as [new|e].
  - apply IH. apply Hrev. exact Hp.
  - cbn [fst snd]. apply streamed_ok_open.
    specialize (Hrev wf2 ev2 (state wf2) (steps wf2) Hp).
    destruct Hrev as (body & Hev & Hbody & Hout). exists body. auto.
Qed.

Lemma finalize_outcomes wf n :
  exists rest,
    outcomes (conversation_history (out_wf (finalize wf n)))
      = outcomes (conversation_history wf) ++ rest
    /\ (rest = []
        \/ exists ok wf' n', rest = [("output", ok)] /\ finalize wf n = Finished wf' n').
Proof.
  rewrite finalize_eq. destruct (last _) as [s|].
  - exists []. cbn. rewrite app_nil_r. auto.
  - destruct (assembly_raises _ _) as [e|].
    + exists []. cbn. rewrite app_nil_r. auto.
    + exists [("output", res_success (step_result (with_forced_output wf)
                                        (length (steps wf)) (forced_output_step wf) n))].
      cbn [out_wf conversation_history set_state set_final_output ended
           with_forced_output set_steps].
      unfold outcomes. rewrite map_app. split; [reflexivity|]. right. eauto.
Qed.

(** X23. What the stream shows of a run: the planning event comes first,
    the events of the loop follow as pairs of [executing] and
    [step_complete] of one agent with [revision] events between passes, and
    [complete] closes the stream exactly when the run returns.  An
    [executing] event is left without its [step_complete] only as the last
    event of a run that raised.  The [step_complete] events report, in
    order, the agent and the outcome of every step the run logs, except for
    the output step appended at the end of a run, which is executed without
    any event.  Every event type has an icon in the table of the runner's
    callback. *)
Theorem stream_reports_the_log fuel wf n :
  exists body open rest,
    snd (run_workflow_streamed fuel wf n)
      = EvPlanning :: body ++ open ++ closing (fst (run_workflow_streamed fuel wf n))
    /\ loop_events body
    /\ unanswered (fst (run_workflow_streamed fuel wf n)) open
    /\ outcomes (conversation_history
                   (final_workflow (fst (run_workflow_streamed fuel wf n))))
       = outcomes (conversation_history wf) ++ reported body ++ rest
    /\ (rest = []
        \/ exists ok, rest = [("output", ok)]
             /\ closing (fst (run_workflow_streamed fuel wf n)) = [EvComplete])
    /\ Forall (fun e => event_type e ∈ icon_keys) (snd (run_workflow_streamed fuel wf n)).
Proof.
  assert (Hicons : Forall (fun e => event_type e ∈ icon_keys)
                     (snd (run_workflow_streamed fuel wf n))).
  { apply Forall_forall. intros e _. apply event_has_icon. }
  revert Hicons. unfold run_workflow_streamed.
  destruct (_plan_workflow (set_state IN_PROGRESS wf) n) as [[planned|e] n1].
  2:{ intros Hicons. exists [], [], []. cbn. rewrite app_nil_r.
      repeat split; auto; [constructor|left; reflexivity]. }
  set (wf1 := set_steps planned (set_state IN_PROGRESS wf)).
  assert (H1 : streamed_ok (conversation_history wf) wf1 [EvPlanning]).
  { exists []. cbn. rewrite app_nil_r. repeat split. constructor. }
  pose proof (loop_streamed_ok _ fuel wf1 n1 [EvPlanning] H1) as H2.
  destruct (revision_loop_streamed fuel wf1 n1 [EvPlanning])
    as [[wf2 n2|wf2 n2|e wf2 n2|wf2 n2] events]; cbn [fst snd] in H2.
  1, 2: destruct H2 as (body & -> & Hbody & Hout);
    destruct (finalize_outcomes wf2 n2) as (rest & Hfin & Hrest);
    destruct (finalize wf2 n2) as [wf3 n3|e wf3 n3];
    cbn [out_wf fst snd final_workflow closing] in *; intros Hicons;
    exists body, [], rest; rewrite Hfin, Hout, <- app_assoc, ?app_nil_r;
    (repeat split; auto; [left; reflexivity|]);
    destruct Hrest as [->|(ok & ? & ? & -> & Hf)]; eauto; discriminate Hf.
  - destruct H2 as (body & open & -> & Hbody & Hopen & Hout).
    cbn [fst snd final_workflow closing]. intros Hicons. exists body, open, [].
    rewrite !app_nil_r. repeat split; auto.
    destruct Hopen as [->|(a & p & ->)]; [left; reflexivity|right].
    exists a, p, e, wf2, n2. auto.
  - destruct H2 as (body & -> & Hbody & Hout).
    cbn [fst snd final_workflow closing]. intros Hicons. exists body, [], [].
    rewrite !app_nil_r. repeat split; auto. left. reflexivity.
Qed.

End Further.


(** ** The knowledge base and the messages *)

Section Knowledge.

Context {rendering : Rendering}.

Lemma substring_length m : forall s,
  String.length (substring 0 m s) = Nat.min m (String.length s).
Proof.
  induction m as [|m IH]; intros [|c s]; cbn [substring String.length Nat.min];
    try reflexivity.
  rewrite IH. reflexivity.
Qed.

Lemma py_slice_length k v v' :
  py_slice k v = Some v' -> json_len v' = Nat.min k (json_len v).
Proof.
  destruct v; try discriminate; intros [= <-]; unfold json_len.
  - apply substring_length.
  - apply length_take.
Qed.

Lemma slice_1000_length v v' :
  slice_1000 v = Some v' -> json_len v' = Nat.min 1000 (json_len v).
Proof. apply py_slice_length. Qed.

Lemma snippet_of_from r s : snippet_of r = Some s -> snippet_from r s.
Proof.
  unfold snippet_of, snippet_from.
  destruct (dict_get "file_name" r) as [f|]; [|discriminate].
  destruct (dict_get "content" r) as [c|]; [|discriminate].
  destruct (slice_1000 c) as [c'|] eqn:Hc; [|discriminate].
  intros [= <-]. cbn [sn_file_name sn_content sn_title sn_source_url].
  repeat split. exists c. repeat split; [exact Hc|].
  apply slice_1000_length. exact Hc.
Qed.

(** X13. [_query_knowledge_base] answers with the empty list when the
    executor has no search client, when the search raises, and when any one
    of the documents found lacks [file_name] or [content] or has a content
    that cannot be sliced: one such document discards the snippets of all
    the others. *)
Theorem knowledge_base_failure_gives_nothing query top_k :
  _query_knowledge_base None query top_k = []
  /\ (forall c, search c query top_k = None ->
        _query_knowledge_base (Some c) query top_k = [])
  /\ (forall c results r,
        search c query top_k = Some results -> r ∈ results ->
        dict_get "file_name" r = None \/ dict_get "content" r = None
        \/ (exists v, dict_get "content" r = Some v /\ slice_1000 v = None) ->
        _query_knowledge_base (Some c) query top_k = []).
Proof.
  split; [reflexivity|]. split.
  - intros c Hs. unfold _query_knowledge_base. rewrite Hs. reflexivity.
  - intros c results r Hs Hin Hbad. unfold _query_knowledge_base. rewrite Hs.
    assert (Hnone : mapM snippet_of results = None).
    { apply mapM_None. apply Exists_exists. exists r. split; [exact Hin|].
      unfold snippet_of.
      destruct Hbad as [->|[Hc|(v & -> & ->)]]; [reflexivity| |].
      - destruct (dict_get "file_name" r); [rewrite Hc|]; reflexivity.
      - destruct (dict_get "file_name" r); reflexivity. }
    rewrite Hnone. reflexivity.
Qed.

(** X14. When every document found has a [file_name] and a content that
    can be sliced, the answer has one snippet per document, in the order of
    the search results; a snippet carries the document's [file_name], its
    content cut to at most 1000 characters (or items), its [title] when the
    document has that field and its [file_name] otherwise, and its
    [source_url] or the empty string. *)
Theorem knowledge_base_snippets c query top_k results :
  search c query top_k = Some results ->
  Forall (fun r => is_Some (snippet_of r)) results ->
  Forall2 snippet_from results (_query_knowledge_base (Some c) query top_k)
  /\ Forall (fun s => (json_len (sn_content s) <= 1000)%nat)
       (_query_knowledge_base (Some c) query top_k).
Proof.
  intros Hs Hall. unfold _query_knowledge_base. rewrite Hs.
  destruct (mapM snippet_of results) as [snippets|] eqn:Hm.
  - apply mapM_Some in Hm.
    assert (H2 : Forall2 snippet_from results snippets).
    { eapply Forall2_impl; [exact Hm|]. intros r s. apply snippet_of_from. }
    split; [exact H2|].
    clear -H2. induction H2 as [|r s l k (_ & (v & _ & _ & Hlen) & _) _ IH]; constructor;
      [rewrite Hlen; apply Nat.le_min_l|exact IH].
  - apply mapM_None in Hm. apply Exists_exists in Hm as (r & Hin & Hr).
    rewrite Forall_forall in Hall. destruct (Hall r Hin) as [s Hsome]. congruence.
Qed.

(** The middle message, when there is one. *)
Lemma build_messages_eq sc a instr ctx kq :
  build_messages sc a instr ctx kq
  = mkMessage "system" (JStr (system_prompt a))
    :: match context_parts sc a ctx kq with
       | [] => []
       | parts => [mkMessage "system" (JStr (String.concat (newline +:+ newline) parts))]
       end
    ++ [mkMessage "user" instr].
Proof. reflexivity. Qed.

Lemma gathered_context_part wf step :
  context_part (Some (gather_context wf step)) = Some (gather_context wf step).
Proof.
  unfold context_part.
  destruct (map_to_list (gather_context wf step)) eqn:Hl; [|reflexivity].
  apply map_to_list_empty_iff in Hl.
  unfold gather_context in Hl. apply insert_non_empty in Hl. destruct Hl.
Qed.

(** X15. The messages of a completion are the agent's system prompt, at
    most one further system message, and the instruction as user message,
    in this order.  The planning call sends exactly the two; a step sends
    three, since its context always holds the user's request. *)
Theorem messages_shape sc a instr ctx kq wf i step0 :
  (exists middle,
     build_messages sc a instr ctx kq
       = [mkMessage "system" (JStr (system_prompt a))] ++ middle
         ++ [mkMessage "user" instr]
     /\ (length middle <= 1)%nat
     /\ Forall (fun m => msg_role m = "system") middle)
  /\ plan_messages sc wf
     = [mkMessage "system" (JStr (system_prompt ORCHESTRATOR));
        mkMessage "user"
          (JStr ("Plan a workflow for this user request: " +:+ user_request wf))]
  /\ length (step_messages sc wf i step0) = 3%nat.
Proof.
  split; [|split].
  - rewrite build_messages_eq.
    destruct (context_parts sc a ctx kq) as [|p ps].
    + exists []. repeat split; [cbn; lia|constructor].
    + eexists [_]. repeat split; [cbn; lia|repeat constructor].
  - reflexivity.
  - unfold step_messages. cbn zeta. rewrite build_messages_eq.
    unfold context_parts. rewrite gathered_context_part.
    match goal with
    | |- context [knowledge_part ?r ?q] => destruct (knowledge_part r q)
    end; [destruct (_query_knowledge_base sc _ 5)|]; reflexivity.
Qed.

Lemma context_parts_without sc a ctx kq :
  context_parts sc a ctx kq <> context_parts None a ctx kq ->
  can_query_knowledge a = true
  /\ exists q, kq = Some q /\ q <> "" /\ _query_knowledge_base sc q 5 <> [].
Proof.
  unfold context_parts, knowledge_part.
  destruct kq as [q|]; [|congruence].
  destruct (can_query_knowledge a); [|cbn; congruence].
  destruct (String.eqb_spec q "") as [->|Hne]; [cbn; congruence|].
  cbn [andb negb]. intros H. split; [reflexivity|]. exists q.
  split; [reflexivity|]. split; [exact Hne|].
  intros Hnil. apply H. rewrite Hnil. reflexivity.
Qed.

(** X16. The knowledge base bears on the messages of a completion only
    when the agent may query knowledge (triage, research, compliance), a
    non-empty query is given and the query finds snippets; in every other
    case (and for the orchestrator, the reviewer and the output agent
    always) the messages are those an executor without search client
    sends, so a failing search goes unnoticed. *)
Theorem knowledge_base_reach sc a instr ctx kq :
  build_messages sc a instr ctx kq <> build_messages None a instr ctx kq ->
  can_query_knowledge a = true
  /\ exists q, kq = Some q /\ q <> "" /\ _query_knowledge_base sc q 5 <> [].
Proof.
  intros H. apply (context_parts_without sc a ctx kq). intros Heq. apply H.
  rewrite !build_messages_eq, Heq. reflexivity.
Qed.

(** *** The table of agents *)

(** X19. The table of [get_agent_config] is consistent: the entry of a
    role carries that role, its prompt from [AGENT_PROMPTS] and the
    permission the orchestrator tests before it passes a knowledge query;
    every delegation target is the name of another member of [AgentRole],
    never the orchestrator; an agent that may query knowledge delegates to
    nobody; display names tell the roles apart; and
    [get_all_agent_configs] holds exactly these six entries. *)
Theorem agent_table_consistent role :
  cfg_role (get_agent_config role) = role
  /\ cfg_system_prompt (get_agent_config role) = system_prompt role
  /\ cfg_can_query_knowledge (get_agent_config role) = can_query_knowledge role
  /\ Forall (fun name => exists r, role_of_name name = Some r
                                   /\ r <> role /\ r <> ORCHESTRATOR)
       (cfg_can_delegate_to (get_agent_config role))
  /\ (can_query_knowledge role = true -> cfg_can_delegate_to (get_agent_config role) = [])
  /\ (forall role', cfg_name (get_agent_config role') = cfg_name (get_agent_config role) ->
        role' = role)
  /\ (forall entry, entry ∈ get_all_agent_configs
        <-> exists r, entry = (r, get_agent_config r))
  /\ NoDup (map fst get_all_agent_configs).
Proof.
  split; [destruct role; reflexivity|].
  split; [destruct role; reflexivity|].
  split; [destruct role; reflexivity|].
  split.
  { destruct role; cbn [get_agent_config cfg_can_delegate_to];
      repeat (apply List.Forall_cons;
              [eexists; (split; [reflexivity|split; discriminate])|]);
      apply List.Forall_nil. }
  split; [destruct role; cbn; congruence|].
  split; [intros role'; destruct role, role'; cbn; congruence|].
  split.
  - intros entry. unfold get_all_agent_configs, all_roles. cbn [map]. split.
    + intros H. repeat (apply elem_of_cons in H as [->|H]; [eauto|]). inversion H.
    + intros [r ->]. destruct r; repeat first [apply list_elem_of_here|apply list_elem_of_further].
  - unfold get_all_agent_configs, all_roles. cbn [map fst].
    repeat (apply NoDup_cons; split;
            [rewrite ?not_elem_of_cons; repeat split; try discriminate;
             apply not_elem_of_nil|]).
    apply NoDup_nil. constructor.
Qed.

(** X20. Role names and role values: the name of a member is its value
    in upper case, and only these six names resolve; a value as it stands
    (in lower case) does not, which is why the orchestrator upper-cases
    agent names before the lookup; distinct roles have distinct values. *)
Theorem role_names_round_trip :
  (forall r, role_of_name (ascii_upper (role_value r)) = Some r)
  /\ (forall name r, role_of_name name = Some r -> name = ascii_upper (role_value r))
  /\ (forall r, role_of_name (role_value r) = None)
  /\ (forall r r', role_value r = role_value r' -> r = r').
Proof.
  split; [intros r; destruct r; reflexivity|].
  split.
  { intros name r. unfold role_of_name.
    repeat match goal with
           | |- context [String.eqb name ?x] =>
               destruct (String.eqb_spec name x) as [->|_];
               [intros [= <-]; reflexivity|]
           end.
    discriminate. }
  split; [intros r; destruct r; reflexivity|].
  intros r r'; destruct r, r'; cbn; congruence.
Qed.

End Knowledge.

(** ** The properties on the scenarios *)

(** The planner answers with a dictionary whose [workflow_steps] is empty:
    planning returns no step. *)
Lemma C1_stepless_plan_witness :
  client (Backend := stepless_planner) 0 (plan_request sample_workflow)
    = Content plan_without_steps_text
  /\ json_loads (Runtime := sample_runtime) plan_without_steps_text
     = Decoded (JObj [("workflow_steps", JArr [])])
  /\ @_plan_workflow sample_runtime stepless_planner sample_workflow 0 = (Ok [], 1%nat).
Proof.
  split; [vm_compute; reflexivity|]. split; [vm_compute; reflexivity|].
  apply (@C1_stepless_plan_is_returned sample_runtime stepless_planner sample_workflow 0
           plan_without_steps_text [("workflow_steps", JArr [])]).
  - vm_compute. reflexivity.
  - vm_compute. reflexivity.
  - discriminate.
  - right. reflexivity.
Defined.

(** Two completed reviews, the first asking for more work, the second declaring
    the analysis ready: the verdict is the first one's. *)
Lemma C2_first_review_witness :
  steps reviewed_twice = [] ++ first_review :: [second_review]
  /\ review_verdict first_review = Some more_work
  /\ review_verdict second_review = Some (JObj [("ready_for_output", JBool true)])
  /\ wants_revision (JObj [("ready_for_output", JBool true)]) = Ok false
  /\ _check_if_revision_needed reviewed_twice = Ok true.
Proof.
  split; [reflexivity|]. split; [reflexivity|]. split; [reflexivity|].
  split; [reflexivity|].
  change (Ok true) with (wants_revision more_work).
  apply (C2_first_review_decides reviewed_twice [] first_review [second_review] more_work).
  - reflexivity.
  - intros x Hx. inversion Hx.
  - reflexivity.
Defined.

(** On a run: the second review declares the analysis ready, yet the loop
    keeps asking for revisions until the cap. *)
Example review_once_runs_to_cap :
  @run_workflow sample_runtime review_once sample_workflow 0
    = Returned
        (final_workflow (@run_workflow sample_runtime review_once sample_workflow 0))
        (calls_made (@run_workflow sample_runtime review_once sample_workflow 0))
  /\ iteration_count
       (final_workflow (@run_workflow sample_runtime review_once sample_workflow 0)) = 5
  /\ length (steps
       (final_workflow (@run_workflow sample_runtime review_once sample_workflow 0)))
     = 15%nat.
Proof. vm_compute. repeat split. Qed.



(** The same cap against a reviewer whose last reply is nested too deep for
    the runtime's [json.dumps]: the loop is left at the cap, rendering the
    context of the forced output step raises, and the run ends with a
    [RecursionError], the state at needs_revision and the output step left
    in progress. *)
Example capped_run_may_raise :
  @run_workflow deep_runtime late_deep_review capped_at_two 0
    = Raised RecursionError
        (final_workflow (@run_workflow deep_runtime late_deep_review capped_at_two 0))
        8%nat
  /\ state (final_workflow (@run_workflow deep_runtime late_deep_review capped_at_two 0))
     = NEEDS_REVISION
  /\ iteration_count
       (final_workflow (@run_workflow deep_runtime late_deep_review capped_at_two 0)) = 2
  /\ map status
       (steps (final_workflow
                 (@run_workflow deep_runtime late_deep_review capped_at_two 0)))
     = ["completed"; "completed"; "completed"; "completed"; "failed";
        "completed"; "completed"; "pending"; "pending"; "in_progress"]
  /\ length (conversation_history
               (final_workflow
                  (@run_workflow deep_runtime late_deep_review capped_at_two 0)))
     = 7%nat.
Proof. vm_compute. repeat split. Qed.

(** The default sequence against a backend that answers in prose: the first run
    logs 5 entries and returns completed, a second run on its result logs 5 more. *)
Lemma C4_second_run_counterexample :
  ~ @second_run_silent sample_runtime prose_backend sample_workflow 0.
Proof.
  intros H.
  pose (r1 := @run_workflow sample_runtime prose_backend sample_workflow 0).
  pose (r2 := @run_workflow sample_runtime prose_backend
                (final_workflow r1) (calls_made r1)).
  assert (E1 : @run_workflow sample_runtime prose_backend sample_workflow 0
               = Returned (final_workflow r1) (calls_made r1))
    by (vm_compute; reflexivity).
  assert (E2 : @run_workflow sample_runtime prose_backend
                 (final_workflow r1) (calls_made r1)
               = Returned (final_workflow r2) (calls_made r2))
    by (vm_compute; reflexivity).
  specialize (H _ _ _ _ E1 E2).
  apply (f_equal length) in H. vm_compute in H. discriminate H.
Qed.

(** Two completed research steps before the output step: the first finding is
    not in the output step's context. *)
Lemma C5_same_role_counterexample :
  ~ context_has_every_prior_output
      (set_steps (<[2%nat := third_step]> (steps two_research_stage)) two_research_stage)
      third_step.
Proof.
  intros H.
  specialize (H (mkStep 1 RESEARCH (JStr "") "completed"
                   (Some (ResSuccess "research" "first finding" JNull)) None)
                (ResSuccess "research" "first finding" JNull)).
  assert (Hin : mkStep 1 RESEARCH (JStr "") "completed"
                  (Some (ResSuccess "research" "first finding" JNull)) None
                ∈ steps (set_steps (<[2%nat := third_step]> (steps two_research_stage))
                           two_research_stage))
    by (vm_compute; apply list_elem_of_here).
  specialize (H Hin ltac:(cbn; lia) eq_refl eq_refl).
  vm_compute in H. discriminate H.
Qed.

(** The same stage: the request of the output step carries the gathered
    context, which holds the second finding under the research key. *)
Lemma C5_context_witness :
  steps two_research_stage !! 2%nat = Some (new_step 3 OUTPUT (JStr ""))
  /\ outputs_match_status (steps two_research_stage)
  /\ rq_context (step_request two_research_stage 2 (new_step 3 OUTPUT (JStr "")))
     = Some (gather_context
               (set_steps (<[2%nat := third_step]> (steps two_research_stage))
                  two_research_stage) third_step)
  /\ gather_context
       (set_steps (<[2%nat := third_step]> (steps two_research_stage))
          two_research_stage) third_step !! "research"
     = Some (CtxOutput (ResSuccess "research" "second finding" JNull)).
Proof.
  assert (Hi : steps two_research_stage !! 2%nat = Some (new_step 3 OUTPUT (JStr "")))
    by (vm_compute; reflexivity).
  assert (H : outputs_match_status (steps two_research_stage))
    by (apply outputs_match_status_check; vm_compute; reflexivity).
  split; [exact Hi|]. split; [exact H|]. split.
  - exact (proj1 (C5_context_of_step two_research_stage 2
                    (new_step 3 OUTPUT (JStr "")) Hi eq_refl H)).
  - vm_compute. reflexivity.
Defined.

(** Two rounds against a reviewer that always asks for more work: ten steps,
    numbered 1 to 10. *)
Lemma C6_positions_witness :
  @_plan_workflow sample_runtime perpetual_reviewer
     (set_state IN_PROGRESS sample_workflow) 0
    = (Ok (default_steps (user_request sample_workflow)), 1%nat)
  /\ positions_ok
       (steps (final_workflow
                 (@run_workflow_fuel sample_runtime perpetual_reviewer 2
                    sample_workflow 0)))
  /\ length (steps (final_workflow
                      (@run_workflow_fuel sample_runtime perpetual_reviewer 2
                         sample_workflow 0))) = 10%nat.
Proof.
  assert (H : @_plan_workflow sample_runtime perpetual_reviewer
                (set_state IN_PROGRESS sample_workflow) 0
              = (Ok (default_steps (user_request sample_workflow)), 1%nat))
    by (vm_compute; reflexivity).
  split; [exact H|]. split.
  - exact (proj1 (proj2 (@C6_positions_append_only sample_runtime perpetual_reviewer 2 0
                           sample_workflow 0 _ _ H))).
  - vm_compute. reflexivity.
Defined.

(** A workflow that comes with two review steps: the run plans anew, and the
    steps it returns begin with the triage step of the default sequence. *)
Lemma C6_replanning_counterexample :
  ~ @keeps_existing_steps sample_runtime prose_backend reviewed_twice 0.
Proof.
  intros H.
  pose (r := @run_workflow sample_runtime prose_backend reviewed_twice 0).
  assert (E : @run_workflow sample_runtime prose_backend reviewed_twice 0
              = Returned (final_workflow r) (calls_made r))
    by (vm_compute; reflexivity).
  destruct (H _ _ E) as [k Hk]. vm_compute in Hk. discriminate Hk.
Qed.

(** The replies of [research_down] that decode are well shaped. *)
Lemma research_down_well_shaped : @replies_well_shaped sample_runtime research_down.
Proof.
  intros n rq text v Hc Hl. cbn in Hc, Hl.
  destruct (rq_agent rq); try discriminate Hc; injection Hc as <-;
    vm_compute in Hl; try discriminate Hl; injection Hl as <-; reflexivity.
Qed.

(** They can be rendered, and the knowledge base raises nothing. *)
Lemma research_down_renders : @replies_render sample_runtime research_down.
Proof.
  split; [|reflexivity].
  intros n rq text v Hc Hl. cbn in Hc, Hl.
  destruct (rq_agent rq); try discriminate Hc; injection Hc as <-;
    vm_compute in Hl; try discriminate Hl; injection Hl as <-; reflexivity.
Qed.



(** A reply of 4301 digits: the backend replied, [json.loads] raises on the
    text, and [execute] returns a failure result. *)
Lemma C8_long_integer_witness :
  client (Backend := long_integer_backend) 0 (mkRequest RESEARCH (JStr "count") None None)
    = Content long_integer_text
  /\ exists result,
       @execute digit_limit_runtime long_integer_backend RESEARCH (JStr "count")
         None None 0 = (Ok result, 1%nat)
       /\ res_success result = false
       /\ res_error result = digit_limit_message.
Proof.
  split; [reflexivity|].
  assert (Hl : json_loads (Runtime := digit_limit_runtime) long_integer_text
               = LoadRaised digit_limit_message)
    by (vm_compute; reflexivity).
  destruct (proj2 (@C8_execute_result digit_limit_runtime long_integer_backend RESEARCH
                     (JStr "count") None None 0) eq_refl)
    as (result & Hex & _ & _ & Hraised & _).
  exists result. split; [exact Hex|].
  rewrite (Hraised long_integer_text _ eq_refl Hl). split; reflexivity.
Defined.

(** The results of the knowledge base cannot be serialised: [execute] raises
    before the backend is called. *)
Example execute_may_raise :
  @execute sample_runtime unrenderable_knowledge RESEARCH (JStr "count")
    None (Some "outage") 0 = (Raise TypeError, 0%nat).
Proof. reflexivity. Qed.

(** The outputs stored in [reviewed_twice] are well shaped. *)
Lemma reviewed_twice_well_shaped : outputs_well_shaped reviewed_twice.
Proof.
  intros s out Hs Hout. cbn in Hs.
  apply elem_of_cons in Hs as [->|Hs]; [injection Hout as <-; reflexivity|].
  apply list_elem_of_singleton in Hs. subst s. injection Hout as <-. reflexivity.
Qed.

(** The planner, and a review, name an agent "auditor": the step made for it is
    a research step. *)
Lemma C9_auditor_witness :
  (exists planned s,
     @_plan_workflow sample_runtime auditor_planner sample_workflow 0
       = (Ok planned, 1%nat)
     /\ planned !! 0%nat = Some s /\ agent s = RESEARCH)
  /\ (exists new s,
        @_add_revision_steps sample_runtime reviewed_twice = Ok new
        /\ new !! 0%nat = Some s /\ agent s = RESEARCH).
Proof.
  split.
  - destruct (proj1 (@C9_unknown_agent_is_research sample_runtime auditor_planner)
                sample_workflow 0%nat plan_unknown_agent_text
                [("workflow_steps",
                  JArr [JObj [("agent", JStr "auditor");
                              ("instruction", JStr "check the ledger")]])]
                [JObj [("agent", JStr "auditor"); ("instruction", JStr "check the ledger")]]
                eq_refl eq_refl eq_refl eq_refl)
      as (planned & Hplan & _ & Hagent).
    destruct (Hagent 0%nat [("agent", JStr "auditor");
                            ("instruction", JStr "check the ledger")]
                "auditor" eq_refl eq_refl eq_refl) as (s & Hs & Ha).
    exists planned, s. auto.
  - destruct (proj2 (@C9_unknown_agent_is_research sample_runtime auditor_planner)
                reviewed_twice reviewed_twice_well_shaped)
      as (new & Hnew & Hagent).
    destruct (Hagent 0%nat [("agent", JStr "auditor"); ("task", JStr "dig deeper")]
                "auditor" eq_refl eq_refl eq_refl) as (s & Hs & Ha).
    exists new, s. auto.
Defined.

(** The run against [research_down] returns completed with an output. *)
Lemma well_shaped_run_witness :
  @replies_well_shaped sample_runtime research_down
  /\ @replies_render sample_runtime research_down
  /\ exists wf n,
       @run_workflow sample_runtime research_down sample_workflow 0 = Returned wf n
       /\ state wf = COMPLETED /\ is_Some (final_output wf).
Proof.
  split; [exact research_down_well_shaped|]. split; [exact research_down_renders|].
  exact (@well_shaped_run_completes sample_runtime research_down sample_workflow 0
           research_down_well_shaped research_down_renders).
Defined.

(** After the run against [research_down], output is on the completed steps only. *)
Lemma run_workflow_outputs_witness :
  @_plan_workflow sample_runtime research_down (set_state IN_PROGRESS sample_workflow) 0
    = (Ok (default_steps (user_request sample_workflow)), 1%nat)
  /\ outputs_match_status
       (steps (final_workflow
                 (@run_workflow_fuel sample_runtime research_down 5 sample_workflow 0))).
Proof.
  assert (H : @_plan_workflow sample_runtime research_down
                (set_state IN_PROGRESS sample_workflow) 0
              = (Ok (default_steps (user_request sample_workflow)), 1%nat))
    by (vm_compute; reflexivity).
  split; [exact H|].
  exact (@run_workflow_outputs sample_runtime research_down 5 sample_workflow 0 _ _ H).
Defined.


(** C10. A reply that decodes to something other than a dictionary makes
    the orchestrator raise: with such a reply from the planner the run stops
    in state [IN_PROGRESS] before any step exists, with such a reply from
    the reviewer it stops in state [IN_PROGRESS] after the first pass; in
    both cases without a final output. *)
Theorem C10_array_reply_aborts_run :
  @run_workflow sample_runtime array_planner sample_workflow 0
    = Raised AttributeError (set_state IN_PROGRESS sample_workflow) 1%nat
  /\ @run_workflow sample_runtime array_reviewer sample_workflow 0
     = Raised AttributeError
         (final_workflow (@run_workflow sample_runtime array_reviewer sample_workflow 0))
         6%nat
  /\ state (final_workflow
              (@run_workflow sample_runtime array_reviewer sample_workflow 0))
     = IN_PROGRESS
  /\ final_output
       (final_workflow (@run_workflow sample_runtime array_reviewer sample_workflow 0))
     = None
  /\ length (steps
       (final_workflow (@run_workflow sample_runtime array_reviewer sample_workflow 0)))
     = 5%nat.
Proof. vm_compute. repeat split. Qed.

(** The default plan against [research_down], used below. *)
Lemma research_down_plan :
  @_plan_workflow sample_runtime research_down (set_state IN_PROGRESS sample_workflow) 0
    = (Ok (default_steps (user_request sample_workflow)), 1%nat).
Proof. vm_compute. reflexivity. Defined.

(** The log of the run against [research_down] lists its executed steps. *)
Lemma log_lists_executed_steps_witness :
  @_plan_workflow sample_runtime research_down (set_state IN_PROGRESS sample_workflow) 0
    = (Ok (default_steps (user_request sample_workflow)), 1%nat)
  /\ conversation_history
       (final_workflow (@run_workflow_fuel sample_runtime research_down 5 sample_workflow 0))
     = conversation_history sample_workflow
       ++ map entry_of
            (executed_steps
               (steps (final_workflow
                  (@run_workflow_fuel sample_runtime research_down 5 sample_workflow 0)))).
Proof.
  split; [exact research_down_plan|].
  exact (proj1 (@log_lists_executed_steps sample_runtime research_down 5 sample_workflow 0
                  _ _ research_down_plan)).
Defined.

(** The calls of the run against [research_down] are those its summary counts. *)
Lemma summary_counts_calls_witness :
  @_plan_workflow sample_runtime research_down (set_state IN_PROGRESS sample_workflow) 0
    = (Ok (default_steps (user_request sample_workflow)), 1%nat)
  /\ calls_made (@run_workflow_fuel sample_runtime research_down 5 sample_workflow 0)
     = (0 + 1
        + steps_executed
            (get_workflow_summary
               (final_workflow
                  (@run_workflow_fuel sample_runtime research_down 5 sample_workflow 0)))
        + steps_failed
            (get_workflow_summary
               (final_workflow
                  (@run_workflow_fuel sample_runtime research_down 5 sample_workflow 0))))%nat.
Proof.
  split; [exact research_down_plan|].
  exact (proj1 (@summary_counts_calls sample_runtime research_down 5 sample_workflow 0
                  _ _ research_down_plan)).
Defined.

(** The loop of the run against [research_down] is left by [break]. *)
Lemma research_down_breaks :
  @revision_loop sample_runtime research_down 5
     (set_steps (default_steps (user_request sample_workflow))
        (set_state IN_PROGRESS sample_workflow)) 1
  = LoopBreak
      (loop_final
         (@revision_loop sample_runtime research_down 5
            (set_steps (default_steps (user_request sample_workflow))
               (set_state IN_PROGRESS sample_workflow)) 1))
      6.
Proof. vm_compute. reflexivity. Defined.

(** The run against [research_down] returns. *)
Lemma research_down_returns :
  @run_workflow_fuel sample_runtime research_down 5 sample_workflow 0
  = Returned
      (final_workflow (@run_workflow_fuel sample_runtime research_down 5 sample_workflow 0))
      (calls_made (@run_workflow_fuel sample_runtime research_down 5 sample_workflow 0)).
Proof. vm_compute. reflexivity. Defined.

(** After it, no step of the run against [research_down] is pending. *)
Lemma break_leaves_no_pending_step_witness :
  @_plan_workflow sample_runtime research_down (set_state IN_PROGRESS sample_workflow) 0
    = (Ok (default_steps (user_request sample_workflow)), 1%nat)
  /\ Forall settled
       (steps (final_workflow
          (@run_workflow_fuel sample_runtime research_down 5 sample_workflow 0))).
Proof.
  split; [exact research_down_plan|].
  exact (proj1 (@break_leaves_no_pending_step sample_runtime research_down 5
                  sample_workflow 0 _ _ _ _ _ _ research_down_plan research_down_breaks
                  research_down_returns)).
Defined.

(** A run that raised: the knowledge base returns results that cannot be
    serialised, so the first step is left in progress, nothing is logged
    and no completion is requested after the planning call. *)
Example interrupted_run :
  @run_workflow sample_runtime unrenderable_knowledge sample_workflow 0
    = Raised TypeError
        (final_workflow
           (@run_workflow sample_runtime unrenderable_knowledge sample_workflow 0))
        1%nat
  /\ map status
       (steps (final_workflow
                 (@run_workflow sample_runtime unrenderable_knowledge sample_workflow 0)))
     = ["in_progress"; "pending"; "pending"; "pending"; "pending"]
  /\ conversation_history
       (final_workflow
          (@run_workflow sample_runtime unrenderable_knowledge sample_workflow 0))
     = [].
Proof. vm_compute. repeat split. Qed.

(** With a callback, that run leaves the [executing] event of its first step
    unanswered. *)
Example unanswered_event :
  map event_type
    (snd (@run_workflow_streamed sample_runtime unrenderable_knowledge 5
            sample_workflow 0))
  = ["planning"; "executing"].
Proof. vm_compute. reflexivity. Qed.

(** A cap of zero: two calls, one step executed. *)
Lemma exhausted_cap_runs_output_only_witness :
  max_iterations capped_at_zero <= iteration_count capped_at_zero
  /\ exists wf' x,
       @run_workflow sample_runtime research_down capped_at_zero 0 = Returned wf' 2
       /\ steps wf' = default_steps (user_request capped_at_zero) ++ [x].
Proof.
  assert (Hplan : @_plan_workflow sample_runtime research_down
                    (set_state IN_PROGRESS capped_at_zero) 0
                  = (Ok (default_steps (user_request capped_at_zero)), 1%nat))
    by (vm_compute; reflexivity).
  assert (Hcap : max_iterations capped_at_zero <= iteration_count capped_at_zero)
    by (cbn; lia).
  split; [exact Hcap|].
  destruct (@exhausted_cap_runs_output_only sample_runtime research_down capped_at_zero 0
              _ _ Hplan Hcap) as (wf' & x & Hrun & Hsteps & _).
  exists wf', x. split; assumption.
Defined.

(** The final output of the run against [research_down]. *)
Lemma final_output_is_last_completed_output_witness :
  exists wf' n',
    @run_workflow_fuel sample_runtime research_down 5 sample_workflow 0 = Returned wf' n'
    /\ final_output wf'
       = Some (match last (filter (fun s => is_completed_output s = true) (steps wf')) with
               | Some s => raw_response_of s
               | None => ""
               end).
Proof.
  assert (Hrun : @run_workflow_fuel sample_runtime research_down 5 sample_workflow 0
                 = Returned
                     (final_workflow
                        (@run_workflow_fuel sample_runtime research_down 5 sample_workflow 0))
                     (calls_made
                        (@run_workflow_fuel sample_runtime research_down 5 sample_workflow 0)))
    by (vm_compute; reflexivity).
  eexists _, _. split; [exact Hrun|].
  exact (proj1 (@final_output_is_last_completed_output sample_runtime research_down 5
                  sample_workflow 0 _ _ Hrun)).
Defined.

(** [prose_backend] answers with text that does not decode. *)
Lemma prose_unstructured : @replies_unstructured sample_runtime prose_backend.
Proof.
  intros n rq text v Hc Hl. cbn in Hc.
  assert (Ht : text = "All clear.") by (destruct n; cbn in Hc; congruence).
  subst text. vm_compute in Hl. discriminate Hl.
Defined.

(** The run against [prose_backend] takes one round. *)
Lemma unstructured_replies_single_pass_witness :
  @replies_unstructured sample_runtime prose_backend
  /\ @knowledge_renders prose_backend
  /\ iteration_count sample_workflow < max_iterations sample_workflow
  /\ exists wf',
       @run_workflow sample_runtime prose_backend sample_workflow 0
         = Returned wf' (0 + 1 + length (steps wf'))
       /\ iteration_count wf' = iteration_count sample_workflow + 1.
Proof.
  assert (Hlt : iteration_count sample_workflow < max_iterations sample_workflow)
    by (cbn; lia).
  assert (Hkb : @knowledge_renders prose_backend) by (intros n q; reflexivity).
  split; [exact prose_unstructured|]. split; [exact Hkb|]. split; [exact Hlt|].
  destruct (@unstructured_replies_single_pass sample_runtime prose_backend sample_workflow 0
              prose_unstructured Hkb Hlt) as (wf' & done & extra & Hrun & _ & Hcount & _).
  exists wf'. split; assumption.
Defined.

(** The stalled review: five rounds, no call. *)
Lemma revision_without_work_spins_to_cap_witness :
  Forall settled (steps stalled)
  /\ _check_if_revision_needed stalled = Ok true
  /\ @_add_revision_steps sample_runtime stalled = Ok []
  /\ @revision_loop sample_runtime prose_backend
       (Z.to_nat (max_iterations stalled - iteration_count stalled)) stalled 0
     = LoopCap (set_state NEEDS_REVISION
                  (set_iteration_count (max_iterations stalled) stalled)) 0.
Proof.
  assert (Hs : Forall settled (steps stalled))
    by (constructor; [left; reflexivity|constructor]).
  assert (Hc : _check_if_revision_needed stalled = Ok true) by reflexivity.
  assert (Ha : @_add_revision_steps sample_runtime stalled = Ok []) by reflexivity.
  split; [exact Hs|]. split; [exact Hc|]. split; [exact Ha|].
  apply (@revision_without_work_spins_to_cap sample_runtime prose_backend stalled 0 Hs Hc Ha).
  cbn. lia.
Defined.

(** The two sample documents give two snippets. *)
Lemma knowledge_base_snippets_witness :
  search sample_search "outage" 5 = Some sample_documents
  /\ Forall (fun r => is_Some (snippet_of r)) sample_documents
  /\ Forall2 snippet_from sample_documents
       (_query_knowledge_base (Some sample_search) "outage" 5).
Proof.
  assert (Hs : search sample_search "outage" 5 = Some sample_documents) by reflexivity.
  assert (Hall : Forall (fun r => is_Some (snippet_of r)) sample_documents)
    by (repeat constructor; eexists; vm_compute; reflexivity).
  split; [exact Hs|]. split; [exact Hall|].
  exact (proj1 (knowledge_base_snippets sample_search "outage" 5 sample_documents Hs Hall)).
Defined.

(** The research agent's messages change with the search client. *)
Lemma knowledge_base_reach_witness :
  @build_messages sample_rendering (Some sample_search) RESEARCH (JStr "Find the SLA")
    None (Some "outage")
  <> @build_messages sample_rendering None RESEARCH (JStr "Find the SLA") None
       (Some "outage")
  /\ can_query_knowledge RESEARCH = true.
Proof.
  assert (H : @build_messages sample_rendering (Some sample_search) RESEARCH
                (JStr "Find the SLA") None (Some "outage")
              <> @build_messages sample_rendering None RESEARCH (JStr "Find the SLA") None
                   (Some "outage"))
    by (vm_compute; discriminate).
  split; [exact H|].
  exact (proj1 (@knowledge_base_reach sample_rendering (Some sample_search) RESEARCH
                  (JStr "Find the SLA") None (Some "outage") H)).
Defined.

(** [POST /workflow] with a cap of 2 against [research_down]. *)
Lemma api_workflow_responds_witness :
  @replies_well_shaped sample_runtime research_down
  /\ @replies_render sample_runtime research_down
  /\ exists r n',
       @api_run_workflow sample_runtime research_down "wf_0002"
         (mkWorkflowRequest "status of the tax filings" (Some 2)) 0 = Responded r n'
       /\ resp_state r = "completed"
       /\ is_Some (resp_final_output r)
       /\ Z.min 1 (Z.max 0 2) <= resp_iterations r <= Z.max 0 2.
Proof.
  split; [exact research_down_well_shaped|]. split; [exact research_down_renders|].
  destruct (proj1 (@api_workflow_responds sample_runtime research_down "wf_0002"
                     "status of the tax filings" 0 research_down_well_shaped
                     research_down_renders) 2)
    as (r & n' & H1 & H2 & H3 & H4 & _).
  exists r, n'. repeat split; tauto.
Defined.

(** A plan with a numeric instruction: the run without callback returns,
    the run with a callback stops before its first step. *)
Lemma unsliceable_instruction_stops_stream_witness :
  @_plan_workflow numbered_runtime numbered_planner
     (set_state IN_PROGRESS sample_workflow) 0
    = (Ok [new_step 1 RESEARCH (JInt 5)], 1%nat)
  /\ state (final_workflow
              (@run_workflow numbered_runtime numbered_planner sample_workflow 0))
     = COMPLETED
  /\ @run_workflow_streamed numbered_runtime numbered_planner 5 sample_workflow 0
     = (Raised TypeError
          (set_iteration_count (iteration_count sample_workflow + 1)
             (set_steps [new_step 1 RESEARCH (JInt 5)]
                (set_state IN_PROGRESS sample_workflow))) 1%nat,
        [EvPlanning]).
Proof.
  assert (Hplan : @_plan_workflow numbered_runtime numbered_planner
                    (set_state IN_PROGRESS sample_workflow) 0
                  = (Ok [new_step 1 RESEARCH (JInt 5)], 1%nat))
    by (vm_compute; reflexivity).
  split; [exact Hplan|]. split; [vm_compute; reflexivity|].
  apply (@unsliceable_instruction_stops_stream numbered_runtime numbered_planner 4
           sample_workflow 0 _ _ _ Hplan); [reflexivity|cbn; lia].
Defined.
